(** * Bubod: MySQL binlog event parser and dump loop

    A shallow embedding of the replication client of [Bubod/mysql]
    ([binlog.go], [event_rows.go], [event_tablemap.go], [event_rotate.go],
    [event_header.go]) and of the configuration reader of [Bubod/config]
    ([config.go]), and the properties of the row decoder, of the table map
    and its column metadata, of the parser and its caches, of the dump loop
    and of the configuration reader.

    Conventions.
    - A Go [bytes.Buffer] is the list of its unread bytes; every reader
      returns the remaining buffer.
    - A Go [error] is an [option error] ([None] is [nil]); a run-time panic
      and a loop that never exits are outcomes of their own ([Panic],
      [Diverge]), since the source neither recovers from the former nor
      bounds the latter.
    - Fixed-width integers are [Z] with the wrap-around written out. *)

From Stdlib Require Import ZArith Lia Bool.
From Stdlib Require Import Strings.Byte Strings.Ascii Strings.String.
From Stdlib Require Import Numbers.DecimalString.
From stdpp Require Import base option list gmap strings.

Open Scope string_scope.
Open Scope list_scope.
Open Scope Z_scope.

(** ** Go run-time model *)
Module Go.

Inductive panic : Type :=
| NilDereference      (* invalid memory address or nil pointer dereference *)
| IndexOutOfRange     (* index out of range *)
| SliceBounds.        (* slice bounds out of range *)

Inductive error : Type :=
| EOF                                 (* io.EOF *)
| ErrUnexpectedEOF                    (* io.ErrUnexpectedEOF *)
| ErrUnimplemented (field_type : Z)   (* "parseEventRow unimplemented for field type %s" *)
| ErrUnknownFieldType (field_type : Z) (* "Unknown FieldType %d" *)
| ErrText (msg : string).             (* fmt.Errorf of a fixed text *)

(** What running a Go function can come to. *)
Inductive outcome (A : Type) : Type :=
| Done (a : A)
| Panic (p : panic)
| Diverge.
Arguments Done {A} a.
Arguments Panic {A} p.
Arguments Diverge {A}.

Definition bind {A B} (m : outcome A) (k : A -> outcome B) : outcome B :=
  match m with
  | Done a => k a
  | Panic p => Panic p
  | Diverge => Diverge
  end.

#[global] Instance outcome_ret : MRet outcome := @Done.
#[global] Instance outcome_bind : MBind outcome := fun A B k m => bind m k.

(** *** Fixed-width integers *)

Definition wrap (bits : Z) (z : Z) : Z := z mod 2 ^ bits.

(** Two's-complement reading of [z] at width [bits]. *)
Definition signed (bits : Z) (z : Z) : Z :=
  let u := wrap bits z in
  if u <? 2 ^ (bits - 1) then u else u - 2 ^ bits.

Definition uint8 := wrap 8.
Definition uint16 := wrap 16.
Definition uint32 := wrap 32.
Definition uint64 := wrap 64.
Definition int8 := signed 8.
Definition int16 := signed 16.
Definition int32 := signed 32.
Definition int64 := signed 64.
(** [int] and [uint] are 64 bits wide on the platforms the agent targets. *)
Definition int := signed 64.

Definition byte_to_Z (b : byte) : Z := Z.of_N (Byte.to_N b).

Definition byte_of_Z (z : Z) : byte :=
  match Byte.of_N (Z.to_N (uint8 z)) with
  | Some b => b
  | None => x00
  end.

(** *** Byte order *)

Fixpoint le_uint (bs : list byte) : Z :=
  match bs with
  | [] => 0
  | b :: rest => byte_to_Z b + 256 * le_uint rest
  end.

Definition be_uint (bs : list byte) : Z := le_uint (rev bs).

(** *** bytes.Buffer *)

(** [buf.Len()] *)
Definition Len (buf : list byte) : Z := Z.of_nat (length buf).

(** [buf.Next(n)]: the next [n] bytes, or all that is left when fewer
    remain; a negative [n] is a slice-bounds panic. *)
Definition Next (n : Z) (buf : list byte) : outcome (list byte * list byte) :=
  if n <? 0 then Panic SliceBounds
  else Done (take (Z.to_nat n) buf, drop (Z.to_nat n) buf).

(** [buf.ReadByte()] *)
Definition ReadByte (buf : list byte) : byte * option error * list byte :=
  match buf with
  | [] => (x00, Some EOF, [])
  | b :: rest => (b, None, rest)
  end.

(** [io.ReadFull] of [n > 0] bytes from a buffer, as [binary.Read] uses
    it: all [n] bytes, or [io.EOF] from an empty buffer, or
    [io.ErrUnexpectedEOF] after draining a buffer that is too short. *)
Definition ReadFull (n : nat) (buf : list byte)
  : option (list byte) * option error * list byte :=
  if (n <=? length buf)%nat then (Some (take n buf), None, drop n buf)
  else match buf with
       | [] => (None, Some EOF, [])
       | _ => (None, Some ErrUnexpectedEOF, [])
       end.

(** [binary.Read(buf, order, &v)] for a [v] of [n] bytes that is decoded
    by [dec]; on an error [v] keeps its old value [old]. *)
Definition binary_Read {A} (n : nat) (dec : list byte -> A) (old : A)
    (buf : list byte) : A * option error * list byte :=
  match ReadFull n buf with
  | (Some bs, e, rest) => (dec bs, e, rest)
  | (None, e, rest) => (old, e, rest)
  end.

(** *** strconv and fmt *)

(** [strconv.Itoa] *)
Definition Itoa (z : Z) : string := NilZero.string_of_int (Z.to_int z).

Fixpoint zeros (n : nat) : string :=
  match n with
  | O => EmptyString
  | S k => String "0" (zeros k)
  end.

(** [fmt.Sprintf("%0*d", width, v)]: the sign, then zeros up to [width]
    characters in all, then the digits. *)
Definition Sprintf_0d (width : Z) (v : Z) : string :=
  let digits := Itoa (Z.abs v) in
  let sign := if v <? 0 then "-" else "" in
  let pad := Z.to_nat (width - Z.of_nat (String.length sign)
                             - Z.of_nat (String.length digits)) in
  String.append sign (String.append (zeros pad) digits).

(** Value of a string of binary digits, [None] on any other character. *)
Fixpoint parse_binary (acc : Z) (s : string) : option Z :=
  match s with
  | EmptyString => Some acc
  | String c rest =>
      if Ascii.eqb c "0"%char then parse_binary (2 * acc) rest
      else if Ascii.eqb c "1"%char then parse_binary (2 * acc + 1) rest
      else None
  end.

(** [strconv.ParseInt(s, 2, bitSize)] with the error dropped: 0 on a
    syntax error (the empty string included), the largest [bitSize]-bit
    signed value when out of range. *)
Definition ParseInt_base2 (s : string) (bitSize : Z) : Z :=
  match s with
  | EmptyString => 0
  | _ =>
      match parse_binary 0 s with
      | None => 0
      | Some v => if 2 ^ (bitSize - 1) <=? v then 2 ^ (bitSize - 1) - 1 else v
      end
  end.

(** [string(bytes)] *)
Definition string_of_bytes (bs : list byte) : string := string_of_list_byte bs.

End Go.

Import Go.

(** ** Wire codec

    The integer readers of the wire codec are called from the files embedded
    here but defined elsewhere in the package. *)
Module Wire.

(** Modelled from the spec: [readFixedLengthInteger] is not among the
    embedded sources; section 4.1 gives [read_fixed_len_uint(n)], a
    little-endian unsigned integer of [n] bytes. A short buffer yields 0 and
    the reader's error. *)
Definition readFixedLengthInteger (n : Z) (buf : list byte)
  : Z * option error * list byte :=
  binary_Read (Z.to_nat n) le_uint 0 buf.

(** Modelled from the spec: [readLengthEncodedInt] is not among the
    embedded sources; section 4.1: a 1-byte prefix; 0xFC, then 2 bytes;
    0xFD, then 3 bytes; 0xFE, then 8 bytes; 0xFF reserved. *)
Definition readLengthEncodedInt (buf : list byte)
  : Z * option error * list byte :=
  match ReadByte buf with
  | (_, Some e, rest) => (0, Some e, rest)
  | (p, None, rest) =>
      let p := byte_to_Z p in
      if p =? 252 then readFixedLengthInteger 2 rest
      else if p =? 253 then readFixedLengthInteger 3 rest
      else if p =? 254 then readFixedLengthInteger 8 rest
      else if p =? 255 then (0, None, rest)
      else (p, None, rest)
  end.

(** Modelled from the spec: [bytesToUint16], [bytesToUint24] and
    [bytesToUint32] are not among the embedded sources; section 4.1 lists
    them as the little-endian readers [read_uint{16,24,32}_le]. *)
Definition bytesToUint16 (bs : list byte) : Z := uint16 (le_uint bs).
Definition bytesToUint24 (bs : list byte) : Z := uint32 (le_uint (take 3 bs)).
Definition bytesToUint32 (bs : list byte) : Z := uint32 (le_uint bs).

End Wire.
Import Wire.

(** ** Event header and type tables (event_header.go) *)

(** Event-type codes. The constant block is not among the embedded sources;
    the codes are those of section 4.2 of the specification. *)
Definition QUERY_EVENT : Z := 2.
Definition ROTATE_EVENT : Z := 4.
Definition FORMAT_DESCRIPTION_EVENT : Z := 15.
Definition TABLE_MAP_EVENT : Z := 19.
Definition DELETE_ROWS_EVENTv0 : Z := 20.
Definition UPDATE_ROWS_EVENTv0 : Z := 21.
Definition WRITE_ROWS_EVENTv0 : Z := 22.
Definition WRITE_ROWS_EVENTv1 : Z := 23.
Definition UPDATE_ROWS_EVENTv1 : Z := 24.
Definition DELETE_ROWS_EVENTv1 : Z := 25.
Definition HEARTBEAT_EVENT : Z := 27.
Definition IGNORABLE_EVENT : Z := 28.
Definition WRITE_ROWS_EVENTv2 : Z := 30.
Definition UPDATE_ROWS_EVENTv2 : Z := 31.
Definition DELETE_ROWS_EVENTv2 : Z := 32.
Definition GTID_EVENT : Z := 33.
Definition ANONYMOUS_GTID_EVENT : Z := 34.
Definition PREVIOUS_GTIDS_EVENT : Z := 35.

Record EventHeader : Type := mkEventHeader {
  Timestamp : Z;   (* uint32 *)
  EventType : Z;   (* 1 byte *)
  ServerId : Z;    (* uint32 *)
  EventSize : Z;   (* uint32 *)
  LogPos : Z;      (* uint32 *)
  Flags : Z        (* 2 bytes *)
}.

Definition zero_header : EventHeader := mkEventHeader 0 0 0 0 0 0.

(** The 19 bytes of the common header, little-endian, in field order. *)
Definition decode_header (bs : list byte) : EventHeader :=
  {| Timestamp := le_uint (take 4 bs);
     EventType := le_uint (take 1 (drop 4 bs));
     ServerId := le_uint (take 4 (drop 5 bs));
     EventSize := le_uint (take 4 (drop 9 bs));
     LogPos := le_uint (take 4 (drop 13 bs));
     Flags := le_uint (take 2 (drop 17 bs)) |}.

(** [binary.Read(buf, binary.LittleEndian, &event.header)] on a fresh event. *)
Definition read_header (buf : list byte)
  : EventHeader * option error * list byte :=
  binary_Read 19 decode_header zero_header buf.

(** ** Column types (event_tablemap.go) *)

(** The wire column types that the decoders switch on. The constant block is
    not among the embedded sources; [FIELD_TYPE_other] stands for every code
    that none of the named constants has. *)
Inductive FieldType : Type :=
| FIELD_TYPE_DECIMAL | FIELD_TYPE_TINY | FIELD_TYPE_SHORT | FIELD_TYPE_LONG
| FIELD_TYPE_FLOAT | FIELD_TYPE_DOUBLE | FIELD_TYPE_NULL | FIELD_TYPE_TIMESTAMP
| FIELD_TYPE_LONGLONG | FIELD_TYPE_INT24 | FIELD_TYPE_DATE | FIELD_TYPE_TIME
| FIELD_TYPE_DATETIME | FIELD_TYPE_YEAR | FIELD_TYPE_NEWDATE | FIELD_TYPE_VARCHAR
| FIELD_TYPE_BIT | FIELD_TYPE_TIMESTAMP2 | FIELD_TYPE_DATETIME2 | FIELD_TYPE_TIME2
| FIELD_TYPE_NEWDECIMAL | FIELD_TYPE_ENUM | FIELD_TYPE_SET | FIELD_TYPE_TINY_BLOB
| FIELD_TYPE_MEDIUM_BLOB | FIELD_TYPE_LONG_BLOB | FIELD_TYPE_BLOB
| FIELD_TYPE_VAR_STRING | FIELD_TYPE_STRING | FIELD_TYPE_GEOMETRY
| FIELD_TYPE_other (code : Z).

(** The numeric code of a column type, as the MySQL protocol
    ([Protocol::ColumnType], the page the source cites) assigns it. *)
Definition FieldType_code (t : FieldType) : Z :=
  match t with
  | FIELD_TYPE_DECIMAL => 0 | FIELD_TYPE_TINY => 1 | FIELD_TYPE_SHORT => 2
  | FIELD_TYPE_LONG => 3 | FIELD_TYPE_FLOAT => 4 | FIELD_TYPE_DOUBLE => 5
  | FIELD_TYPE_NULL => 6 | FIELD_TYPE_TIMESTAMP => 7 | FIELD_TYPE_LONGLONG => 8
  | FIELD_TYPE_INT24 => 9 | FIELD_TYPE_DATE => 10 | FIELD_TYPE_TIME => 11
  | FIELD_TYPE_DATETIME => 12 | FIELD_TYPE_YEAR => 13 | FIELD_TYPE_NEWDATE => 14
  | FIELD_TYPE_VARCHAR => 15 | FIELD_TYPE_BIT => 16 | FIELD_TYPE_TIMESTAMP2 => 17
  | FIELD_TYPE_DATETIME2 => 18 | FIELD_TYPE_TIME2 => 19
  | FIELD_TYPE_NEWDECIMAL => 246 | FIELD_TYPE_ENUM => 247 | FIELD_TYPE_SET => 248
  | FIELD_TYPE_TINY_BLOB => 249 | FIELD_TYPE_MEDIUM_BLOB => 250
  | FIELD_TYPE_LONG_BLOB => 251 | FIELD_TYPE_BLOB => 252
  | FIELD_TYPE_VAR_STRING => 253 | FIELD_TYPE_STRING => 254
  | FIELD_TYPE_GEOMETRY => 255
  | FIELD_TYPE_other c => c
  end.

(** [FieldType(b)] for a wire byte [b]. *)
Definition FieldType_of_byte (b : byte) : FieldType :=
  match byte_to_Z b with
  | 0 => FIELD_TYPE_DECIMAL | 1 => FIELD_TYPE_TINY | 2 => FIELD_TYPE_SHORT
  | 3 => FIELD_TYPE_LONG | 4 => FIELD_TYPE_FLOAT | 5 => FIELD_TYPE_DOUBLE
  | 6 => FIELD_TYPE_NULL | 7 => FIELD_TYPE_TIMESTAMP | 8 => FIELD_TYPE_LONGLONG
  | 9 => FIELD_TYPE_INT24 | 10 => FIELD_TYPE_DATE | 11 => FIELD_TYPE_TIME
  | 12 => FIELD_TYPE_DATETIME | 13 => FIELD_TYPE_YEAR | 14 => FIELD_TYPE_NEWDATE
  | 15 => FIELD_TYPE_VARCHAR | 16 => FIELD_TYPE_BIT | 17 => FIELD_TYPE_TIMESTAMP2
  | 18 => FIELD_TYPE_DATETIME2 | 19 => FIELD_TYPE_TIME2
  | 246 => FIELD_TYPE_NEWDECIMAL | 247 => FIELD_TYPE_ENUM | 248 => FIELD_TYPE_SET
  | 249 => FIELD_TYPE_TINY_BLOB | 250 => FIELD_TYPE_MEDIUM_BLOB
  | 251 => FIELD_TYPE_LONG_BLOB | 252 => FIELD_TYPE_BLOB
  | 253 => FIELD_TYPE_VAR_STRING | 254 => FIELD_TYPE_STRING
  | 255 => FIELD_TYPE_GEOMETRY
  | c => FIELD_TYPE_other c
  end.

Definition Bitfield := list byte.

(** [bits.isSet(index)]: [bits[index/8] & (1 << (index%8)) != 0]; the index
    expression panics past the end of the bitmap. *)
Definition isSet (bits : Bitfield) (index : Z) : outcome bool :=
  match bits !! Z.to_nat (index / 8) with
  | None => Panic IndexOutOfRange
  | Some b => Done (negb (Z.land (byte_to_Z b) (uint8 (Z.shiftl 1 (index mod 8))) =? 0))
  end.

(** Per-column metadata of a table map. *)
Record ColumnType : Type := mkColumnType {
  column_type : FieldType;
  name : string;
  ct_unsigned : bool;
  max_length : Z;     (* uint16 *)
  length_size : Z;    (* uint8 *)
  precision : Z;      (* int *)
  decimals : Z;       (* int *)
  size : Z;           (* uint16: bytes that store an enum or set value *)
  bytes : Z;          (* int: bytes of a bit column *)
  bits : Z;           (* byte: bits of a bit column *)
  fsp : Z             (* uint8 *)
}.

(** [&ColumnType{column_type: t}] *)
Definition new_ColumnType (t : FieldType) : ColumnType :=
  mkColumnType t "" false 0 0 0 0 0 0 0 0.

Record TableMapEvent : Type := mkTableMapEvent {
  tm_header : EventHeader;
  tm_tableId : Z;                     (* uint64 *)
  tm_flags : Z;                       (* uint16 *)
  schemaName : string;
  tableName : string;
  columnTypes : list FieldType;
  columnMeta : list Z;
  columnMetaData : list ColumnType;   (* []*ColumnType, no entry nil *)
  nullBitmap : Bitfield
}.

(** ** Column schema (binlog.go, [GetTableSchemaByName])

    The struct declaration is not among the embedded sources; the fields are
    those of the literal that [GetTableSchemaByName] builds. *)
Record column_schema_type : Type := mk_column_schema_type {
  COLUMN_NAME : string;
  COLUMN_KEY : string;
  COLUMN_TYPE : string;
  enum_values : list string;
  set_values : list string;
  is_bool : bool;
  unsigned : bool;
  is_primary : bool;
  auto_increment : bool;
  CHARACTER_SET_NAME : string;
  COLLATION_NAME : string;
  NUMERIC_SCALE : string
}.

(** ** Row values ([driver.Value]) *)
Inductive Value : Type :=
| VNil
| VBool (b : bool)
| VInt8 (n : Z) | VUint8 (n : Z)
| VInt16 (n : Z) | VUint16 (n : Z)
| VInt32 (n : Z) | VUint32 (n : Z)
| VInt64 (n : Z) | VUint64 (n : Z)
| VFloat32 (ieee_bits : Z)
| VFloat64 (ieee_bits : Z)
| VString (s : string)
| VStrings (l : list string).

(** ** Collaborators outside the embedded sources *)

(** [paket]: a buffer with a push-back area (the struct literal in
    [parseEventRow] shows its two fields). *)
Record paket : Type := mk_paket {
  pk_buf : list byte;
  buydata : list byte
}.

(** A parsed QUERY event ([QueryEvent]). *)
Record QueryEvent : Type := mkQueryEvent {
  q_header : EventHeader;
  slaveProxyId : Z;
  executionTime : Z;
  errorCode : Z;
  q_schema : string;
  statusVars : string;
  q_query : string
}.

(** One row of the [information_schema.columns] query, in the order of its
    select list. *)
Record information_schema_row : Type := mk_information_schema_row {
  r_COLUMN_NAME : string;
  r_COLUMN_KEY : string;
  r_COLUMN_TYPE : string;
  r_CHARACTER_SET_NAME : string;
  r_COLLATION_NAME : string;
  r_NUMERIC_SCALE : string;
  r_EXTRA : string
}.

(** What the embedded code calls but does not define, and what it asks of
    its environment. Every definition and theorem below holds for any
    implementation of these. *)
Class Externals : Type := {
  (* methods of [paket] *)
  paket_readByte : paket -> Z * paket;
  paket_unread : list byte -> paket -> paket;
  paket_read : Z -> paket -> list byte * paket;
  (* big-endian reader used by the decimal decoder *)
  read_uint64_be_by_bytes : list byte -> Z;
  (* [time.Unix(sec, 0).Format(TIME_FORMAT)] *)
  format_unix : Z -> string;
  (* [time.Date(year, month, day, hour, min, sec, 0, time.UTC).Format(TIME_FORMAT)] *)
  format_date : Z -> Z -> Z -> Z -> Z -> Z -> string;
  (* [parseGenericEvent]: the header of an event of any other type, or nil *)
  parseGenericEvent : list byte -> option EventHeader * option error;
  (* the schema session: the rows that the [information_schema.columns]
     query of [GetTableSchemaByName] returns for a database and a table, in
     ordinal order, or [None] when the session fails *)
  information_schema_columns : string -> string -> option (list information_schema_row)
}.

(** ** Row events (event_rows.go) *)
Module Rows.
Section WithExternals.
Context `{Externals}.

Abbreviation row_map := (gmap string Value).

(** How one pass through the column switch of [parseEventRow] ends. *)
Inductive column_step : Type :=
| Continue (row : row_map) (e : option error) (buf : list byte)
| Return (e : error).              (* [return nil, e] *)

(** [read_binary_slice] *)
Definition read_binary_slice (binary start size data_length : Z) : Z :=
  let binary := Z.shiftr binary (data_length - (start + size)) in
  let mask := Z.shiftl 1 size - 1 in
  Z.land binary (uint64 mask).

(** [read_datetime2] *)
Definition read_datetime2 (buf : list byte) : string * option error * list byte :=
  let '(a, _, buf) := binary_Read 4 (fun bs => uint32 (be_uint bs)) 0 buf in
  let '(b, _, buf) := binary_Read 1 be_uint 0 buf in
  let dataInt := uint64 (b + uint64 (Z.shiftl a 8)) in
  let year_month := read_binary_slice dataInt 1 17 40 in
  let year := int (year_month / 13) in
  let month := year_month mod 13 in
  let days := read_binary_slice dataInt 18 5 40 in
  let hours := read_binary_slice dataInt 23 5 40 in
  let minute := read_binary_slice dataInt 28 6 40 in
  let second := read_binary_slice dataInt 34 6 40 in
  (format_date year month (int days) (int hours) (int minute) (int second),
   None, buf).

(** The compact-group size table of the decimal decoder. *)
Definition compressed_bytes : list Z := [0; 1; 1; 2; 2; 3; 3; 4; 4; 4].

(** [compressed_bytes[i]] *)
Definition compressed_bytes_at (i : Z) : outcome Z :=
  if i <? 0 then Panic IndexOutOfRange
  else match compressed_bytes !! Z.to_nat i with
       | Some s => Done s
       | None => Panic IndexOutOfRange
       end.

(** One of the loops of 4-byte groups of the decimal decoder: [n] times
    [value = int(read_uint64_be_by_bytes(bufPaket.read(4))) ^ mask;
     res += fmt.Sprintf("%09d", value)]. *)
Fixpoint decimal_groups (n : nat) (mask : Z) (res : string) (pk : paket)
  : string * paket :=
  match n with
  | O => (res, pk)
  | S k =>
      let '(d, pk) := paket_read 4 pk in
      let value := Z.lxor (int (read_uint64_be_by_bytes d)) mask in
      decimal_groups k mask (res +:+ Sprintf_0d 9 value) pk
  end.

(** The [FIELD_TYPE_NEWDECIMAL] case: the decoded text and the buffer. *)
Definition decode_newdecimal (meta : ColumnType) (buf : list byte)
  : outcome (string * list byte) :=
  let digits_per_integer := 9 in
  let integral := precision meta - decimals meta in
  let uncomp_integral := int (Z.quot (int integral) digits_per_integer) in
  let uncomp_fractional := int (Z.quot (int (decimals meta)) digits_per_integer) in
  let comp_integral := integral - uncomp_integral * digits_per_integer in
  let comp_fractional := decimals meta - uncomp_fractional * digits_per_integer in
  size ← compressed_bytes_at comp_integral;
  let bufPaket := mk_paket buf [] in
  let '(b, bufPaket) := paket_readByte bufPaket in
  let '(res, mask) :=
    if negb (Z.land (int b) 128 =? 0) then ("", 0) else ("-", -1) in
  let bufPaket := paket_unread [byte_of_Z (Z.lxor (uint8 b) 128)] bufPaket in
  let '(res, bufPaket) :=
    if 0 <? size then
      let '(d, bufPaket) := paket_read size bufPaket in
      let '(v1, _, _) := binary_Read 4 (fun bs => int32 (be_uint bs)) 0 d in
      let value := Z.lxor (int v1) mask in
      (res +:+ Itoa value, bufPaket)
    else (res, bufPaket) in
  let '(res, bufPaket) :=
    decimal_groups (Z.to_nat uncomp_integral) mask res bufPaket in
  let res := res +:+ "." in
  let '(res, bufPaket) :=
    decimal_groups (Z.to_nat uncomp_integral) mask res bufPaket in
  size ← compressed_bytes_at comp_fractional;
  let '(res, bufPaket) :=
    if 0 <? size then
      let '(d, bufPaket) := paket_read size bufPaket in
      let value := Z.lxor (int (read_uint64_be_by_bytes d)) mask in
      (res +:+ Sprintf_0d comp_fractional value, bufPaket)
    else (res, bufPaket) in
  Done (res, pk_buf bufPaket).

(** [mathPower] of the set decoder: [x] to the [n], by repeated
    multiplication in [int]. *)
Fixpoint mathPower (x : Z) (n : nat) : Z :=
  match n with
  | O => 1
  | S k => int (mathPower x k * x)
  end.

(** The members of a set value: [result[val] = 1] for every literal whose
    bit is set in [index]. *)
Fixpoint set_members (index : Z) (i : nat) (vals : list string)
    (result : gset string) : gset string :=
  match vals with
  | [] => result
  | val :: rest =>
      let s := Z.land index (mathPower 2 i) in
      set_members index (S i) rest (if 0 <? s then {[val]} ∪ result else result)
  end.

(** The bits of one byte of a bit column, from bit [end_ - 1] down to bit
    0: [current_byte] is built from the low bit up and appended in reverse. *)
Fixpoint bit_chars (data : Z) (end_ : nat) : string :=
  match end_ with
  | O => ""
  | S bit =>
      (if 0 <? Z.land data (Z.shiftl 1 (Z.of_nat bit)) then "1" else "0")
        +:+ bit_chars data bit
  end.

(** The byte loop of the [FIELD_TYPE_BIT] case, from byte [k] on, [n]
    bytes to go. *)
Fixpoint bit_bytes (meta : ColumnType) (n : nat) (k : Z) (resp : string)
    (e : option error) (buf : list byte) : string * option error * list byte :=
  match n with
  | O => (resp, e, buf)
  | S n' =>
      let '(b, e, buf) := ReadByte buf in
      let data := byte_to_Z b in
      let end_ :=
        if k =? 0 then
          if bytes meta =? 1 then bits meta
          else let end_ := bits meta mod 8 in
               if end_ =? 0 then 8 else end_
        else 8 in
      bit_bytes meta n' (k + 1) (resp +:+ bit_chars data (Z.to_nat end_)) e buf
  end.

(** [data[0]], [data[1]], [data[2]] of a slice returned by [buf.Next(3)]. *)
Definition three_bytes (data : list byte) : outcome (Z * Z * Z) :=
  match data with
  | d0 :: d1 :: d2 :: _ => Done (byte_to_Z d0, byte_to_Z d1, byte_to_Z d2)
  | _ => Panic IndexOutOfRange
  end.

(** ["0" + strconv.Itoa(v)] unless [big]. *)
Definition two_digits (big : bool) (v : Z) : string :=
  if big then Itoa v else "0" +:+ Itoa v.

(** [l[i]] for a slice [l] and an [int] index [i]. *)
Definition index {A} (l : list A) (i : Z) : outcome A :=
  if i <? 0 then Panic IndexOutOfRange
  else match l !! Z.to_nat i with
       | Some x => Done x
       | None => Panic IndexOutOfRange
       end.

(** The [FIELD_TYPE_DATE], [FIELD_TYPE_NEWDATE] case. *)
Definition decode_date (buf : list byte) : outcome (Value * list byte) :=
  '(data, buf) ← Next 3 buf;
  '(d0, d1, d2) ← three_bytes data;
  let timeInt := int (d0 + Z.shiftl d1 8 + Z.shiftl d2 16) in
  if timeInt =? 0 then Done (VNil, buf)
  else
    let year := Z.shiftr (Z.land timeInt (Z.shiftl (Z.shiftl 1 15 - 1) 9)) 9 in
    let month := Z.shiftr (Z.land timeInt (Z.shiftl (Z.shiftl 1 4 - 1) 5)) 5 in
    let day := Z.land timeInt (Z.shiftl 1 5 - 1) in
    let monthStr := two_digits (10 <=? month) month in
    let dayStr := two_digits (10 <=? day) day in
    let t := Itoa year +:+ "-" +:+ monthStr +:+ "-" +:+ dayStr in
    Done (VString t, buf).

(** The [FIELD_TYPE_TIME] case. *)
Definition decode_time (buf : list byte) : outcome (Value * list byte) :=
  '(data, buf) ← Next 3 buf;
  '(d0, d1, d2) ← three_bytes data;
  let timeInt := int (d0 + Z.shiftl d1 8 + Z.shiftl d2 16) in
  if timeInt =? 0 then Done (VNil, buf)
  else
    let hour := int (Z.quot timeInt 10000) in
    let minute := int (Z.quot (Z.rem timeInt 10000) 100) in
    let second := int (Z.rem timeInt 100) in
    let minuteStr := two_digits (10 <? minute) minute in
    let secondStr := two_digits (10 <? second) second in
    let t := Itoa hour +:+ ":" +:+ minuteStr +:+ ":" +:+ secondStr in
    Done (VString t, buf).

(** The [FIELD_TYPE_TIME2] case. *)
Definition decode_time2 (buf : list byte) : Value * list byte :=
  let '(a, _, buf) := binary_Read 1 be_uint 0 buf in
  let '(b, _, buf) := binary_Read 1 be_uint 0 buf in
  let '(c, _, buf) := binary_Read 1 be_uint 0 buf in
  let timeInt := uint64 (Z.lor (Z.lor (Z.shiftl (int a) 16) (Z.shiftl (int b) 8)) (int c)) in
  let timeInt := if 8388608 <=? timeInt then uint64 (timeInt - 16777216) else timeInt in
  let hour := read_binary_slice timeInt 2 10 24 in
  let minute := read_binary_slice timeInt 12 6 24 in
  let second := read_binary_slice timeInt 18 6 24 in
  let minuteStr := two_digits (10 <? minute) (int minute) in
  let secondStr := two_digits (10 <? second) (int second) in
  let t := Itoa (int hour) +:+ ":" +:+ minuteStr +:+ ":" +:+ secondStr in
  (VString t, buf).

(** The [FIELD_TYPE_DATETIME] case. *)
Definition decode_datetime (buf : list byte) : Value * option error * list byte :=
  let '(t, e, buf) := binary_Read 8 (fun bs => int64 (le_uint bs)) 0 buf in
  let second := int (Z.rem t 100) in
  let minute := int (Z.quot (Z.rem t 10000) 100) in
  let hour := int (Z.quot (Z.rem t 1000000) 10000) in
  let d := int (Z.quot t 1000000) in
  let day := Z.rem d 100 in
  let month := Z.quot (Z.rem d 10000) 100 in
  let year := Z.quot d 10000 in
  (VString (format_date year month day hour minute second), e, buf).

(** The [FIELD_TYPE_SET] case: the row and the buffer after it. *)
Definition decode_set (meta : ColumnType) (sch : column_schema_type)
    (row : row_map) (buf : list byte) : outcome (row_map * list byte) :=
  let column_name := COLUMN_NAME sch in
  let size := size meta in
  '(row, index, buf) ←
    match size with
    | 0 => Done (<[column_name := VNil]> row, 0, buf)  (* [break] leaves the switch only *)
    | 1 => let '(b, _, buf) := ReadByte buf in Done (row, int (byte_to_Z b), buf)
    | 2 => '(d, buf) ← Next (int size) buf; Done (row, int (bytesToUint16 d), buf)
    | 3 => '(d, buf) ← Next (int size) buf; Done (row, int (bytesToUint24 d), buf)
    | 4 => '(d, buf) ← Next (int size) buf; Done (row, int (bytesToUint32 d), buf)
    | _ => Done (row, 0, buf)
    end;
  let result := set_members index 0 (set_values sch) ∅ in
  (* [for key := range result]: Go leaves the order open; the members are
     listed in the order in which the finite set enumerates them *)
  let f := elements result in
  Done (<[column_name := VStrings f]> row, buf).

(** The index that the [FIELD_TYPE_ENUM] case reads from the wire: one
    byte when the metadata size is 1, else [size] bytes as a 16-bit integer. *)
Definition read_enum_index (meta : ColumnType) (buf : list byte)
  : outcome (Z * list byte) :=
  let size := size meta in
  if size =? 1 then
    let '(b, _, buf) := ReadByte buf in Done (int (byte_to_Z b), buf)
  else
    '(d, buf) ← Next (int size) buf; Done (int (bytesToUint16 d), buf).

(** The [FIELD_TYPE_ENUM] case: [enum_values[index-1]]. *)
Definition decode_enum (meta : ColumnType) (sch : column_schema_type)
    (buf : list byte) : outcome (Value * list byte) :=
  '(index_, buf) ← read_enum_index meta buf;
  v ← index (enum_values sch) (index_ - 1);
  Done (VString v, buf).

(** The body of the column loop of [parseEventRow] after the null check:
    the [switch] on the column's type in the table map. *)
Definition decode_column (tableMap : TableMapEvent) (i : Z)
    (meta : ColumnType) (sch : column_schema_type)
    (row : row_map) (buf : list byte) : outcome column_step :=
  let column_name := COLUMN_NAME sch in
  match column_type meta with
  | FIELD_TYPE_NULL =>
      Done (Continue (<[column_name := VNil]> row) None buf)

  | FIELD_TYPE_TINY =>
      let '(b, e, buf) := ReadByte buf in
      let b := byte_to_Z b in
      let v :=
        if is_bool sch then
          match int b with
          | 1 => VBool true
          | 0 => VBool false
          | _ => if unsigned sch then VUint8 (uint8 b) else VInt8 (int8 b)
          end
        else if unsigned sch then VUint8 (uint8 b) else VInt8 (int8 b) in
      Done (Continue (<[column_name := v]> row) e buf)

  | FIELD_TYPE_SHORT =>
      if unsigned sch then
        let '(short, e, buf) := binary_Read 2 (fun bs => uint16 (le_uint bs)) 0 buf in
        Done (Continue (<[column_name := VUint16 short]> row) e buf)
      else
        let '(short, e, buf) := binary_Read 2 (fun bs => int16 (le_uint bs)) 0 buf in
        Done (Continue (<[column_name := VInt16 short]> row) e buf)

  | FIELD_TYPE_YEAR =>
      let '(b, e, buf) := ReadByte buf in
      if bool_decide (e = None) && negb (byte_to_Z b =? 0) then
        Done (Continue (<[column_name := VString (Itoa (int (byte_to_Z b) + 1900))]> row) e buf)
      else Done (Continue row e buf)

  | FIELD_TYPE_INT24 =>
      if unsigned sch then
        let '(bint, e, buf) := readFixedLengthInteger 3 buf in
        Done (Continue (<[column_name := VUint32 (uint32 bint)]> row) e buf)
      else
        let '(a, _, buf) := binary_Read 1 (fun bs => int8 (le_uint bs)) 0 buf in
        let '(b, _, buf) := binary_Read 1 (fun bs => int8 (le_uint bs)) 0 buf in
        let '(c, _, buf) := binary_Read 1 (fun bs => int8 (le_uint bs)) 0 buf in
        (* [a + (b << 8) + (c << 16)] on operands of type [int8] *)
        let sum := int8 (int8 (a + int8 (Z.shiftl b 8)) + int8 (Z.shiftl c 16)) in
        Done (Continue (<[column_name := VInt32 (int32 sum)]> row) None buf)

  | FIELD_TYPE_LONG =>
      if unsigned sch then
        let '(long, e, buf) := binary_Read 4 (fun bs => uint32 (le_uint bs)) 0 buf in
        Done (Continue (<[column_name := VUint32 long]> row) e buf)
      else
        let '(long, e, buf) := binary_Read 4 (fun bs => int32 (le_uint bs)) 0 buf in
        Done (Continue (<[column_name := VInt32 long]> row) e buf)

  | FIELD_TYPE_LONGLONG =>
      if unsigned sch then
        let '(longlong, e, buf) := binary_Read 8 (fun bs => uint64 (le_uint bs)) 0 buf in
        Done (Continue (<[column_name := VUint64 longlong]> row) e buf)
      else
        let '(longlong, e, buf) := binary_Read 8 (fun bs => int64 (le_uint bs)) 0 buf in
        Done (Continue (<[column_name := VInt64 longlong]> row) e buf)

  | FIELD_TYPE_FLOAT =>
      let '(float, e, buf) := binary_Read 4 le_uint 0 buf in
      Done (Continue (<[column_name := VFloat32 float]> row) e buf)

  | FIELD_TYPE_DOUBLE =>
      let '(double, e, buf) := binary_Read 8 le_uint 0 buf in
      Done (Continue (<[column_name := VFloat64 double]> row) e buf)

  | FIELD_TYPE_DECIMAL =>
      t ← index (columnTypes tableMap) i;
      Done (Return (ErrUnimplemented (FieldType_code t)))

  | FIELD_TYPE_NEWDECIMAL =>
      '(res, buf) ← decode_newdecimal meta buf;
      Done (Continue (<[column_name := VString res]> row) None buf)

  | FIELD_TYPE_VARCHAR =>
      let max_length := max_length meta in
      let '(length, e, buf) :=
        if 255 <? max_length then
          let '(short, e, buf) := binary_Read 2 (fun bs => uint16 (le_uint bs)) 0 buf in
          (int short, e, buf)
        else
          let '(b, e, buf) := ReadByte buf in
          (int (byte_to_Z b), e, buf) in
      let e := if Len buf <? length then Some EOF else e in
      '(d, buf) ← Next length buf;
      Done (Continue (<[column_name := VString (string_of_bytes d)]> row) e buf)

  | FIELD_TYPE_STRING =>
      let '(b, e, buf) := ReadByte buf in
      let length := int (byte_to_Z b) in
      '(d, buf) ← Next length buf;
      Done (Continue (<[column_name := VString (string_of_bytes d)]> row) e buf)

  | FIELD_TYPE_ENUM =>
      '(v, buf) ← decode_enum meta sch buf;
      Done (Continue (<[column_name := v]> row) None buf)

  | FIELD_TYPE_SET =>
      '(row, buf) ← decode_set meta sch row buf;
      Done (Continue row None buf)

  | FIELD_TYPE_BLOB | FIELD_TYPE_TINY_BLOB | FIELD_TYPE_MEDIUM_BLOB
  | FIELD_TYPE_LONG_BLOB | FIELD_TYPE_VAR_STRING =>
      let '(length, e, buf) := readFixedLengthInteger (int (length_size meta)) buf in
      '(d, buf) ← Next (int length) buf;
      Done (Continue (<[column_name := VString (string_of_bytes d)]> row) e buf)

  | FIELD_TYPE_BIT =>
      let '(resp, e, buf) :=
        bit_bytes meta (Z.to_nat (bytes meta)) 0 "" None buf in
      let bitInt := ParseInt_base2 resp 10 in
      Done (Continue (<[column_name := VInt64 bitInt]> row) e buf)

  | FIELD_TYPE_GEOMETRY =>
      t ← index (columnTypes tableMap) i;
      Done (Return (ErrUnimplemented (FieldType_code t)))

  | FIELD_TYPE_DATE | FIELD_TYPE_NEWDATE =>
      '(v, buf) ← decode_date buf;
      Done (Continue (<[column_name := v]> row) None buf)

  | FIELD_TYPE_TIME =>
      '(v, buf) ← decode_time buf;
      Done (Continue (<[column_name := v]> row) None buf)

  | FIELD_TYPE_TIME2 =>
      let '(v, buf) := decode_time2 buf in
      Done (Continue (<[column_name := v]> row) None buf)

  | FIELD_TYPE_TIMESTAMP =>
      '(d, buf) ← Next 4 buf;
      let timestamp := int64 (bytesToUint32 d) in
      Done (Continue (<[column_name := VString (format_unix timestamp)]> row) None buf)

  | FIELD_TYPE_TIMESTAMP2 =>
      let '(timestamp, _, buf) := binary_Read 4 (fun bs => int32 (be_uint bs)) 0 buf in
      Done (Continue (<[column_name := VString (format_unix (int64 timestamp))]> row) None buf)

  | FIELD_TYPE_DATETIME =>
      let '(v, e, buf) := decode_datetime buf in
      Done (Continue (<[column_name := v]> row) e buf)

  | FIELD_TYPE_DATETIME2 =>
      let '(data, e, buf) := read_datetime2 buf in
      Done (Continue (<[column_name := VString data]> row) e buf)

  | FIELD_TYPE_other _ =>
      t ← index (columnTypes tableMap) i;
      Done (Return (ErrUnknownFieldType (FieldType_code t)))
  end.

(** The column loop of [parseEventRow], from column [i] on, [n] columns to
    go. *)
Fixpoint parseEventRow_columns (tableMap : TableMapEvent)
    (tableSchemaMap : list column_schema_type) (nullBitMap : Bitfield)
    (n : nat) (i : Z) (row : row_map) (buf : list byte)
  : outcome (option row_map * option error * list byte) :=
  match n with
  | O => Done (Some row, None, buf)
  | S n' =>
      sch ← index tableSchemaMap i;
      let column_name := COLUMN_NAME sch in
      null ← isSet nullBitMap i;
      if null : bool then
        parseEventRow_columns tableMap tableSchemaMap nullBitMap n' (i + 1)
          (<[column_name := VNil]> row) buf
      else
        meta ← index (columnMetaData tableMap) i;
        step ← decode_column tableMap i meta sch row buf;
        match step with
        | Return e => Done (None, Some e, buf)
        | Continue row (Some e) buf => Done (None, Some e, buf)
        | Continue row None buf =>
            parseEventRow_columns tableMap tableSchemaMap nullBitMap n' (i + 1) row buf
        end
  end.

(** [parseEventRow]: one row image as a map from column name to value. A
    nil [tableMap] is dereferenced by the first statement. *)
Definition parseEventRow (buf : list byte) (tableMap : option TableMapEvent)
    (tableSchemaMap : list column_schema_type)
  : outcome (option row_map * option error * list byte) :=
  match tableMap with
  | None => Panic NilDereference
  | Some tableMap =>
      let columnsCount := Z.of_nat (length (columnTypes tableMap)) in
      let bitfieldSize := (columnsCount + 7) / 8 in
      '(nullBitMap, buf) ← Next bitfieldSize buf;
      parseEventRow_columns tableMap tableSchemaMap nullBitMap
        (Z.to_nat columnsCount) 0 ∅ buf
  end.

End WithExternals.
End Rows.

(** ** Parser state and events (binlog.go, event_header.go, event_rotate.go) *)

Record FormatDescriptionEvent : Type := mkFormatDescriptionEvent {
  fd_header : EventHeader;
  binlogVersion : Z;
  mysqlServerVersion : string;
  createTimestamp : Z;
  eventHeaderLength : Z;
  eventTypeHeaderLengths : list byte
}.

Record RotateEvent : Type := mkRotateEvent {
  rot_header : EventHeader;
  position : Z;        (* uint64 *)
  filename : string
}.

Record RowsEvent : Type := mkRowsEvent {
  re_header : EventHeader;
  re_tableId : Z;                      (* uint64 *)
  re_tableMap : option TableMapEvent;  (* *TableMapEvent, nil when not cached *)
  re_flags : Z;
  columnsPresentBitmap1 : Bitfield;
  columnsPresentBitmap2 : Bitfield;
  rows : list (gmap string Value);
  primary : string
}.

(** [EventReslut], what [parseEvent] hands to the dump loop. The struct
    declaration is not among the embedded sources; the fields are those that
    [parseEvent] and [DumpBinlog] use. *)
Record EventReslut : Type := mkEventReslut {
  Header : EventHeader;
  SchemaName : string;
  BinlogFileName : string;
  BinlogPosition : Z;
  TableName : string;
  Query : string;
  Rows : list (gmap string Value);
  Primary : string
}.

(** [&EventReslut{Header: h}] *)
Definition new_EventReslut (h : EventHeader) : EventReslut :=
  mkEventReslut h "" "" 0 "" "" [] "".

(** [eventParser], without its connection handles and locks. *)
Record eventParser : Type := mkEventParser {
  format : option FormatDescriptionEvent;            (* nil until the first format description *)
  tableMap : gmap Z TableMapEvent;                   (* tableId => *TableMapEvent *)
  tableNameMap : gmap string Z;                      (* database.table => tableId *)
  tableSchemaMap : gmap Z (list column_schema_type); (* tableId => column schemas *)
  dumpBinLogStatus : Z;                              (* 0 stop, 1 running, 2 close, 3 kill *)
  binlogFileName : string;
  binlogPosition : Z;                                (* uint32 *)
  maxBinlogFileName : string;
  maxBinlogPosition : Z;                             (* uint32 *)
  replicateDoDb : gmap string Z;
  eventDo : list bool;
  parser_ServerId : Z;
  connectionId : string;
  binlog_checksum : bool
}.

Definition set_format (f : option FormatDescriptionEvent) (p : eventParser) :=
  mkEventParser f (tableMap p) (tableNameMap p) (tableSchemaMap p)
    (dumpBinLogStatus p) (binlogFileName p) (binlogPosition p)
    (maxBinlogFileName p) (maxBinlogPosition p) (replicateDoDb p) (eventDo p)
    (parser_ServerId p) (connectionId p) (binlog_checksum p).

Definition set_tableMap (m : gmap Z TableMapEvent) (p : eventParser) :=
  mkEventParser (format p) m (tableNameMap p) (tableSchemaMap p)
    (dumpBinLogStatus p) (binlogFileName p) (binlogPosition p)
    (maxBinlogFileName p) (maxBinlogPosition p) (replicateDoDb p) (eventDo p)
    (parser_ServerId p) (connectionId p) (binlog_checksum p).

Definition set_tableNameMap (m : gmap string Z) (p : eventParser) :=
  mkEventParser (format p) (tableMap p) m (tableSchemaMap p)
    (dumpBinLogStatus p) (binlogFileName p) (binlogPosition p)
    (maxBinlogFileName p) (maxBinlogPosition p) (replicateDoDb p) (eventDo p)
    (parser_ServerId p) (connectionId p) (binlog_checksum p).

Definition set_tableSchemaMap (m : gmap Z (list column_schema_type)) (p : eventParser) :=
  mkEventParser (format p) (tableMap p) (tableNameMap p) m
    (dumpBinLogStatus p) (binlogFileName p) (binlogPosition p)
    (maxBinlogFileName p) (maxBinlogPosition p) (replicateDoDb p) (eventDo p)
    (parser_ServerId p) (connectionId p) (binlog_checksum p).

Definition set_dumpBinLogStatus (s : Z) (p : eventParser) :=
  mkEventParser (format p) (tableMap p) (tableNameMap p) (tableSchemaMap p)
    s (binlogFileName p) (binlogPosition p)
    (maxBinlogFileName p) (maxBinlogPosition p) (replicateDoDb p) (eventDo p)
    (parser_ServerId p) (connectionId p) (binlog_checksum p).

Definition set_binlog_position (file : string) (pos : Z) (p : eventParser) :=
  mkEventParser (format p) (tableMap p) (tableNameMap p) (tableSchemaMap p)
    (dumpBinLogStatus p) file pos
    (maxBinlogFileName p) (maxBinlogPosition p) (replicateDoDb p) (eventDo p)
    (parser_ServerId p) (connectionId p) (binlog_checksum p).

(** [newEventParser] *)
Definition newEventParser : eventParser :=
  {| format := None; tableMap := ∅; tableNameMap := ∅; tableSchemaMap := ∅;
     dumpBinLogStatus := 0; binlogFileName := ""; binlogPosition := 0;
     maxBinlogFileName := ""; maxBinlogPosition := 0; replicateDoDb := ∅;
     eventDo := replicate 36 false; parser_ServerId := 1; connectionId := "";
     binlog_checksum := false |}.

(** ** Strings (package [strings]) *)
Module Strings.

(** [strings.HasPrefix(s, prefix)] *)
Fixpoint HasPrefix (s prefix : string) : bool :=
  match prefix, s with
  | EmptyString, _ => true
  | String _ _, EmptyString => false
  | String a prefix', String b s' => Ascii.eqb a b && HasPrefix s' prefix'
  end.

(** [strings.Contains(s, substr)] *)
Fixpoint Contains (s substr : string) : bool :=
  HasPrefix s substr ||
  match s with
  | EmptyString => false
  | String _ s' => Contains s' substr
  end.

(** [strings.Replace(s, old, "", -1)] for a non-empty [old]: every
    non-overlapping occurrence of [old], from the left, is dropped.
    [skip] counts the characters of an occurrence still to drop. *)
Fixpoint remove_from (skip : nat) (old s : string) : string :=
  match s with
  | EmptyString => EmptyString
  | String c s' =>
      match skip with
      | S k => remove_from k old s'
      | O => if HasPrefix s old then remove_from (String.length old - 1) old s'
             else String c (remove_from O old s')
      end
  end.

Definition Remove (s old : string) : string := remove_from O old s.

(** [strings.Split(s, sep)] for a one-character [sep]. *)
Fixpoint Split (s : string) (sep : ascii) : list string :=
  match s with
  | EmptyString => [EmptyString]
  | String c s' =>
      if Ascii.eqb c sep then EmptyString :: Split s' sep
      else match Split s' sep with
           | [] => [String c EmptyString]
           | w :: ws => String c w :: ws
           end
  end.

(** Leading characters equal to [c] dropped. *)
Fixpoint TrimLeft (s : string) (c : ascii) : string :=
  match s with
  | EmptyString => EmptyString
  | String a s' => if Ascii.eqb a c then TrimLeft s' c else s
  end.

(** Trailing characters equal to [c] dropped. *)
Fixpoint TrimRight (s : string) (c : ascii) : string :=
  match s with
  | EmptyString => EmptyString
  | String a s' =>
      match TrimRight s' c with
      | EmptyString => if Ascii.eqb a c then EmptyString else String a EmptyString
      | t => String a t
      end
  end.

(** [strings.Trim(s, " ")] *)
Definition Trim (s : string) (c : ascii) : string := TrimRight (TrimLeft s c) c.

Definition upper (a : ascii) : ascii :=
  let n := nat_of_ascii a in
  if ((97 <=? n) && (n <=? 122))%nat then ascii_of_nat (n - 32) else a.

(** [strings.ToUpper] on the ASCII letters; the embedded code compares the
    result with an ASCII text only. *)
Fixpoint ToUpper (s : string) : string :=
  match s with
  | EmptyString => EmptyString
  | String a s' => String (upper a) (ToUpper s')
  end.

(** [strings.IndexAny(s, ".")]: the index of the first [c], or -1. *)
Fixpoint IndexByte (s : string) (c : ascii) : Z :=
  match s with
  | EmptyString => -1
  | String a s' =>
      if Ascii.eqb a c then 0
      else let i := IndexByte s' c in if i <? 0 then -1 else i + 1
  end.

(** [s[lo:hi]] for [0 <= lo <= hi <= len(s)]. *)
Definition slice (s : string) (lo hi : nat) : string := substring lo (hi - lo) s.

End Strings.

(** ** Event decoders and the parser (binlog.go and the event files) *)
Module Parser.
Section WithExternals.
Context `{Externals}.

(** [parser.format.eventTypeHeaderLengths[EventType-1]]: the post-header
    length of an event type; [format] is nil before the first format
    description, and the index is computed in the one byte of [EventType]. *)
Definition headerSize_of (parser : eventParser) (h : EventHeader) : outcome Z :=
  match format parser with
  | None => Panic NilDereference
  | Some f => b ← Rows.index (eventTypeHeaderLengths f) (uint8 (EventType h - 1));
              Done (byte_to_Z b)
  end.

(** The part of [parseRowsEvent] before the row loop: headers, bitmaps
    and the lookup of the cached table map. *)
Definition parseRowsEvent_head (parser : eventParser) (buf : list byte)
  : outcome (RowsEvent * option error * list byte) :=
  let '(header, err, buf) := read_header buf in
  headerSize ← headerSize_of parser header;
  let tableIdSize := if headerSize =? 6 then 4 else 6 in
  let '(tableId, err, buf) := readFixedLengthInteger tableIdSize buf in
  let '(flags, err, buf) := binary_Read 2 (fun bs => uint16 (le_uint bs)) 0 buf in
  let is_v2 := (EventType header =? UPDATE_ROWS_EVENTv2)
               || (EventType header =? WRITE_ROWS_EVENTv2)
               || (EventType header =? DELETE_ROWS_EVENTv2) in
  buf ← (if is_v2 then
           let '(extraDataLength, _, buf) := readFixedLengthInteger 2 buf in
           '(_, buf) ← Next (int (extraDataLength / 8)) buf; Done buf
         else Done buf);
  let '(columnCount, err, buf) := readLengthEncodedInt buf in
  '(bitmap1, buf) ← Next (int (uint64 (columnCount + 7) / 8)) buf;
  let is_update := (EventType header =? UPDATE_ROWS_EVENTv1)
                   || (EventType header =? UPDATE_ROWS_EVENTv2) in
  '(bitmap2, buf) ← (if is_update then Next (int (uint64 (columnCount + 7) / 8)) buf
                     else Done ([], buf));
  let event := {| re_header := header; re_tableId := tableId;
                  re_tableMap := tableMap parser !! tableId;
                  re_flags := flags;
                  columnsPresentBitmap1 := bitmap1;
                  columnsPresentBitmap2 := bitmap2;
                  rows := []; primary := "" |} in
  Done (event, err, buf).

(** The schema loop after each row of [parseRowsEvent]: every column with
    [is_primary] and [COLUMN_KEY == "PRI"] assigns [event.primary]. *)
Fixpoint scan_primary (schema : list column_schema_type) (primary : string) : string :=
  match schema with
  | [] => primary
  | w :: rest =>
      if is_primary w && bool_decide (COLUMN_KEY w = "PRI")
      then scan_primary rest (COLUMN_NAME w)
      else scan_primary rest primary
  end.

Definition add_row (row : gmap string Value) (primary_ : string) (event : RowsEvent) :=
  {| re_header := re_header event; re_tableId := re_tableId event;
     re_tableMap := re_tableMap event; re_flags := re_flags event;
     columnsPresentBitmap1 := columnsPresentBitmap1 event;
     columnsPresentBitmap2 := columnsPresentBitmap2 event;
     rows := rows event ++ [row]; primary := primary_ |}.

(** The row loop of [parseRowsEvent], [for buf.Len() > 0]. Each pass that
    does not fail reads at least the null bitmap; [fuel] bounds the number
    of passes by the length of the buffer, and only a pass that reads
    nothing (a table map without columns) exhausts it: that loop never
    exits in Go either. *)
Fixpoint parseRowsEvent_rows (fuel : nat) (schema : list column_schema_type)
    (event : RowsEvent) (err : option error) (buf : list byte)
  : outcome (RowsEvent * option error) :=
  if 0 <? Len buf then
    match fuel with
    | O => Diverge
    | S fuel' =>
        '(row, err, buf) ← Rows.parseEventRow buf (re_tableMap event) schema;
        match err with
        | Some e => Done (event, Some e)
        | None =>
            let row := default ∅ row in
            let event := add_row row (scan_primary schema (primary event)) event in
            parseRowsEvent_rows fuel' schema event None buf
        end
    end
  else Done (event, err).

(** [parser.tableSchemaMap[tableId]]: the cached schema, nil (empty) when
    there is none. *)
Definition schema_of (parser : eventParser) (tableId : Z) : list column_schema_type :=
  default [] (tableSchemaMap parser !! tableId).

(** [parseRowsEvent] *)
Definition parseRowsEvent (parser : eventParser) (buf : list byte)
  : outcome (RowsEvent * option error) :=
  '(event, err, buf) ← parseRowsEvent_head parser buf;
  parseRowsEvent_rows (length buf) (schema_of parser (re_tableId event)) event err buf.

(** [parseRotateEvent] *)
Definition parseRotateEvent (buf : list byte) : RotateEvent * option error :=
  let '(header, err, buf) := read_header buf in
  let '(position, err, buf) := binary_Read 8 (fun bs => uint64 (le_uint bs)) 0 buf in
  ({| rot_header := header; position := position;
      filename := string_of_bytes buf |}, err).

(** [parseQueryEvent] *)
Definition parseQueryEvent (buf : list byte) : outcome (QueryEvent * option error) :=
  let '(header, err, buf) := read_header buf in
  let '(slaveProxyId, err, buf) := binary_Read 4 (fun bs => uint32 (le_uint bs)) 0 buf in
  let '(executionTime, err, buf) := binary_Read 4 (fun bs => uint32 (le_uint bs)) 0 buf in
  let '(schemaLength, err, buf) := binary_Read 1 le_uint 0 buf in
  let '(errorCode, err, buf) := binary_Read 2 (fun bs => uint16 (le_uint bs)) 0 buf in
  let '(statusVarsLength, err, buf) := binary_Read 2 (fun bs => uint16 (le_uint bs)) 0 buf in
  '(statusVars, buf) ← Next (int statusVarsLength) buf;
  '(schema, buf) ← Next (int schemaLength) buf;
  let '(_, err, buf) := ReadByte buf in
  Done ({| q_header := header; slaveProxyId := slaveProxyId;
           executionTime := executionTime; errorCode := errorCode;
           q_schema := string_of_bytes schema;
           statusVars := string_of_bytes statusVars;
           q_query := string_of_bytes buf |}, err).

(** [parseFormatDescriptionEvent] *)
Definition parseFormatDescriptionEvent (buf : list byte)
  : outcome (FormatDescriptionEvent * option error) :=
  let '(header, err, buf) := read_header buf in
  let '(binlogVersion, err, buf) := binary_Read 2 (fun bs => uint16 (le_uint bs)) 0 buf in
  '(version, buf) ← Next 50 buf;
  let '(createTimestamp, err, buf) := binary_Read 4 (fun bs => uint32 (le_uint bs)) 0 buf in
  let '(eventHeaderLength, err, buf) := ReadByte buf in
  Done ({| fd_header := header; binlogVersion := binlogVersion;
           mysqlServerVersion := string_of_bytes version;
           createTimestamp := createTimestamp;
           eventHeaderLength := byte_to_Z eventHeaderLength;
           eventTypeHeaderLengths := buf |}, err).

(** [data[pos]] in [parseColumnMetadata]. *)
Definition byte_at (data : list byte) (pos : Z) : outcome Z :=
  b ← Rows.index data pos; Done (byte_to_Z b).

Definition set_meta (i : nat) (f : ColumnType -> ColumnType)
    (metas : list ColumnType) : list ColumnType :=
  match metas !! i with
  | Some m => <[i := f m]> metas
  | None => metas
  end.

Definition with_max_length (v : Z) (m : ColumnType) : ColumnType :=
  mkColumnType (column_type m) (name m) (ct_unsigned m) v (length_size m)
    (precision m) (decimals m) (size m) (bytes m) (bits m) (fsp m).
Definition with_length_size (v : Z) (m : ColumnType) : ColumnType :=
  mkColumnType (column_type m) (name m) (ct_unsigned m) (max_length m) v
    (precision m) (decimals m) (size m) (bytes m) (bits m) (fsp m).
Definition with_precision_decimals (p d : Z) (m : ColumnType) : ColumnType :=
  mkColumnType (column_type m) (name m) (ct_unsigned m) (max_length m) (length_size m)
    p d (size m) (bytes m) (bits m) (fsp m).
Definition with_type_size (t : FieldType) (v : Z) (m : ColumnType) : ColumnType :=
  mkColumnType t (name m) (ct_unsigned m) (max_length m) (length_size m)
    (precision m) (decimals m) v (bytes m) (bits m) (fsp m).
Definition with_bits_bytes (bi by_ : Z) (m : ColumnType) : ColumnType :=
  mkColumnType (column_type m) (name m) (ct_unsigned m) (max_length m) (length_size m)
    (precision m) (decimals m) (size m) by_ bi (fsp m).
Definition with_fsp (v : Z) (m : ColumnType) : ColumnType :=
  mkColumnType (column_type m) (name m) (ct_unsigned m) (max_length m) (length_size m)
    (precision m) (decimals m) (size m) (bytes m) (bits m) v.

(** The loop of [parseColumnMetadata] over the columns [todo], the
    [i]-th first, at byte offset [pos] of [data]; the metadata of all
    columns is updated in place. A two-byte slice is taken to fail past the
    end of [data]. *)
Fixpoint parseColumnMetadata_from (data : list byte) (todo : list ColumnType)
    (i : nat) (pos : Z) (metas : list ColumnType)
  : outcome (list ColumnType * option error) :=
  match todo with
  | [] => Done (metas, None)
  | t :: todo' =>
      match column_type t with
      | FIELD_TYPE_STRING =>
          b ← byte_at data pos;
          c ← byte_at data (pos + 1);
          (* [(b << 8) + c] on operands of type [uint8] *)
          let metadata := uint8 (uint8 (Z.shiftl b 8) + c) in
          let metas :=
            match FieldType_of_byte (byte_of_Z b) with
            | (FIELD_TYPE_ENUM | FIELD_TYPE_SET) as t' =>
                set_meta i (with_type_size t' (Z.land (uint16 metadata) 255)) metas
            | _ =>
                set_meta i (with_max_length
                              (uint16 (Z.lxor (Z.land (Z.shiftr (uint16 metadata) 4) 768) 768
                                       + Z.land (uint16 metadata) 255))) metas
            end in
          parseColumnMetadata_from data todo' (S i) (pos + 2) metas
      | FIELD_TYPE_VARCHAR | FIELD_TYPE_VAR_STRING | FIELD_TYPE_DECIMAL =>
          if Len data <? pos + 2 then Panic SliceBounds
          else
            let v := bytesToUint16 (take 2 (drop (Z.to_nat pos) data)) in
            parseColumnMetadata_from data todo' (S i) (pos + 2)
              (set_meta i (with_max_length v) metas)
      | FIELD_TYPE_BLOB | FIELD_TYPE_GEOMETRY | FIELD_TYPE_DOUBLE | FIELD_TYPE_FLOAT
      | FIELD_TYPE_TINY_BLOB | FIELD_TYPE_MEDIUM_BLOB | FIELD_TYPE_LONG_BLOB =>
          b ← byte_at data pos;
          parseColumnMetadata_from data todo' (S i) (pos + 1)
            (set_meta i (with_length_size (uint8 b)) metas)
      | FIELD_TYPE_NEWDECIMAL =>
          p ← byte_at data pos;
          d ← byte_at data (pos + 1);
          parseColumnMetadata_from data todo' (S i) (pos + 2)
            (set_meta i (with_precision_decimals (int p) (int d)) metas)
      | FIELD_TYPE_BIT =>
          bits_ ← byte_at data pos;
          bytes_ ← byte_at data (pos + 1);
          let bi := uint8 (uint8 (bytes_ * 8) + bits_) in
          parseColumnMetadata_from data todo' (S i) (pos + 2)
            (set_meta i (with_bits_bytes bi (int (uint8 (bi + 7) / 8))) metas)
      | FIELD_TYPE_TIMESTAMP2 | FIELD_TYPE_DATETIME2 | FIELD_TYPE_TIME2 =>
          b ← byte_at data pos;
          parseColumnMetadata_from data todo' (S i) (pos + 1)
            (set_meta i (with_fsp (uint8 b)) metas)
      | FIELD_TYPE_DATE | FIELD_TYPE_DATETIME | FIELD_TYPE_TIMESTAMP | FIELD_TYPE_TIME
      | FIELD_TYPE_TINY | FIELD_TYPE_SHORT | FIELD_TYPE_INT24 | FIELD_TYPE_LONG
      | FIELD_TYPE_LONGLONG | FIELD_TYPE_NULL | FIELD_TYPE_YEAR | FIELD_TYPE_NEWDATE =>
          parseColumnMetadata_from data todo' (S i) pos
            (set_meta i (with_max_length 0) metas)
      | FIELD_TYPE_ENUM | FIELD_TYPE_SET | FIELD_TYPE_other _ =>
          Done (metas, Some (ErrUnknownFieldType (FieldType_code (column_type t))))
      end
  end.

(** [parseColumnMetadata] *)
Definition parseColumnMetadata (metas : list ColumnType) (data : list byte)
  : outcome (list ColumnType * option error) :=
  parseColumnMetadata_from data metas 0 0 metas.

Definition build_TableMapEvent header tableId flags schema table types metas bitmap :=
  {| tm_header := header; tm_tableId := tableId; tm_flags := flags;
     schemaName := schema; tableName := table; columnTypes := types;
     columnMeta := []; columnMetaData := metas; nullBitmap := bitmap |}.

(** [parseTableMapEvent]. A column count above the number of type bytes
    left in the buffer leaves nil entries in [columnMetaData], which
    [parseColumnMetadata] dereferences. The four checksum bytes skipped at
    the end leave the result as it is. *)
Definition parseTableMapEvent (parser : eventParser) (buf : list byte)
  : outcome (TableMapEvent * option error) :=
  let '(header, err, buf) := read_header buf in
  headerSize ← headerSize_of parser header;
  let tableIdSize := if headerSize =? 6 then 4 else 6 in
  let '(tableId, err, buf) := readFixedLengthInteger tableIdSize buf in
  let '(flags, err, buf) := binary_Read 2 (fun bs => uint16 (le_uint bs)) 0 buf in
  let '(byteLength, err, buf) := ReadByte buf in
  '(schema, buf) ← Next (int (byte_to_Z byteLength)) buf;
  let '(_, err, buf) := ReadByte buf in
  let '(byteLength, err, buf) := ReadByte buf in
  '(table, buf) ← Next (int (byte_to_Z byteLength)) buf;
  let '(_, err, buf) := ReadByte buf in
  let '(columnCount, err, buf) := readLengthEncodedInt buf in
  '(columnData, buf) ← Next (int columnCount) buf;
  if Len columnData <? columnCount then Panic NilDereference
  else
    let types := FieldType_of_byte <$> columnData in
    let metas := (fun b => new_ColumnType (FieldType_of_byte b)) <$> columnData in
    let '(variableLength, err, buf) := readLengthEncodedInt buf in
    '(metadata, buf) ← Next (int variableLength) buf;
    '(metas, err) ← parseColumnMetadata metas metadata;
    let schema := string_of_bytes schema in
    let table := string_of_bytes table in
    match err with
    | Some e =>
        Done (build_TableMapEvent header tableId flags schema table types metas [], Some e)
    | None =>
        let err := if Len buf <? int (uint64 (columnCount + 7) / 8)
                   then Some EOF else None in
        '(bitmap, buf) ← Next (int (uint64 (columnCount + 7) / 8)) buf;
        Done (build_TableMapEvent header tableId flags schema table types metas bitmap, err)
    end.

(** The column schema that [GetTableSchemaByName] derives from one row of
    the query. [COLUMN_TYPE[0:4]] and [COLUMN_TYPE[0:3]] panic on a shorter
    text. *)
Definition column_schema_of_row (r : information_schema_row) : outcome column_schema_type :=
  let COLUMN_TYPE_ := r_COLUMN_TYPE r in
  let isBool := bool_decide (COLUMN_TYPE_ = "tinyint(1)") in
  let auto_increment_ := bool_decide (r_EXTRA r = "auto_increment") in
  let unsigned_ := Strings.Contains COLUMN_TYPE_ "unsigned" in
  let is_primary_ := negb (bool_decide (r_COLUMN_KEY r = "")) in
  if (String.length COLUMN_TYPE_ <? 4)%nat then Panic SliceBounds
  else
    let enum_values_ :=
      if bool_decide (Strings.slice COLUMN_TYPE_ 0 4 = "enum") then
        let d := Strings.Remove COLUMN_TYPE_ "enum(" in
        let d := Strings.Remove d ")" in
        let d := Strings.Remove d "'" in
        Strings.Split d ","%char
      else [] in
    let set_values_ :=
      if bool_decide (Strings.slice COLUMN_TYPE_ 0 3 = "set") then
        let d := Strings.Remove COLUMN_TYPE_ "set(" in
        let d := Strings.Remove d ")" in
        let d := Strings.Remove d "'" in
        Strings.Split d ","%char
      else [] in
    Done {| COLUMN_NAME := r_COLUMN_NAME r;
            COLUMN_KEY := r_COLUMN_KEY r;
            COLUMN_TYPE := COLUMN_TYPE_;
            enum_values := enum_values_;
            set_values := set_values_;
            is_bool := isBool;
            unsigned := unsigned_;
            is_primary := is_primary_;
            auto_increment := auto_increment_;
            CHARACTER_SET_NAME := r_CHARACTER_SET_NAME r;
            COLLATION_NAME := r_COLLATION_NAME r;
            NUMERIC_SCALE := r_NUMERIC_SCALE r |}.

(** The row loop of [GetTableSchemaByName]: each row appends one schema to
    [parser.tableSchemaMap[tableId]]. A row that panics ends the loop; the
    function recovers and reports an error, and the schemas appended so far
    stay. *)
Fixpoint append_schemas (tableId : Z) (rs : list information_schema_row)
    (m : gmap Z (list column_schema_type))
  : gmap Z (list column_schema_type) * option error :=
  match rs with
  | [] => (m, None)
  | r :: rs' =>
      match column_schema_of_row r with
      | Done c =>
          append_schemas tableId rs'
            (<[tableId := (default [] (m !! tableId) ++ [c])%list]> m)
      | _ => (m, Some (ErrText "slice bounds out of range"))
      end
  end.

(** [GetTableSchemaByName] *)
Definition GetTableSchemaByName (parser : eventParser) (tableId : Z)
    (database tablename : string) : eventParser * option error :=
  let parser := set_tableNameMap
                  (<[database +:+ "." +:+ tablename := tableId]> (tableNameMap parser))
                  parser in
  match information_schema_columns database tablename with
  | None => (parser, Some (ErrText "schema session"))
  | Some rs =>
      let '(m, errs) := append_schemas tableId rs (tableSchemaMap parser) in
      (set_tableSchemaMap m parser, errs)
  end.

(** [GetTableSchema]: [GetTableSchemaByName] again and again until it
    reports no error. The schema session answers a given query the same way
    every time, so a failing query is retried for ever. *)
Definition GetTableSchema (parser : eventParser) (tableId : Z)
    (database tablename : string) : outcome eventParser :=
  match GetTableSchemaByName parser tableId database tablename with
  | (parser, None) => Done parser
  | (_, Some _) => Diverge
  end.

(** The bytes that [parseEvent] decodes: [data[0:len(data)-4]] when
    checksums are on, [data] otherwise. *)
Definition event_bytes (parser : eventParser) (data : list byte) : outcome (list byte) :=
  if binlog_checksum parser then
    if Len data - 4 <? 0 then Panic SliceBounds
    else Done (take (Z.to_nat (Len data - 4)) data)
  else Done data.

(** The event types of the rows case of [parseEvent]. *)
Definition is_rows_event (t : Z) : bool :=
  (t =? WRITE_ROWS_EVENTv0) || (t =? WRITE_ROWS_EVENTv1) || (t =? WRITE_ROWS_EVENTv2)
  || (t =? UPDATE_ROWS_EVENTv0) || (t =? UPDATE_ROWS_EVENTv1)
  || (t =? UPDATE_ROWS_EVENTv2) || (t =? DELETE_ROWS_EVENTv0)
  || (t =? DELETE_ROWS_EVENTv1) || (t =? DELETE_ROWS_EVENTv2).

(** [parseEvent]: the parser after the event, the decoded event (nil for
    the skipped types), the file name and the error. *)
Definition parseEvent (parser : eventParser) (data : list byte)
  : outcome (eventParser * option EventReslut * string * option error) :=
  buf ← event_bytes parser data;
  let filename_ := binlogFileName parser in
  t ← byte_at data 4;
  if (t =? HEARTBEAT_EVENT) || (t =? IGNORABLE_EVENT) || (t =? GTID_EVENT)
     || (t =? ANONYMOUS_GTID_EVENT) || (t =? PREVIOUS_GTIDS_EVENT) then
    Done (parser, None, filename_, None)
  else if t =? FORMAT_DESCRIPTION_EVENT then
    '(f, err) ← parseFormatDescriptionEvent buf;
    let parser := set_format (Some f) parser in
    Done (parser, Some (new_EventReslut (fd_header f)), filename_, err)
  else if t =? QUERY_EVENT then
    '(queryEvent, err) ← parseQueryEvent buf;
    let event := {| Header := q_header queryEvent;
                    SchemaName := q_schema queryEvent;
                    BinlogFileName := binlogFileName parser;
                    BinlogPosition := 0;
                    TableName := "";
                    Query := q_query queryEvent;
                    Rows := []; Primary := "" |} in
    Done (parser, Some event, filename_, err)
  else if t =? ROTATE_EVENT then
    let '(rotateEvent, err) := parseRotateEvent buf in
    let parser := set_binlog_position (filename rotateEvent)
                    (uint32 (position rotateEvent)) parser in
    let filename_ := binlogFileName parser in
    let parser := set_tableSchemaMap ∅ parser in
    let event := {| Header := rot_header rotateEvent;
                    SchemaName := "";
                    BinlogFileName := binlogFileName parser;
                    BinlogPosition := binlogPosition parser;
                    TableName := ""; Query := ""; Rows := []; Primary := "" |} in
    Done (parser, Some event, filename_, err)
  else if t =? TABLE_MAP_EVENT then
    '(table_map_event, err) ← parseTableMapEvent parser buf;
    let tableId := tm_tableId table_map_event in
    let parser := set_tableMap (<[tableId := table_map_event]> (tableMap parser)) parser in
    parser ← (match tableSchemaMap parser !! tableId with
              | Some _ => Done parser
              | None => GetTableSchema parser tableId
                          (schemaName table_map_event) (tableName table_map_event)
              end);
    let event := {| Header := tm_header table_map_event;
                    SchemaName := schemaName table_map_event;
                    BinlogFileName := binlogFileName parser;
                    BinlogPosition := binlogPosition parser;
                    TableName := tableName table_map_event;
                    Query := ""; Rows := []; Primary := "" |} in
    Done (parser, Some event, filename_, err)
  else if is_rows_event t then
    '(rowsEvent, err) ← parseRowsEvent parser buf;
    match tableMap parser !! re_tableId rowsEvent with
    | None => Panic NilDereference
    | Some tm =>
        let event := {| Header := re_header rowsEvent;
                        SchemaName := schemaName tm;
                        BinlogFileName := binlogFileName parser;
                        BinlogPosition := binlogPosition parser;
                        TableName := tableName tm;
                        Query := "";
                        Rows := rows rowsEvent;
                        Primary := primary rowsEvent |} in
        Done (parser, Some event, filename_, err)
    end
  else
    match parseGenericEvent buf with
    | (None, _) => Panic NilDereference
    | (Some h, err) => Done (parser, Some (new_EventReslut h), filename_, err)
    end.

End WithExternals.
End Parser.

(** ** The dump loop (binlog.go, [DumpBinlog]) *)
Module Dump.
Section WithExternals.
Context `{Externals}.

(** [GetTableId] *)
Definition GetTableId (parser : eventParser) (database tablename : string) : Z :=
  let key := database +:+ "." +:+ tablename in
  match tableNameMap parser !! key with
  | None => uint64 0
  | Some id => id
  end.

(** [GetQueryTableName]: the database and the table of an ALTER TABLE
    statement, two empty strings for any other statement. *)
Definition GetQueryTableName (sql : string) : outcome (string * string) :=
  let sql := Strings.Trim sql " "%char in
  if (String.length sql <? 11)%nat then Done ("", "")
  else if bool_decide (Strings.ToUpper (Strings.slice sql 0 11) = "ALTER TABLE") then
    let sqlArr := Strings.Split sql " "%char in
    token ← Rows.index sqlArr 2;
    let dbAndTable := Strings.Remove token "`" in
    let i := Strings.IndexByte dbAndTable "."%char in
    if 0 <? i then
      Done (Strings.slice dbAndTable 0 (Z.to_nat i),
            Strings.slice dbAndTable (Z.to_nat i + 1) (String.length dbAndTable))
    else Done ("", dbAndTable)
  else Done ("", "").

(** What the loop hands out: an error sent on the result channel, or an
    event given to the callback. *)
Inductive emitted : Type :=
| Sent (e : error)
| Delivered (event : EventReslut).

(** How a run of the loop ends: it returns, it panics, it spins or retries
    for ever, or it waits for a packet that never comes. *)
Inductive dump_exit : Type :=
| Returned (e : option error)
| Panicked (p : panic)
| Diverged
| Blocked.

Record dump_run : Type := mk_dump_run {
  run_parser : eventParser;
  run_trace : list emitted;
  run_exit : dump_exit
}.

(** What [mc.readPacket()] returns. *)
Inductive read_result : Type :=
| Packet (pkt : list byte)
| ReadError (e : error).

Definition with_names (schema table : string) (event : EventReslut) : EventReslut :=
  mkEventReslut (Header event) schema (BinlogFileName event) (BinlogPosition event)
    table (Query event) (Rows event) (Primary event).

(** The schema refresh that the loop does for a QUERY event: the event
    with the names of an altered table, and the parser. *)
Definition refresh_on_query (parser : eventParser) (event : EventReslut)
  : outcome (eventParser * EventReslut) :=
  if EventType (Header event) =? QUERY_EVENT then
    '(SchemaName_, tableName_) ← GetQueryTableName (Query event);
    if negb (bool_decide (tableName_ = "")) then
      let event :=
        with_names (if negb (bool_decide (SchemaName_ = "")) then SchemaName_
                    else SchemaName event) tableName_ event in
      let tableId := GetTableId parser (SchemaName event) tableName_ in
      if 0 <? tableId then
        parser ← Parser.GetTableSchema parser tableId (SchemaName event) tableName_;
        Done (parser, event)
      else Done (parser, event)
    else Done (parser, event)
  else Done (parser, event).

(** What the loop decides for a decoded event after the schema refresh. *)
Inductive verdict : Type :=
| Drop        (* [continue] *)
| Close       (* [parser.dumpBinLogStatus = 2; break] *)
| Deliver.    (* [callbackFun(event)], then the position is updated *)

(** The database filter, the event-type filter and the maximum-position
    check of the loop, in this order. *)
Definition dispatch (parser : eventParser) (event : EventReslut) : outcome verdict :=
  if (0 <? Z.of_nat (base.size (replicateDoDb parser)))
     && bool_decide (replicateDoDb parser !! SchemaName event = None) then Done Drop
  else
    wanted ← Rows.index (eventDo parser) (int (EventType (Header event)));
    if negb wanted then Done Drop
    else if bool_decide (BinlogFileName event = maxBinlogFileName parser)
            && (maxBinlogPosition parser <=? LogPos (Header event)) then Done Close
    else Done Deliver.

Definition stop (parser : eventParser) (trace : list emitted) (how : dump_exit) :=
  mk_dump_run parser trace how.

(** The [for] loop of [DumpBinlog] over the packets that [readPacket]
    returns, one per pass. No other goroutine writes the command register
    during the run. *)
Fixpoint DumpBinlog_loop (parser : eventParser) (input : list read_result)
    (trace : list emitted) : dump_run :=
  if negb (dumpBinLogStatus parser =? 1) && (dumpBinLogStatus parser =? 0) then
    (* sleeps, reports and tries again for as long as the register is 0 *)
    stop parser (trace ++ [Sent (ErrText "stop")]) Diverged
  else if negb (dumpBinLogStatus parser =? 1) && (dumpBinLogStatus parser =? 2) then
    stop parser (trace ++ [Sent (ErrText "close")]) (Returned None)
  else
    match input with
    | [] => stop parser trace Blocked
    | ReadError e :: _ => stop parser (trace ++ [Sent e]) (Returned (Some e))
    | Packet pkt :: input' =>
        match pkt with
        | [] => stop parser trace (Panicked IndexOutOfRange)
        | pkt0 :: payload =>
            if byte_to_Z pkt0 =? 254 then
              stop parser (trace ++ [Sent (ErrText "EOF packet")]) (Returned None)
            else if byte_to_Z pkt0 =? 0 then
              match Parser.parseEvent parser payload with
              | Panic p => stop parser trace (Panicked p)
              | Diverge => stop parser trace Diverged
              | Done (parser, _, _, Some e) =>
                  stop parser (trace ++ [Sent e]) (Returned (Some e))
              | Done (parser, None, _, None) => DumpBinlog_loop parser input' trace
              | Done (parser, Some event, _, None) =>
                  match refresh_on_query parser event with
                  | Panic p => stop parser trace (Panicked p)
                  | Diverge => stop parser trace Diverged
                  | Done (parser, event) =>
                      match dispatch parser event with
                      | Panic p => stop parser trace (Panicked p)
                      | Diverge => stop parser trace Diverged
                      | Done Drop => DumpBinlog_loop parser input' trace
                      | Done Close =>
                          stop (set_dumpBinLogStatus 2 parser) trace (Returned None)
                      | Done Deliver =>
                          DumpBinlog_loop
                            (set_binlog_position (BinlogFileName event)
                               (LogPos (Header event)) parser)
                            input' (trace ++ [Delivered event])
                      end
                  end
              end
            else
              let trace := (trace ++ [Sent (ErrText "Unknown packet")])%list in
              if Strings.Contains (string_of_bytes pkt)
                   "Could not find first log file name in binary log index file"
              then stop parser (trace ++ [Sent (ErrText "close")]) (Returned None)
              else DumpBinlog_loop parser input' trace
        end
    end.

(** [DumpBinlog]: the dump command is written ([written] is the error of
    [writeCommandPacket]), then the loop runs. *)
Definition DumpBinlog (written : option error) (parser : eventParser)
    (input : list read_result) : dump_run :=
  match written with
  | Some e => stop parser [Sent e] (Returned (Some e))
  | None => DumpBinlog_loop parser input []
  end.

End WithExternals.
End Dump.

(** ** A reference environment

    One implementation of the collaborators, used to run the embedding on
    concrete events. *)
Module Reference.

(** [paket.read(n)]: pushed-back bytes first, then the buffer. *)
Definition read (n : Z) (pk : paket) : list byte * paket :=
  let k := Z.to_nat n in
  let from_back := take k (buydata pk) in
  let more := (k - length from_back)%nat in
  ((from_back ++ take more (pk_buf pk))%list,
   mk_paket (drop more (pk_buf pk)) (drop k (buydata pk))).

Definition readByte (pk : paket) : Z * paket :=
  let '(d, pk) := read 1 pk in (le_uint d, pk).

Definition unread (d : list byte) (pk : paket) : paket :=
  mk_paket (pk_buf pk) (buydata pk ++ d)%list.

(** The columns of the tables of the examples: [shop.item] with a
    two-column key, every other table without columns. *)
Definition columns (database table : string) : option (list information_schema_row) :=
  if bool_decide (database = "shop") && bool_decide (table = "item") then
    Some [ mk_information_schema_row "id" "PRI" "int(11)" "" "" "0" "";
           mk_information_schema_row "sku" "PRI" "tinyint(4)" "" "" "0" "" ]
  else Some [].

#[export] Instance externals : Externals := {|
  paket_readByte := readByte;
  paket_unread := unread;
  paket_read := read;
  read_uint64_be_by_bytes := be_uint;
  format_unix := Itoa;
  format_date := fun y mo d h mi s =>
    Itoa y +:+ "-" +:+ Itoa mo +:+ "-" +:+ Itoa d +:+ " "
      +:+ Itoa h +:+ ":" +:+ Itoa mi +:+ ":" +:+ Itoa s;
  parseGenericEvent := fun buf =>
    let '(h, err, _) := read_header buf in (Some h, err);
  information_schema_columns := columns
|}.

End Reference.

(** ** Configuration files (config/config.go) *)
Module Config.

(** [map[string]map[string]string]: a nil inner map is an absent entry. *)
Abbreviation conf := (gmap string (gmap string string)).

(** How [LoadConf] ends: it returns the map, it leaves the process with
    [os.Exit(1)], or it panics. *)
Inductive load_panic : Type :=
| SliceBoundsOutOfRange      (* [line[0:i]] with [i = -1] *)
| AssignmentToNilMap.        (* [per[stringKey][k] = v] with no [per[stringKey]] *)

Inductive load_result : Type :=
| Loaded (per : conf)
| Exited
| Crashed (p : load_panic).

(** The lines that the loop of [LoadConf] gets from [buf.ReadString('\n')]
    with a nil error: each with its newline. What follows the last newline
    comes with [io.EOF], and the loop is left before it is looked at.
    [acc] holds the line read so far. *)
Fixpoint terminated_lines (acc : string) (s : string) : list string :=
  match s with
  | EmptyString => []
  | String c s' =>
      if Ascii.eqb c "010" then (acc +:+ String c "") :: terminated_lines "" s'
      else terminated_lines (acc +:+ String c "") s'
  end.

(** [line[len(line)-1]] of a non-empty [line]. *)
Fixpoint last_byte (c : ascii) (s : string) : ascii :=
  match s with
  | EmptyString => c
  | String c' s' => last_byte c' s'
  end.

Section WithTrimSpace.
(** [strings.TrimSpace] *)
Variable TrimSpace : string → string.

(** One pass of the loop of [LoadConf] for the line [l] read without an
    error: the [switch] on the trimmed line. *)
Definition load_line (l : string) (per : conf) (stringKey : string)
  : load_result + conf * string :=
  let line := TrimSpace l in
  match line with
  | EmptyString => inr (per, stringKey)
  | String c rest =>
      if Ascii.eqb c "[" && Ascii.eqb (last_byte c rest) "]" then
        let stringKey := TrimSpace (Strings.slice line 1 (String.length line - 1)) in
        inr (<[stringKey := ∅]> per, stringKey)
      else if Ascii.eqb c "#" then inr (per, stringKey)
      else if Ascii.eqb c ";" then inr (per, stringKey)
      else
        let i := Strings.IndexByte line "=" in
        if i <? 0 then inl (Crashed SliceBoundsOutOfRange)
        else
          let k := TrimSpace (Strings.slice line 0 (Z.to_nat i)) in
          let v := TrimSpace (Strings.slice line (Z.to_nat i + 1) (String.length line)) in
          match per !! stringKey with
          | None => inl (Crashed AssignmentToNilMap)
          | Some m => inr (<[stringKey := <[k := v]> m]> per, stringKey)
          end
  end.

(** The loop of [LoadConf] over the lines read. *)
Fixpoint load_lines (ls : list string) (per : conf) (stringKey : string) : load_result :=
  match ls with
  | [] => Loaded per
  | l :: ls' =>
      match load_line l per stringKey with
      | inl r => r
      | inr (per, stringKey) => load_lines ls' per stringKey
      end
  end.

(** [LoadConf] on the content of the file, [None] for a file that cannot be
    opened or read: the reader then fails with an error other than
    [io.EOF]. The result is also what [MyConf] holds afterwards. *)
Definition LoadConf (file : option string) : load_result :=
  match file with
  | None => Exited
  | Some content => load_lines (terminated_lines "" content) ∅ ""
  end.

End WithTrimSpace.

(** [GetConf]: [MyConf[module]], nil when there is no such module. *)
Definition GetConf (MyConf : conf) (module : string) : option (gmap string string) :=
  MyConf !! module.

(** [GetConfigVal] *)
Definition GetConfigVal (MyConf : conf) (module key : string) : string :=
  match MyConf !! module with
  | None => ""
  | Some m => match m !! key with
              | None => ""
              | Some v => v
              end
  end.

(** [SetConfigVal]: [MyConf] afterwards and the result. *)
Definition SetConfigVal (MyConf : conf) (module key value : string) : conf * bool :=
  match MyConf !! module with
  | None => (MyConf, false)
  | Some m => match m !! key with
              | None => (MyConf, false)
              | Some _ => (<[module := <[key := value]> m]> MyConf, true)
              end
  end.

End Config.

(** * Vocabulary of the properties and example data *)

Import Rows Parser Dump.

(** Column [i] is present in the schema and in the table map and is not
    null in the row image. *)
Definition live_column (tm : TableMapEvent) (schema : list column_schema_type)
    (nullBitMap : Bitfield) (i : Z) (sch : column_schema_type) (meta : ColumnType) : Prop :=
  Rows.index schema i = Done sch ∧
  isSet nullBitMap i = Done false ∧
  Rows.index (columnMetaData tm) i = Done meta.

(** A schema entry as the schema cache holds it: derived from a row of the
    catalog by [GetTableSchemaByName]. *)
Definition derived (w : column_schema_type) : Prop :=
  ∃ r, column_schema_of_row r = Done w.

(** The names of the columns of a schema whose key kind is "PRI", in
    ordinal order. *)
Definition PRI_columns (schema : list column_schema_type) : list string :=
  COLUMN_NAME <$> filter (λ w, COLUMN_KEY w = "PRI") schema.

(** The hard-stop position that the parser was configured with. *)
Definition configured_max (p : eventParser) : string * Z :=
  (maxBinlogFileName p, maxBinlogPosition p).

(** An event is at the configured maximum when its file is the maximum's
    file and its next position is at or past the maximum's position. *)
Definition at_max (p : eventParser) (event : EventReslut) : Prop :=
  BinlogFileName event = maxBinlogFileName p ∧
  maxBinlogPosition p ≤ LogPos (Header event).

(** An event passes the filters of the dump loop: its database is in the
    include-set when one is configured, and its type is subscribed. *)
Definition passes_filters (p : eventParser) (event : EventReslut) : Prop :=
  (base.size (replicateDoDb p) = 0%nat ∨ is_Some (replicateDoDb p !! SchemaName event)) ∧
  Rows.index (eventDo p) (int (EventType (Header event))) = Done true.

(** The methods of [paket] read from the buffer they hold and never put
    bytes into it. *)
Definition paket_consumes `{Externals} : Prop :=
  (∀ pk, length (pk_buf (paket_readByte pk).2) ≤ length (pk_buf pk))%nat ∧
  (∀ d pk, length (pk_buf (paket_unread d pk)) ≤ length (pk_buf pk))%nat ∧
  (∀ n pk, length (pk_buf (paket_read n pk).2) ≤ length (pk_buf pk))%nat.

(** The state of [event.primary] between two passes of the row loop. *)
Definition primary_settled (schema : list column_schema_type) (event : RowsEvent) : Prop :=
  (rows event = [] ∧ primary event = "") ∨
  (rows event ≠ [] ∧ primary event = default "" (last (PRI_columns schema))).

(** What a [tinyint(1)] column holds for a wire byte: a boolean for 1 and
    for 0, the signed 8-bit integer for every other byte. *)
Definition tinyint1_value (b : byte) : Value :=
  if byte_to_Z b =? 1 then VBool true
  else if byte_to_Z b =? 0 then VBool false
  else VInt8 (int8 (byte_to_Z b)).

(** ** Example tables *)

(** A table map of the given columns for table id 42, [shop.item]. *)
Definition example_table_map (metas : list ColumnType) : TableMapEvent :=
  {| tm_header := zero_header; tm_tableId := 42; tm_flags := 0;
     schemaName := "shop"; tableName := "item";
     columnTypes := column_type <$> metas; columnMeta := [];
     columnMetaData := metas; nullBitmap := [x00] |}.

(** The schema row of a column [flag tinyint(1)] and the schema derived
    from it. *)
Definition flag_row : information_schema_row :=
  mk_information_schema_row "flag" "" "tinyint(1)" "" "" "0" "".

Definition flag_schema : column_schema_type :=
  {| COLUMN_NAME := "flag"; COLUMN_KEY := ""; COLUMN_TYPE := "tinyint(1)";
     enum_values := []; set_values := []; is_bool := true; unsigned := false;
     is_primary := false; auto_increment := false; CHARACTER_SET_NAME := "";
     COLLATION_NAME := ""; NUMERIC_SCALE := "0" |}.

(** A schema entry with the derived flags all off. *)
Definition plain_schema (column key type_ : string) : column_schema_type :=
  {| COLUMN_NAME := column; COLUMN_KEY := key; COLUMN_TYPE := type_;
     enum_values := []; set_values := []; is_bool := false; unsigned := false;
     is_primary := negb (bool_decide (key = "")); auto_increment := false;
     CHARACTER_SET_NAME := ""; COLLATION_NAME := ""; NUMERIC_SCALE := "" |}.

(** Metadata of a column of type [t] whose enum or set value takes [n]
    bytes. *)
Definition sized_column (t : FieldType) (n : Z) : ColumnType :=
  mkColumnType t "" false 0 0 0 0 n 0 0 0.

(** Metadata of a NEWDECIMAL column of the given precision and scale. *)
Definition decimal_column (p d : Z) : ColumnType :=
  mkColumnType FIELD_TYPE_NEWDECIMAL "" false 0 0 p d 0 0 0 0.

(** A schema entry for an enum or set column with the given literals. *)
Definition literal_schema (column type_ : string) (enums sets : list string)
  : column_schema_type :=
  {| COLUMN_NAME := column; COLUMN_KEY := ""; COLUMN_TYPE := type_;
     enum_values := enums; set_values := sets; is_bool := false;
     unsigned := false; is_primary := false; auto_increment := false;
     CHARACTER_SET_NAME := ""; COLLATION_NAME := ""; NUMERIC_SCALE := "" |}.

(** ** Example events *)

(** A 19-byte common header with the given type code and next position
    (below 65536), every other field zero. *)
Definition example_header (type_code : byte) (pos_lo pos_hi : byte) : list byte :=
  [x00; x00; x00; x00; type_code; x01; x00; x00; x00; x00; x00; x00; x00;
   pos_lo; pos_hi; x00; x00; x00; x00].

(** A format description in which every event type has a post-header of 8
    bytes, so that table ids take 6 bytes. *)
Definition example_format : FormatDescriptionEvent :=
  {| fd_header := zero_header; binlogVersion := 4;
     mysqlServerVersion := "5.7.30-log"; createTimestamp := 0;
     eventHeaderLength := 19; eventTypeHeaderLengths := replicate 40 x08 |}.

(** A parser that has seen the format description and follows
    [mysql-bin.000007] from position 120, every event type subscribed. *)
Definition example_parser : eventParser :=
  {| format := Some example_format; tableMap := ∅; tableNameMap := ∅;
     tableSchemaMap := ∅; dumpBinLogStatus := 1;
     binlogFileName := "mysql-bin.000007"; binlogPosition := 120;
     maxBinlogFileName := ""; maxBinlogPosition := 0; replicateDoDb := ∅;
     eventDo := replicate 36 true; parser_ServerId := 1; connectionId := "";
     binlog_checksum := false |}.

(** The bytes of an ASCII text. *)
Definition text (s : string) : list byte := list_byte_of_string s.

(** A ROTATE event to [mysql-bin.000008] whose position field holds
    2^32 + 4. *)
Definition example_rotate : list byte :=
  example_header x04 x00 x00 ++ [x04; x00; x00; x00; x01; x00; x00; x00]
    ++ text "mysql-bin.000008".

(** A WRITE_ROWS (v1) event for table id 42 with one column and one row
    image: null bitmap 00, column byte 05. *)
Definition example_write_rows : list byte :=
  example_header x17 x00 x02 ++ [x2a; x00; x00; x00; x00; x00] ++ [x00; x00]
    ++ [x01] ++ [xff] ++ [x00; x05].

(** A WRITE_ROWS (v1) event for table id 42 with two columns and one row
    image: null bitmap 00, column bytes 07 and 09. *)
Definition example_write_rows_2 : list byte :=
  example_header x17 x00 x02 ++ [x2a; x00; x00; x00; x00; x00] ++ [x00; x00]
    ++ [x02] ++ [xff] ++ [x00; x07; x09].

(** A TABLE_MAP event that binds table id 42 to [shop.item] with two TINY
    columns. *)
Definition example_table_map_event : list byte :=
  example_header x13 x00 x01 ++ [x2a; x00; x00; x00; x00; x00] ++ [x00; x00]
    ++ [x04] ++ text "shop" ++ [x00] ++ [x04] ++ text "item" ++ [x00]
    ++ [x02] ++ [x01; x01] ++ [x00] ++ [x00].

(** The example parser with a cached table map and schema for table id 42. *)
Definition example_parser_with_table : eventParser :=
  set_tableSchemaMap {[ 42 := [flag_schema] ]}
    (set_tableMap {[ 42 := example_table_map [new_ColumnType FIELD_TYPE_TINY] ]}
       example_parser).

(** The example parser with a cached table map of two TINY columns for
    table id 42 and a schema in which both columns are part of the key. *)
Definition example_parser_two_keys : eventParser :=
  set_tableSchemaMap
    {[ 42 := [plain_schema "id" "PRI" "int(11)"; plain_schema "sku" "PRI" "tinyint(4)"] ]}
    (set_tableMap
       {[ 42 := example_table_map [new_ColumnType FIELD_TYPE_TINY;
                                   new_ColumnType FIELD_TYPE_TINY] ]}
       example_parser).

(** The example parser following [file], with the hard stop configured at
    position 5000 of [mysql-bin.000009]. *)
Definition example_parser_with_max (file : string) : eventParser :=
  {| format := Some example_format; tableMap := ∅; tableNameMap := ∅;
     tableSchemaMap := ∅; dumpBinLogStatus := 1;
     binlogFileName := file; binlogPosition := 120;
     maxBinlogFileName := "mysql-bin.000009"; maxBinlogPosition := 5000;
     replicateDoDb := ∅;
     eventDo := replicate 36 true; parser_ServerId := 1; connectionId := "";
     binlog_checksum := false |}.

(** The example TABLE_MAP event with next position 5000. *)
Definition example_table_map_event_5000 : list byte :=
  example_header x13 x88 x13 ++ [x2a; x00; x00; x00; x00; x00] ++ [x00; x00]
    ++ [x04] ++ text "shop" ++ [x00] ++ [x04] ++ text "item" ++ [x00]
    ++ [x02] ++ [x01; x01] ++ [x00] ++ [x00].

(** ** Encoders and vocabulary of the further properties *)

(** The names of the first [n] columns of a schema, as a set. *)
Definition schema_names (schema : list column_schema_type) (n : nat) : gset string :=
  list_to_set (COLUMN_NAME <$> take n schema).

(** The [n] low bytes of [z], least significant first. *)
Fixpoint le_bytes (n : nat) (z : Z) : list byte :=
  match n with
  | O => []
  | S k => byte_of_Z z :: le_bytes k (z / 256)
  end.

(** The width in bytes of the integer column types. *)
Definition int_width (t : FieldType) : option nat :=
  match t with
  | FIELD_TYPE_SHORT => Some 2%nat
  | FIELD_TYPE_LONG => Some 4%nat
  | FIELD_TYPE_LONGLONG => Some 8%nat
  | _ => None
  end.

(** The row value of an integer column. *)
Definition int_value (t : FieldType) (unsigned_ : bool) (v : Z) : Value :=
  match t, unsigned_ with
  | FIELD_TYPE_SHORT, true => VUint16 v
  | FIELD_TYPE_SHORT, false => VInt16 v
  | FIELD_TYPE_LONG, true => VUint32 v
  | FIELD_TYPE_LONG, false => VInt32 v
  | FIELD_TYPE_LONGLONG, true => VUint64 v
  | FIELD_TYPE_LONGLONG, false => VInt64 v
  | _, _ => VNil
  end.

(** [v] fits an integer of [w] bytes. *)
Definition int_in_range (w : nat) (unsigned_ : bool) (v : Z) : Prop :=
  if unsigned_ then 0 ≤ v < 2 ^ (8 * Z.of_nat w)
  else - 2 ^ (8 * Z.of_nat w - 1) ≤ v < 2 ^ (8 * Z.of_nat w - 1).

(** The length prefix of a VARCHAR value: two bytes when the column can
    hold more than 255 bytes, one byte otherwise. *)
Definition varchar_prefix (max_length_ : Z) (n : Z) : list byte :=
  if 255 <? max_length_ then le_bytes 2 n else le_bytes 1 n.

(** The largest length that the prefix can express, plus one. *)
Definition varchar_limit (max_length_ : Z) : Z :=
  if 255 <? max_length_ then 65536 else 256.

(** A date as DATE columns pack it: 5 bits of day, 4 of month, 15 of year. *)
Definition pack_date (year month day : Z) : Z := day + 32 * month + 512 * year.

(** A number written with at least two digits. *)
Definition pad2 (v : Z) : string := if v <? 10 then "0" +:+ Itoa v else Itoa v.

(** A time of day as TIME columns pack it, in decimal. *)
Definition pack_time (hour minute second : Z) : Z := hour * 10000 + minute * 100 + second.

(** A minute or a second as the TIME cases write it: a zero is put before
    every value up to 10, the two-digit 10 included. *)
Definition time_field (v : Z) : string := if 10 <? v then Itoa v else "0" +:+ Itoa v.

(** The [n] low bytes of [z], most significant first. *)
Definition be_bytes (n : nat) (z : Z) : list byte := rev (le_bytes n z).

(** A time of day as TIME2 columns pack a non-negative one: the sign bit,
    a spare bit, 10 bits of hour, 6 of minute, 6 of second. *)
Definition pack_time2 (hour minute second : Z) : Z :=
  2 ^ 23 + hour * 2 ^ 12 + minute * 2 ^ 6 + second.

(** A date and time as DATETIME2 columns pack a non-negative one: the sign
    bit, 17 bits of [year * 13 + month], 5 of day, 5 of hour, 6 of minute,
    6 of second. *)
Definition pack_datetime2 (year month day hour minute second : Z) : Z :=
  2 ^ 39 + (year * 13 + month) * 2 ^ 22 + day * 2 ^ 17 + hour * 2 ^ 12
  + minute * 2 ^ 6 + second.

(** The type that the metadata of a column may carry for a wire type: the
    wire type itself, or ENUM or SET for a column sent as STRING. *)
Definition metadata_type (wire : FieldType) (t : FieldType) : Prop :=
  t = wire ∨ (wire = FIELD_TYPE_STRING ∧ (t = FIELD_TYPE_ENUM ∨ t = FIELD_TYPE_SET)).

(** The wire types that [parseColumnMetadata] knows. *)
Definition known_wire_type (t : FieldType) : Prop :=
  t ≠ FIELD_TYPE_ENUM ∧ t ≠ FIELD_TYPE_SET ∧ ∀ code, t ≠ FIELD_TYPE_other code.

Definition retyped (m m' : ColumnType) : Prop :=
  metadata_type (column_type m) (column_type m').

(** What the user of the parser configures: the command register, the hard
    stop, the database filter, the subscription and the checksum switch. *)
Definition settings (p : eventParser) :=
  (dumpBinLogStatus p, maxBinlogFileName p, maxBinlogPosition p,
   replicateDoDb p, eventDo p, binlog_checksum p).

(** Where the parser stands in the binlog. *)
Definition place (p : eventParser) : string * Z := (binlogFileName p, binlogPosition p).

(** The schemas that the catalog rows [rs] give, in order, when none of
    them fails. *)
Definition schemas_of_rows (rs : list information_schema_row)
  : option (list column_schema_type) :=
  mapM (λ r, match column_schema_of_row r with
             | Done c => Some c
             | _ => None
             end) rs.

(** Metadata of a BIT column of the given width in bits, stored in the
    given number of bytes. *)
Definition bit_column (bits_ bytes_ : Z) : ColumnType :=
  mkColumnType FIELD_TYPE_BIT "" false 0 0 0 0 0 bytes_ bits_ 0.

(** The reference environment with a catalog that writes integer types
    without a display width, as MySQL does from 8.0.19 on. *)
Definition externals_without_width : Externals :=
  {| paket_readByte := Reference.readByte;
     paket_unread := Reference.unread;
     paket_read := Reference.read;
     read_uint64_be_by_bytes := be_uint;
     format_unix := Itoa;
     format_date := format_date (Externals := Reference.externals);
     parseGenericEvent := parseGenericEvent (Externals := Reference.externals);
     information_schema_columns := λ _ _,
       Some [ mk_information_schema_row "id" "PRI" "int" "" "" "0" "" ] |}.

(** ** Vocabulary of the properties of statements, configuration files and table maps *)

Import Config.

(** No character of [s] is [c]. *)
Fixpoint lacks (c : ascii) (s : string) : bool :=
  match s with
  | EmptyString => true
  | String a s' => negb (Ascii.eqb a c) && lacks c s'
  end.

(** A name as a statement writes it: bare, or between backticks. *)
Definition quoted (q : bool) (s : string) : string :=
  if q then "`" +:+ s +:+ "`" else s.

(** A text does not end in a space. *)
Definition ends_in_text (s : string) : Prop :=
  s ≠ "" ∧ Strings.TrimRight s " " = s.

(** The ASCII white space that [strings.TrimSpace] drops. *)
Definition is_space (c : ascii) : bool :=
  let n := nat_of_ascii c in
  ((9 <=? n) && (n <=? 13))%nat || (n =? 32)%nat.

(** An ASCII character that is not white space. *)
Definition is_plain (c : ascii) : bool :=
  negb (is_space c) && (nat_of_ascii c <? 128)%nat.

(** A text that neither starts nor ends with white space or with a byte
    of a multi-byte character: [strings.TrimSpace] returns such a text as
    it is. *)
Definition plain_edges (s : string) : bool :=
  match s with
  | EmptyString => true
  | String c rest => is_plain c && is_plain (last_byte c rest)
  end.

(** What the properties of [LoadConf] ask of [strings.TrimSpace]: a final
    newline makes no difference, and a text with plain edges is kept. *)
Definition trims_space (TrimSpace : string → string) : Prop :=
  (∀ s, TrimSpace (s +:+ String "010" "") = TrimSpace s)
  ∧ (∀ s, plain_edges s = true → TrimSpace s = s).

(** [strings.TrimSpace] on ASCII texts. *)
Fixpoint trim_left (s : string) : string :=
  match s with
  | EmptyString => EmptyString
  | String c s' => if is_space c then trim_left s' else s
  end.

Fixpoint trim_right (s : string) : string :=
  match s with
  | EmptyString => EmptyString
  | String c s' =>
      match trim_right s' with
      | EmptyString => if is_space c then EmptyString else String c EmptyString
      | t => String c t
      end
  end.

Definition ascii_TrimSpace (s : string) : string := trim_right (trim_left s).

(** The name of a setting: plain edges, no equals sign, no newline, and a
    first character that does not start a header or a comment. *)
Definition setting_key (k : string) : bool :=
  plain_edges k && lacks "=" k && lacks "010" k
  && match k with
     | EmptyString => true
     | String c _ => negb (Ascii.eqb c "[") && negb (Ascii.eqb c "#")
                     && negb (Ascii.eqb c ";")
     end.

(** The value of a setting: plain edges and no newline. *)
Definition setting_value (v : string) : bool := plain_edges v && lacks "010" v.

(** The line of a setting. *)
Definition setting_line (kv : string * string) : string :=
  kv.1 +:+ "=" +:+ kv.2 +:+ String "010" "".

(** The lines of a section: its header and its settings. *)
Definition section_text (sec : string) (kvs : list (string * string)) : string :=
  "[" +:+ sec +:+ "]" +:+ String "010" (foldr (λ kv t, setting_line kv +:+ t) "" kvs).

(** The settings in the order of the file, a later one replacing an
    earlier one of the same name. *)
Definition settings_map (kvs : list (string * string)) : gmap string string :=
  foldl (λ m kv, <[kv.1 := kv.2]> m) ∅ kvs.

(** The bytes of a length-prefixed text of fewer than 256 bytes, with the
    zero byte that ends the names of a table map. *)
Definition name_bytes (name : list byte) : list byte :=
  [byte_of_Z (Z.of_nat (length name))] ++ name ++ [x00].

(** A count or a list of bytes behind a one-byte length. *)
Definition counted_bytes (bs : list byte) : list byte :=
  [byte_of_Z (Z.of_nat (length bs))] ++ bs.

(** The number of bytes of the table id for the post-header length [hs]. *)
Definition table_id_width (hs : Z) : nat := if hs =? 6 then 4%nat else 6%nat.

(** The body of a TABLE_MAP event as the server writes it. *)
Definition table_map_bytes (hs tableId flags : Z) (schema table types metadata bitmap : list byte)
  : list byte :=
  le_bytes (table_id_width hs) tableId ++ le_bytes 2 flags
  ++ name_bytes schema ++ name_bytes table
  ++ counted_bytes types ++ counted_bytes metadata ++ bitmap.

(** A QUERY event that alters [shop.item]. *)
Definition example_alter_event : EventReslut :=
  {| Header := mkEventHeader 0 QUERY_EVENT 1 0 700 0;
     SchemaName := "shop"; BinlogFileName := "mysql-bin.000007"; BinlogPosition := 0;
     TableName := "";
     Query := "ALTER TABLE " +:+ quoted true "shop" +:+ "." +:+ quoted true "item"
              +:+ " " +:+ "ADD COLUMN note varchar(20)";
     Rows := []; Primary := "" |}.

(** ** What a column and its metadata come to *)

(** What the column loop of [parseEventRow] does with column [i] when the
    column decodes to [v] from the front of [buf] and leaves [rest]: a pass
    stores [v] under the column's name and goes on with [rest]; when the
    column is the last one, the row is returned with [v] in it and [rest]
    is what is left of the buffer; however many columns follow, a row that
    is returned holds [v] under the name unless a later column has the same
    name; and for a table of this one column, [parseEventRow] on the null
    bitmap and [buf] returns the row that holds [v] alone. *)
Definition column_stored `{Externals} (tm : TableMapEvent)
    (schema : list column_schema_type) (nb : Bitfield) (i : Z)
    (sch : column_schema_type) (row : gmap string Value) (buf : list byte)
    (v : Value) (rest : list byte) : Prop :=
  (∀ n, parseEventRow_columns tm schema nb (S n) i row buf =
        parseEventRow_columns tm schema nb n (i + 1) (<[COLUMN_NAME sch := v]> row) rest)
  ∧ parseEventRow_columns tm schema nb 1 i row buf
    = Done (Some (<[COLUMN_NAME sch := v]> row), None, rest)
  ∧ (∀ n row' e rest',
       parseEventRow_columns tm schema nb (S n) i row buf = Done (Some row', e, rest') →
       (∀ j later, i < j → Rows.index schema j = Done later →
                   COLUMN_NAME later ≠ COLUMN_NAME sch) →
       row' !! COLUMN_NAME sch = Some v)
  ∧ (i = 0 → row = ∅ → length (columnTypes tm) = 1%nat → length nb = 1%nat →
     parseEventRow (nb ++ buf) (Some tm) schema
     = Done (Some (<[COLUMN_NAME sch := v]> ∅), None, rest)).

(** What [parseColumnMetadata] does with column [i] of type entry [t] when
    its metadata, read at offset [pos], makes the entry [m'] and the
    offset [pos']: a pass records [m'] for the column and goes on at
    [pos']; when the column is the last one, the metadata is returned with
    [m'] recorded; however many columns follow, metadata that is returned
    without an error holds [m'] for the column; and for a table of this one
    column, [parseColumnMetadata] returns [m'] alone. *)
Definition metadata_recorded (data : list byte) (t : ColumnType) (i : nat) (pos : Z)
    (metas : list ColumnType) (m' : ColumnType) (pos' : Z) : Prop :=
  (∀ todo, parseColumnMetadata_from data (t :: todo) i pos metas =
           parseColumnMetadata_from data todo (S i) pos' (<[i := m']> metas))
  ∧ parseColumnMetadata_from data [t] i pos metas = Done (<[i := m']> metas, None)
  ∧ (∀ todo metas',
       parseColumnMetadata_from data (t :: todo) i pos metas = Done (metas', None) →
       metas' !! i = Some m')
  ∧ (i = 0%nat → pos = 0 → metas = [t] →
     parseColumnMetadata metas data = Done ([m'], None)).

(** * Properties *)

(** ** The column loop, one pass at a time *)

Lemma columns_pass `{Externals} tm schema nb n i sch meta row buf :
  live_column tm schema nb i sch meta →
  parseEventRow_columns tm schema nb (S n) i row buf =
  step ← decode_column tm i meta sch row buf;
  match step with
  | Return e => Done (None, Some e, buf)
  | Continue row (Some e) buf => Done (None, Some e, buf)
  | Continue row None buf => parseEventRow_columns tm schema nb n (i + 1) row buf
  end.
Proof.
  intros (Hs & Hn & Hm). cbn [parseEventRow_columns].
  rewrite Hs. cbn. rewrite Hn. cbn. rewrite Hm. reflexivity.
Qed.

(** ** Fixed-width arithmetic *)

Lemma wrap_range bits z : 0 ≤ bits → 0 ≤ wrap bits z < 2 ^ bits.
Proof. intros. unfold wrap. apply Z.mod_pos_bound. apply Z.pow_pos_nonneg; lia. Qed.

Lemma byte_to_Z_range b : 0 ≤ byte_to_Z b < 256.
Proof.
  unfold byte_to_Z. pose proof (Byte.to_N_bounded b) as Hb.
  split; [lia|]. apply N2Z.inj_le in Hb. simpl in Hb. lia.
Qed.

(** A shift by the whole width of an [int8] leaves nothing. *)
Lemma int8_shiftl_out z n : 8 ≤ n → int8 (Z.shiftl z n) = 0.
Proof.
  intros Hn. unfold int8, signed, wrap.
  rewrite Z.shiftl_mul_pow2 by lia.
  replace n with (8 + (n - 8)) by lia.
  rewrite Z.pow_add_r by lia.
  replace (z * (2 ^ 8 * 2 ^ (n - 8))) with (z * 2 ^ (n - 8) * 2 ^ 8) by ring.
  rewrite Z.mod_mul by (cbn; lia). reflexivity.
Qed.

Lemma signed_idem bits z : 0 < bits → signed bits (signed bits z) = signed bits z.
Proof.
  intros Hb. unfold signed at 1.
  assert (Hw : wrap bits (signed bits z) = wrap bits z).
  { unfold signed, wrap. destruct (_ <? _); [apply Z.mod_mod; apply Z.pow_nonzero; lia|].
    rewrite <- Zminus_mod_idemp_r, Z.mod_same, Z.sub_0_r by (apply Z.pow_nonzero; lia).
    apply Z.mod_mod. apply Z.pow_nonzero; lia. }
  cbn zeta. rewrite Hw. reflexivity.
Qed.

Lemma signed_small bits z :
  0 < bits → - 2 ^ (bits - 1) ≤ z < 2 ^ (bits - 1) → signed bits z = z.
Proof.
  intros Hb Hz. unfold signed, wrap. cbn zeta.
  assert (Hp : 2 ^ bits = 2 * 2 ^ (bits - 1)).
  { replace bits with (1 + (bits - 1)) at 1 by lia. rewrite Z.pow_add_r by lia. reflexivity. }
  assert (0 < 2 ^ (bits - 1)) by (apply Z.pow_pos_nonneg; lia).
  destruct (Z.ltb_spec (z mod 2 ^ bits) (2 ^ (bits - 1))) as [Hlt | Hge].
  - destruct (Z.le_gt_cases 0 z).
    + apply Z.mod_small. lia.
    + exfalso. rewrite <- (Z.mod_add z 1) in Hlt by lia.
      rewrite Z.mod_small in Hlt; lia.
  - destruct (Z.le_gt_cases 0 z).
    + rewrite Z.mod_small in Hge; lia.
    + rewrite <- (Z.mod_add z 1) by lia. rewrite Z.mod_small; lia.
Qed.

Lemma signed_range bits z :
  0 < bits → - 2 ^ (bits - 1) ≤ signed bits z < 2 ^ (bits - 1).
Proof.
  intros Hb. unfold signed. cbn zeta.
  assert (Hp : 2 ^ bits = 2 * 2 ^ (bits - 1)).
  { replace bits with (1 + (bits - 1)) at 1 by lia. rewrite Z.pow_add_r by lia. reflexivity. }
  pose proof (wrap_range bits z ltac:(lia)).
  destruct (Z.ltb_spec (wrap bits z) (2 ^ (bits - 1))); lia.
Qed.

Lemma int_small z : - 2 ^ 63 ≤ z < 2 ^ 63 → int z = z.
Proof. intros. apply signed_small; [lia|]. cbn. lia. Qed.

(** ** Reading from a buffer that holds enough *)

Lemma ReadFull_app (a b : list byte) :
  ReadFull (length a) (a ++ b) = (Some a, None, b).
Proof.
  unfold ReadFull. rewrite length_app.
  destruct (Nat.leb_spec (length a) (length a + length b)) as [_ | Hlt]; [|lia].
  rewrite take_app_length, drop_app_length. reflexivity.
Qed.

Lemma binary_Read_app {A} n (dec : list byte → A) old (a b : list byte) :
  length a = n → binary_Read n dec old (a ++ b) = (dec a, None, b).
Proof. intros <-. unfold binary_Read. rewrite ReadFull_app. reflexivity. Qed.

Lemma read_header_app (header rest : list byte) :
  length header = 19%nat → read_header (header ++ rest) = (decode_header header, None, rest).
Proof. intros Hl. unfold read_header. apply binary_Read_app, Hl. Qed.

Lemma event_bytes_app parser (body crc : list byte) :
  length crc = (if binlog_checksum parser then 4 else 0)%nat →
  event_bytes parser (body ++ crc) = Done body.
Proof.
  unfold event_bytes, Len. destruct (binlog_checksum parser); intros Hc.
  - rewrite length_app, Hc.
    destruct (Z.ltb_spec (Z.of_nat (length body + 4) - 4) 0); [lia|].
    replace (Z.to_nat (Z.of_nat (length body + 4) - 4)) with (length body) by lia.
    rewrite take_app_length. reflexivity.
  - destruct crc; [|discriminate]. rewrite app_nil_r. reflexivity.
Qed.

Lemma uint32_uint64 z : uint32 (uint64 z) = z mod 2 ^ 32.
Proof.
  unfold uint32, uint64, wrap.
  apply Z.mod_mod_divide. exists (2 ^ 32). reflexivity.
Qed.

(** ** The row loop never runs out of fuel

    The decoders only consume: no pass of the column loop hands back a
    longer buffer, and a row image of a table with columns takes at least
    its null bitmap. *)

Lemma Next_length n buf d buf' :
  Next n buf = Done (d, buf') → (length buf' ≤ length buf)%nat.
Proof.
  unfold Next. destruct (n <? 0); [discriminate|]. intros Hn. inversion Hn; subst.
  rewrite length_drop. lia.
Qed.

Lemma ReadByte_length buf b e buf' :
  ReadByte buf = (b, e, buf') → (length buf' ≤ length buf)%nat.
Proof. destruct buf; intros Hr; inversion Hr; subst; cbn; lia. Qed.

Lemma ReadFull_length n buf r e buf' :
  ReadFull n buf = (r, e, buf') → (length buf' ≤ length buf)%nat.
Proof.
  unfold ReadFull. destruct (n <=? length buf)%nat.
  - intros Hr. inversion Hr; subst. rewrite length_drop. lia.
  - destruct buf; intros Hr; inversion Hr; subst; cbn; lia.
Qed.

Lemma binary_Read_length {A} n (dec : list byte → A) old buf v e buf' :
  binary_Read n dec old buf = (v, e, buf') → (length buf' ≤ length buf)%nat.
Proof.
  unfold binary_Read. destruct (ReadFull n buf) as [[r e0] b0] eqn:Hr.
  apply ReadFull_length in Hr. destruct r; intros Hb; inversion Hb; subst; exact Hr.
Qed.

Lemma readFixedLengthInteger_length n buf v e buf' :
  readFixedLengthInteger n buf = (v, e, buf') → (length buf' ≤ length buf)%nat.
Proof. apply binary_Read_length. Qed.

(** Every fact about a buffer that was read from another one. *)
Ltac buffer_lengths :=
  repeat match goal with
    | Hr : Next _ _ = Done (_, _) |- _ => apply Next_length in Hr
    | Hr : ReadByte _ = (_, _, _) |- _ => apply ReadByte_length in Hr
    | Hr : binary_Read _ _ _ _ = (_, _, _) |- _ => apply binary_Read_length in Hr
    | Hr : readFixedLengthInteger _ _ = (_, _, _) |- _ =>
        apply readFixedLengthInteger_length in Hr
    end.

Lemma bit_bytes_length meta n : ∀ k resp e buf resp' e' buf',
  bit_bytes meta n k resp e buf = (resp', e', buf') → (length buf' ≤ length buf)%nat.
Proof.
  induction n as [|n IH]; intros k resp e buf resp' e' buf' Hb; cbn [bit_bytes] in Hb.
  - inversion Hb; subst. lia.
  - destruct (ReadByte buf) as [[b e0] buf0] eqn:Hr. apply IH in Hb.
    buffer_lengths. lia.
Qed.

Lemma decimal_groups_length `{Externals} n : paket_consumes → ∀ mask res pk res' pk',
  decimal_groups n mask res pk = (res', pk') →
  (length (pk_buf pk') ≤ length (pk_buf pk))%nat.
Proof.
  intros (_ & _ & Hread).
  induction n as [|n IH]; intros mask res pk res' pk' Hd; cbn [decimal_groups] in Hd.
  - inversion Hd; subst. lia.
  - pose proof (Hread 4 pk) as Hr. destruct (paket_read 4 pk) as [d pk0].
    apply IH in Hd. cbn in Hr. lia.
Qed.

Lemma decode_newdecimal_length `{Externals} meta buf res buf' :
  paket_consumes →
  decode_newdecimal meta buf = Done (res, buf') → (length buf' ≤ length buf)%nat.
Proof.
  intros Hc. pose proof Hc as (HreadByte & Hunread & Hread).
  unfold decode_newdecimal, mbind, outcome_bind, Go.bind.
  destruct (compressed_bytes_at _) as [size1 | |]; try discriminate.
  pose proof (HreadByte (mk_paket buf [])) as H1.
  destruct (paket_readByte (mk_paket buf [])) as [b pk1]. cbn in H1.
  destruct (if negb _ then _ else _) as [res0 mask].
  pose proof (Hunread [byte_of_Z (Z.lxor (uint8 b) 128)] pk1) as H2.
  set (pk2 := paket_unread _ pk1) in *.
  assert (H3 : ∃ r pk3, (if 0 <? size1
                         then let '(d, bufPaket) := paket_read size1 pk2 in
                              let '(v1, _, _) :=
                                binary_Read 4 (λ bs, int32 (be_uint bs)) 0 d in
                              (res0 +:+ Itoa (Z.lxor (int v1) mask), bufPaket)
                         else (res0, pk2)) = (r, pk3)
                        ∧ (length (pk_buf pk3) ≤ length (pk_buf pk2))%nat).
  { destruct (0 <? size1).
    - pose proof (Hread size1 pk2) as Hr. destruct (paket_read size1 pk2) as [d pk3].
      destruct (binary_Read _ _ _ d) as [[v1 ?] ?]. eexists _, _. split; [reflexivity|exact Hr].
    - eexists _, _. split; [reflexivity|lia]. }
  destruct H3 as (r3 & pk3 & -> & H3).
  destruct (decimal_groups _ mask r3 pk3) as [r4 pk4] eqn:H4.
  apply (decimal_groups_length _ Hc) in H4.
  destruct (decimal_groups _ mask (r4 +:+ ".") pk4) as [r5 pk5] eqn:H5.
  apply (decimal_groups_length _ Hc) in H5.
  destruct (compressed_bytes_at _) as [size2 | |]; try discriminate.
  destruct (0 <? size2).
  - pose proof (Hread size2 pk5) as Hr. destruct (paket_read size2 pk5) as [d pk6].
    intros Hd. inversion Hd; subst. cbn in Hr. lia.
  - intros Hd. inversion Hd; subst. lia.
Qed.

Lemma decode_column_length `{Externals} tm i meta sch row buf row' e buf' :
  paket_consumes →
  decode_column tm i meta sch row buf = Done (Continue row' e buf') →
  (length buf' ≤ length buf)%nat.
Proof.
  intros Hc. unfold decode_column, mbind, outcome_bind, Go.bind.
  destruct (column_type meta); intros Hd;
    try (unfold decode_date, decode_time, decode_time2, decode_datetime,
           read_datetime2, decode_set, decode_enum, read_enum_index,
           mbind, outcome_bind, Go.bind in Hd;
         repeat case_match; simplify_eq; buffer_lengths; lia).
  - destruct (bit_bytes _ _ _ _ _ _) as [[resp e0] buf0] eqn:Hb.
    apply bit_bytes_length in Hb. inversion Hd; subst. exact Hb.
  - destruct (decode_newdecimal meta buf) as [[res buf0] | |] eqn:Hn; try discriminate.
    apply (decode_newdecimal_length _ _ _ _ Hc) in Hn. inversion Hd; subst. exact Hn.
Qed.

Lemma columns_length `{Externals} tm schema nb n : paket_consumes →
  ∀ i row buf row' buf',
    parseEventRow_columns tm schema nb n i row buf = Done (Some row', None, buf') →
    (length buf' ≤ length buf)%nat.
Proof.
  intros Hc. induction n as [|n IH]; intros i row buf row' buf' Hp;
    cbn [parseEventRow_columns] in Hp.
  - inversion Hp; subst. lia.
  - unfold mbind, outcome_bind, Go.bind in Hp.
    destruct (Rows.index schema i) as [sch | |]; try discriminate.
    destruct (isSet nb i) as [[|] | |]; try discriminate.
    + apply IH in Hp. exact Hp.
    + destruct (Rows.index (columnMetaData tm) i) as [meta | |]; try discriminate.
      destruct (decode_column tm i meta sch row buf) as [[row1 [e|] buf1 | e] | |] eqn:Hd;
        try discriminate.
      apply (decode_column_length _ _ _ _ _ _ _ _ _ Hc) in Hd. apply IH in Hp. lia.
Qed.

(** No decoder loops: a row image never diverges. *)
Lemma index_not_Diverge {A} (l : list A) i : Rows.index l i ≠ Diverge.
Proof. unfold Rows.index. repeat case_match; discriminate. Qed.

Lemma decode_column_not_Diverge `{Externals} tm i meta sch row buf :
  decode_column tm i meta sch row buf ≠ Diverge.
Proof.
  unfold decode_column, decode_newdecimal, compressed_bytes_at, decode_date,
    decode_time, three_bytes, decode_set, decode_enum, read_enum_index, Rows.index,
    Next, mbind, outcome_bind, Go.bind.
  repeat case_match; discriminate.
Qed.

Lemma parseEventRow_not_Diverge `{Externals} buf tm schema :
  parseEventRow buf tm schema ≠ Diverge.
Proof.
  unfold parseEventRow. destruct tm as [tm|]; [|discriminate].
  unfold mbind, outcome_bind, Go.bind, Next. destruct (_ <? 0); [discriminate|].
  generalize (∅ : gmap string Value), 0, (drop (Z.to_nat ((Z.of_nat (length (columnTypes tm)) + 7) / 8)) buf).
  induction (Z.to_nat (Z.of_nat (length (columnTypes tm)))) as [|n IH]; intros row i b;
    cbn [parseEventRow_columns]; [discriminate|].
  unfold mbind, outcome_bind, Go.bind.
  pose proof (index_not_Diverge schema i).
  destruct (Rows.index schema i) as [sch | |]; [|discriminate|contradiction].
  unfold isSet. destruct (_ !! _); [|discriminate].
  destruct (negb _); [apply IH|].
  pose proof (index_not_Diverge (columnMetaData tm) i).
  destruct (Rows.index (columnMetaData tm) i) as [meta | |]; [|discriminate|contradiction].
  pose proof (decode_column_not_Diverge tm i meta sch row b).
  destruct (decode_column tm i meta sch row b) as [[row1 [e|] buf1 | e] | |];
    [discriminate | apply IH | discriminate | discriminate | contradiction].
Qed.

(** The column loop returns a row or an error. *)
Lemma columns_row_or_error `{Externals} tm schema nb n : ∀ i row buf buf',
  parseEventRow_columns tm schema nb n i row buf = Done (None, None, buf') → False.
Proof.
  induction n as [|n IH]; intros i row buf buf' Hp; cbn [parseEventRow_columns] in Hp;
    [discriminate|].
  unfold mbind, outcome_bind, Go.bind in Hp.
  destruct (Rows.index schema i) as [sch | |]; try discriminate.
  destruct (isSet nb i) as [[|] | |]; try discriminate.
  - apply IH in Hp. exact Hp.
  - destruct (Rows.index (columnMetaData tm) i) as [meta | |]; try discriminate.
    destruct (decode_column tm i meta sch row buf) as [[row1 [e|] buf1 | e] | |];
      try discriminate.
    apply IH in Hp. exact Hp.
Qed.

(** A row image of a table with at least one column takes at least one
    byte of a buffer that is not empty. *)
Lemma parseEventRow_progress `{Externals} tm schema buf row buf' :
  paket_consumes → columnTypes tm ≠ [] → buf ≠ [] →
  parseEventRow buf (Some tm) schema = Done (Some row, None, buf') →
  (length buf' < length buf)%nat.
Proof.
  intros Hc Hcols Hbuf. unfold parseEventRow, mbind, outcome_bind, Go.bind, Next.
  destruct (columnTypes tm) as [|t ts]; [contradiction|].
  destruct buf as [|b buf]; [contradiction|].
  assert (Hsize : 1 ≤ (Z.of_nat (length (t :: ts)) + 7) / 8).
  { apply Z.div_le_lower_bound; cbn [length]; lia. }
  destruct (Z.ltb_spec ((Z.of_nat (length (t :: ts)) + 7) / 8) 0); [lia|].
  intros Hp. apply (columns_length _ _ _ _ Hc) in Hp.
  rewrite length_drop in Hp. cbn [length] in *. lia.
Qed.

(** With the buffer's length as fuel, the row loop of parseRowsEvent ends
    by itself whenever the cached table map has columns. *)
Lemma rows_loop_has_fuel `{Externals} schema : paket_consumes →
  ∀ fuel event err buf,
    (∀ tm, re_tableMap event = Some tm → columnTypes tm ≠ []) →
    (length buf ≤ fuel)%nat →
    parseRowsEvent_rows fuel schema event err buf ≠ Diverge.
Proof.
  intros Hc. induction fuel as [|fuel IH]; intros event err buf Hcols Hfuel;
    cbn [parseRowsEvent_rows].
  - destruct buf; [discriminate | cbn in Hfuel; lia].
  - destruct (Z.ltb_spec 0 (Len buf)) as [Hlen | _]; [|discriminate].
    destruct (re_tableMap event) as [tm|] eqn:Htm; [|discriminate].
    pose proof (parseEventRow_not_Diverge buf (Some tm) schema) as Hnd.
    destruct (parseEventRow buf (Some tm) schema) as [[[row e] buf'] | |] eqn:Hrow;
      cbn; [|discriminate|contradiction].
    destruct e as [e|]; [discriminate|].
    destruct row as [row|].
    + apply IH; [cbn; rewrite Htm; exact Hcols|].
      assert (Hne : buf ≠ []) by (intros ->; unfold Len in Hlen; cbn in Hlen; lia).
      pose proof (parseEventRow_progress tm schema buf row buf' Hc
                    (Hcols tm eq_refl) Hne Hrow).
      lia.
    + exfalso. unfold parseEventRow, mbind, outcome_bind, Go.bind in Hrow.
      destruct (Next _ buf) as [[nb buf0] | |]; try discriminate.
      apply columns_row_or_error in Hrow. exact Hrow.
Qed.

(** parseRowsEvent returns or panics, and never runs for ever, when every
    cached table map has columns. *)
Lemma parseRowsEvent_ends `{Externals} parser buf :
  paket_consumes →
  (∀ tableId tm, tableMap parser !! tableId = Some tm → columnTypes tm ≠ []) →
  parseRowsEvent parser buf ≠ Diverge.
Proof.
  intros Hc Hcols. unfold parseRowsEvent.
  destruct (parseRowsEvent_head parser buf) as [[[event err] rest] | |] eqn:Hhead;
    cbn; [|discriminate|].
  - apply rows_loop_has_fuel; [exact Hc | | lia].
    intros tm Htm. apply (Hcols (re_tableId event)).
    unfold parseRowsEvent_head, mbind, outcome_bind, Go.bind in Hhead.
    repeat case_match; simplify_eq; exact Htm.
  - exfalso. unfold parseRowsEvent_head, headerSize_of, Next, mbind, outcome_bind, Go.bind in Hhead.
    repeat case_match; simplify_eq;
      eapply (index_not_Diverge (A := byte)); eassumption.
Qed.

(** The reference [paket] only consumes. *)
Lemma reference_paket_consumes : paket_consumes (H := Reference.externals).
Proof.
  unfold paket_consumes. cbn. unfold Reference.readByte, Reference.unread, Reference.read.
  repeat split; intros; cbn; rewrite ?length_drop; lia.
Qed.

(** ** Little-endian encodings *)

Lemma byte_to_Z_of_Z z : byte_to_Z (byte_of_Z z) = z mod 256.
Proof.
  unfold byte_of_Z, byte_to_Z, uint8, wrap. change (2 ^ 8) with 256.
  pose proof (Z.mod_pos_bound z 256 ltac:(lia)) as Hz.
  destruct (Byte.of_N (Z.to_N (z mod 256))) as [b|] eqn:Hb.
  - apply Byte.to_of_N in Hb. rewrite Hb. lia.
  - apply Byte.of_N_None_iff in Hb. lia.
Qed.

Lemma length_le_bytes n z : length (le_bytes n z) = n.
Proof. revert z. induction n; intros z; cbn; [reflexivity|]. rewrite IHn. reflexivity. Qed.

Lemma le_uint_le_bytes n z : le_uint (le_bytes n z) = z mod 2 ^ (8 * Z.of_nat n).
Proof.
  revert z. induction n as [|n IH]; intros z.
  - cbn. rewrite Z.mod_1_r. reflexivity.
  - cbn [le_bytes le_uint]. rewrite byte_to_Z_of_Z, IH.
    replace (8 * Z.of_nat (S n)) with (8 + 8 * Z.of_nat n) by lia.
    rewrite Z.pow_add_r by lia. change (2 ^ 8) with 256.
    rewrite Z.rem_mul_r by (try apply Z.pow_nonzero; lia). reflexivity.
Qed.

Lemma signed_wrap bits z : 0 < bits → signed bits (wrap bits z) = signed bits z.
Proof.
  intros Hb. unfold signed, wrap. cbn zeta.
  rewrite Z.mod_mod by (apply Z.pow_nonzero; lia). reflexivity.
Qed.

Lemma decode_fits_unsigned w v :
  0 ≤ v < 2 ^ (8 * Z.of_nat w) → wrap (8 * Z.of_nat w) (le_uint (le_bytes w v)) = v.
Proof.
  intros Hv. rewrite le_uint_le_bytes. unfold wrap.
  rewrite Z.mod_mod by (apply Z.pow_nonzero; lia). apply Z.mod_small, Hv.
Qed.

Lemma decode_fits_signed w v :
  (0 < w)%nat →
  - 2 ^ (8 * Z.of_nat w - 1) ≤ v < 2 ^ (8 * Z.of_nat w - 1) →
  signed (8 * Z.of_nat w) (le_uint (le_bytes w v)) = v.
Proof.
  intros Hw Hv. rewrite le_uint_le_bytes.
  change (v mod 2 ^ (8 * Z.of_nat w)) with (wrap (8 * Z.of_nat w) v).
  rewrite signed_wrap by lia. apply signed_small; [lia | exact Hv].
Qed.

Lemma Next_app (a b : list byte) : Next (Z.of_nat (length a)) (a ++ b) = Done (a, b).
Proof.
  unfold Next. destruct (Z.ltb_spec (Z.of_nat (length a)) 0); [lia|].
  rewrite Nat2Z.id, take_app_length, drop_app_length. reflexivity.
Qed.

Lemma Next_short n (a : list byte) :
  Z.of_nat (length a) ≤ n → Next n a = Done (a, []).
Proof.
  intros Hn. unfold Next. destruct (Z.ltb_spec n 0); [lia|].
  rewrite take_ge, drop_ge by lia. reflexivity.
Qed.

(** ** What the column loop stores *)

Lemma decode_column_other_keys `{Externals} tm i meta sch row buf row' e buf' k :
  decode_column tm i meta sch row buf = Done (Continue row' e buf') →
  k ≠ COLUMN_NAME sch → row' !! k = row !! k.
Proof.
  unfold decode_column, decode_set, mbind, outcome_bind, Go.bind.
  destruct (column_type meta); intros Hd Hk;
    (repeat case_match; simplify_eq; rewrite ?lookup_insert_ne by congruence; reflexivity).
Qed.

Lemma columns_other_keys `{Externals} tm schema nb k n : ∀ i row buf row' e rest,
  parseEventRow_columns tm schema nb n i row buf = Done (Some row', e, rest) →
  (∀ j later, i ≤ j → Rows.index schema j = Done later → COLUMN_NAME later ≠ k) →
  row' !! k = row !! k.
Proof.
  induction n as [|n IH]; intros i row buf row' e rest Hp Hk;
    cbn [parseEventRow_columns] in Hp.
  - inversion Hp; subst. reflexivity.
  - unfold mbind, outcome_bind, Go.bind in Hp.
    destruct (Rows.index schema i) as [sch | |] eqn:Hs; try discriminate.
    pose proof (Hk i sch ltac:(lia) Hs) as Hne.
    assert (Hlater : ∀ j later, i + 1 ≤ j → Rows.index schema j = Done later →
                                COLUMN_NAME later ≠ k).
    { intros j later Hj. apply Hk. lia. }
    destruct (isSet nb i) as [[|] | |]; try discriminate.
    + rewrite (IH _ _ _ _ _ _ Hp Hlater). apply lookup_insert_ne. congruence.
    + destruct (Rows.index (columnMetaData tm) i) as [meta | |]; try discriminate.
      destruct (decode_column tm i meta sch row buf) as [[row1 [e1|] buf1 | e1] | |] eqn:Hd;
        try discriminate.
      rewrite (IH _ _ _ _ _ _ Hp Hlater).
      eapply decode_column_other_keys; [exact Hd | congruence].
Qed.

Lemma column_stores `{Externals} tm schema nb i sch meta row buf v rest :
  live_column tm schema nb i sch meta →
  decode_column tm i meta sch row buf
  = Done (Continue (<[COLUMN_NAME sch := v]> row) None rest) →
  column_stored tm schema nb i sch row buf v rest.
Proof.
  intros Hlive Hd.
  assert (Hstep : ∀ n, parseEventRow_columns tm schema nb (S n) i row buf =
                       parseEventRow_columns tm schema nb n (i + 1)
                         (<[COLUMN_NAME sch := v]> row) rest).
  { intros n. rewrite (columns_pass _ _ _ _ _ _ _ _ _ Hlive), Hd. reflexivity. }
  split; [exact Hstep|]. split; [rewrite Hstep; reflexivity|]. split.
  - intros n row' e rest' Hp Hlater. rewrite Hstep in Hp.
    rewrite (columns_other_keys _ _ _ (COLUMN_NAME sch) _ _ _ _ _ _ _ Hp).
    + apply lookup_insert_eq.
    + intros j later Hj. apply Hlater. lia.
  - intros -> -> Hone Hnb. unfold parseEventRow. rewrite Hone.
    change ((Z.of_nat 1 + 7) / 8) with (Z.of_nat 1). rewrite <- Hnb, Next_app.
    cbn [mbind outcome_bind Go.bind]. rewrite Hnb. change (Z.to_nat (Z.of_nat 1)) with 1%nat.
    rewrite Hstep. reflexivity.
Qed.

(** ** C1: TINY columns of type tinyint(1) *)

Lemma tinyint1_switch b :
  match int (byte_to_Z b) with
  | 1 => VBool true
  | 0 => VBool false
  | _ => VInt8 (int8 (byte_to_Z b))
  end = tinyint1_value b.
Proof. destruct b; reflexivity. Qed.

Lemma tinyint1_schema r sch :
  column_schema_of_row r = Done sch → r_COLUMN_TYPE r = "tinyint(1)" →
  is_bool sch = true ∧ unsigned sch = false.
Proof.
  unfold column_schema_of_row. intros Hr Ht. rewrite Ht in Hr. cbn in Hr.
  inversion Hr; subst. cbn. split; reflexivity.
Qed.

(** C1 (amended): for a non-null TINY column whose schema text is exactly
    "tinyint(1)", parseEventRow stores true for wire byte 1, false for wire
    byte 0, and the signed 8-bit integer for any other wire byte: the value
    is in the row that is returned, under the column's name, and the bytes
    after the column's byte are left for what follows. *)
Theorem tinyint1_column_value `{Externals} tm schema nb i r sch meta row b rest :
  live_column tm schema nb i sch meta →
  column_type meta = FIELD_TYPE_TINY →
  column_schema_of_row r = Done sch →
  r_COLUMN_TYPE r = "tinyint(1)" →
  column_stored tm schema nb i sch row
    (b :: rest)
    (tinyint1_value b)
    rest.
Proof.
  intros Hlive Hty Hr Ht.
  destruct (tinyint1_schema _ _ Hr Ht) as [Hb Hu].
  apply (column_stores _ _ _ _ _ meta); [exact Hlive|].
  unfold decode_column. rewrite Hty. cbn [ReadByte].
  rewrite Hb, Hu, tinyint1_switch. reflexivity.
Qed.

Lemma tinyint1_column_value_witness :
  column_stored (H := Reference.externals)
    (example_table_map [new_ColumnType FIELD_TYPE_TINY])
    [flag_schema] [x00] 0
    (flag_schema) ∅
    [x02]
    (VInt8 2)
    [].
Proof.
  apply (tinyint1_column_value (H := Reference.externals)
           (example_table_map [new_ColumnType FIELD_TYPE_TINY]) [flag_schema] [x00]
           0 flag_row flag_schema (new_ColumnType FIELD_TYPE_TINY) ∅ x02 []).
  - repeat split.
  - reflexivity.
  - reflexivity.
  - reflexivity.
Defined.

(** C1 as stated fails: wire byte 2 in a tinyint(1) column is stored as the
    8-bit integer 2, not as a boolean. *)
Lemma tinyint1_byte_2_is_not_boolean :
  column_schema_of_row flag_row = Done flag_schema ∧
  ∃ row,
    parseEventRow (H := Reference.externals) [x00; x02]
      (Some (example_table_map [new_ColumnType FIELD_TYPE_TINY])) [flag_schema]
    = Done (Some row, None, []) ∧
    row !! "flag" = Some (VInt8 2) ∧
    ∀ v : bool, row !! "flag" ≠ Some (VBool v).
Proof.
  split; [reflexivity|].
  eexists. split; [vm_compute; reflexivity|].
  split; [vm_compute; reflexivity|].
  intros v Hv. vm_compute in Hv. discriminate Hv.
Qed.

(** ** C2: rows events without a cached table map *)

Lemma parseRowsEvent_head_tableMap `{Externals} parser buf event err rest :
  parseRowsEvent_head parser buf = Done (event, err, rest) →
  re_tableMap event = tableMap parser !! re_tableId event.
Proof.
  unfold parseRowsEvent_head, mbind, outcome_bind, Go.bind. intros Hh.
  repeat case_match; simplify_eq; reflexivity.
Qed.

Lemma rows_loop_without_table_map `{Externals} schema event err rest :
  re_tableMap event = None →
  parseRowsEvent_rows (length rest) schema event err rest =
  match rest with
  | [] => Done (event, err)
  | _ => Panic NilDereference
  end.
Proof.
  intros Hnone. destruct rest as [|b rest]; [reflexivity|].
  cbn [length parseRowsEvent_rows].
  assert (Hlen : (0 <? Len (b :: rest)) = true).
  { unfold Len. apply Z.ltb_lt. cbn [length]. lia. }
  rewrite Hlen, Hnone. reflexivity.
Qed.

Lemma is_rows_event_cases t :
  is_rows_event t = true →
  t ∈ [WRITE_ROWS_EVENTv0; WRITE_ROWS_EVENTv1; WRITE_ROWS_EVENTv2;
       UPDATE_ROWS_EVENTv0; UPDATE_ROWS_EVENTv1; UPDATE_ROWS_EVENTv2;
       DELETE_ROWS_EVENTv0; DELETE_ROWS_EVENTv1; DELETE_ROWS_EVENTv2].
Proof.
  unfold is_rows_event. rewrite !orb_true_iff, !Z.eqb_eq.
  intros Ht. rewrite !elem_of_cons. tauto.
Qed.

Lemma parseEvent_rows `{Externals} parser data buf t :
  event_bytes parser data = Done buf →
  byte_at data 4 = Done t →
  is_rows_event t = true →
  parseEvent parser data =
  '(rowsEvent, err) ← parseRowsEvent parser buf;
  match tableMap parser !! re_tableId rowsEvent with
  | None => Panic NilDereference
  | Some tm =>
      Done (parser,
            Some {| Header := re_header rowsEvent; SchemaName := schemaName tm;
                    BinlogFileName := binlogFileName parser;
                    BinlogPosition := binlogPosition parser;
                    TableName := tableName tm; Query := "";
                    Rows := rows rowsEvent; Primary := primary rowsEvent |},
            binlogFileName parser, err)
  end.
Proof.
  intros Hbuf Ht Hrows. unfold parseEvent. rewrite Hbuf, Ht.
  cbn [mbind outcome_bind Go.bind]. rewrite Hrows.
  apply is_rows_event_cases in Hrows.
  rewrite !elem_of_cons in Hrows.
  destruct Hrows as [-> | [-> | [-> | [-> | [-> | [-> | [-> | [-> | [-> | Hnil]]]]]]]]];
    [reflexivity .. | inversion Hnil].
Qed.

(** C2 (what the code does): a rows event whose table id has no cached
    table map makes parseEvent panic on a nil pointer, in parseEventRow when
    the event has row bytes and in parseEvent itself when it has none; no
    error value is returned, and the dump loop ends with that panic without
    having sent anything on the result channel. *)
Theorem rows_event_without_table_map_panics `{Externals}
    parser data buf t event err rest input trace :
  event_bytes parser data = Done buf →
  byte_at data 4 = Done t →
  is_rows_event t = true →
  parseRowsEvent_head parser buf = Done (event, err, rest) →
  tableMap parser !! re_tableId event = None →
  parseEvent parser data = Panic NilDereference ∧
  (dumpBinLogStatus parser = 1 →
   DumpBinlog_loop parser (Packet (x00 :: data) :: input) trace
   = stop parser trace (Panicked NilDereference)).
Proof.
  intros Hbuf Ht Hrows Hhead Hnone.
  assert (Hpanic : parseEvent parser data = Panic NilDereference).
  { rewrite (parseEvent_rows _ _ _ _ Hbuf Ht Hrows).
    unfold parseRowsEvent. rewrite Hhead. cbn [mbind outcome_bind Go.bind].
    rewrite rows_loop_without_table_map
      by (rewrite (parseRowsEvent_head_tableMap _ _ _ _ _ Hhead); exact Hnone).
    destruct rest; [|reflexivity]. cbn. rewrite Hnone. reflexivity. }
  split; [exact Hpanic|].
  intros Hrun. cbn [DumpBinlog_loop]. rewrite Hrun.
  cbn -[parseEvent]. rewrite Hpanic. reflexivity.
Qed.

Lemma rows_event_without_table_map_panics_witness :
  parseEvent (H := Reference.externals) example_parser example_write_rows
  = Panic NilDereference ∧
  (dumpBinLogStatus example_parser = 1 →
   DumpBinlog_loop (H := Reference.externals) example_parser
     (Packet (x00 :: example_write_rows) :: []) []
   = stop example_parser [] (Panicked NilDereference)).
Proof.
  apply (rows_event_without_table_map_panics (H := Reference.externals)
           example_parser example_write_rows example_write_rows 23
           {| re_header := decode_header (example_header x17 x00 x02);
              re_tableId := 42; re_tableMap := None; re_flags := 0;
              columnsPresentBitmap1 := [xff]; columnsPresentBitmap2 := [];
              rows := []; primary := "" |}
           None [x00; x05] [] []);
    reflexivity.
Defined.

(** ** C3: NEWDECIMAL columns *)

(** With no digits before the point ([precision = decimals]) and a scale of
    whole groups ([decimals = 9 * k]), the decimal decoder reads the sign
    byte, pushes it back and emits the point alone: the loop after the point
    runs [integral / 9 = 0] times, not [decimals / 9 = k] times. *)
Lemma newdecimal_without_fraction_groups `{Externals} meta k buf :
  precision meta = decimals meta → decimals meta = 9 * k → 0 ≤ k ≤ 28 →
  ∃ rest, decode_newdecimal meta buf = Done (".", rest) ∨
          decode_newdecimal meta buf = Done ("-.", rest).
Proof.
  intros Hp Hd Hk. unfold decode_newdecimal. rewrite Hp, Hd.
  rewrite Z.sub_diag.
  rewrite (int_small 0) by (cbn; lia). rewrite (int_small (9 * k)) by (cbn; lia).
  change (Z.quot 0 9) with 0. rewrite (int_small 0) by (cbn; lia).
  rewrite (Z.mul_comm 9 k), Z.quot_mul by lia.
  rewrite (int_small k) by (cbn; lia).
  change (0 - 0 * 9) with 0. rewrite Z.sub_diag.
  cbn [compressed_bytes_at Z.ltb Z.compare Z.to_nat compressed_bytes lookup mbind
       outcome_bind Go.bind decimal_groups].
  destruct (paket_readByte _) as [b pk].
  destruct (negb _).
  - eexists. left. cbn. reflexivity.
  - eexists. right. cbn. reflexivity.
Qed.

(** C3 (what the code does): for a non-null NEWDECIMAL column of metadata
    (precision, decimals) = (9k, 9k), the column loop of parseEventRow
    stores "." or "-.": the text has none of the floor(decimals/9) = k
    nine-digit fractional groups, because the loop after the decimal point
    is bounded by the number of integral groups. *)
Theorem newdecimal_fraction_groups_are_missing `{Externals}
    tm schema nb n i sch meta row buf k :
  live_column tm schema nb i sch meta →
  column_type meta = FIELD_TYPE_NEWDECIMAL →
  precision meta = decimals meta → decimals meta = 9 * k → 1 ≤ k ≤ 28 →
  ∃ text rest,
    (text = "." ∨ text = "-.") ∧
    parseEventRow_columns tm schema nb (S n) i row buf =
    parseEventRow_columns tm schema nb n (i + 1)
      (<[COLUMN_NAME sch := VString text]> row) rest.
Proof.
  intros Hlive Hty Hp Hd Hk.
  rewrite (columns_pass _ _ _ _ _ _ _ _ _ Hlive).
  unfold decode_column. rewrite Hty.
  destruct (newdecimal_without_fraction_groups meta k buf Hp Hd ltac:(lia))
    as (rest & [-> | ->]).
  - exists ".", rest. split; [left|]; reflexivity.
  - exists "-.", rest. split; [right|]; reflexivity.
Qed.

Lemma newdecimal_fraction_groups_are_missing_witness :
  ∃ text rest,
    (text = "." ∨ text = "-.") ∧
    parseEventRow_columns (H := Reference.externals)
      (example_table_map [decimal_column 9 9])
      [plain_schema "price" "" "decimal(9,9)"] [x00] 1 0 ∅ [x87; x5b; xcd; x15] =
    parseEventRow_columns (H := Reference.externals)
      (example_table_map [decimal_column 9 9])
      [plain_schema "price" "" "decimal(9,9)"] [x00] 0 1
      (<["price" := VString text]> ∅) rest.
Proof.
  apply (newdecimal_fraction_groups_are_missing (H := Reference.externals)
           (example_table_map [decimal_column 9 9])
           [plain_schema "price" "" "decimal(9,9)"] [x00] 0 0
           (plain_schema "price" "" "decimal(9,9)") (decimal_column 9 9)
           ∅ [x87; x5b; xcd; x15] 1).
  - repeat split.
  - reflexivity.
  - reflexivity.
  - reflexivity.
  - lia.
Defined.

(** The DECIMAL(9,9) value 0.123456789, wire bytes 87 5B CD 15, decodes to
    "." and leaves three of its four bytes in the buffer. *)
Lemma newdecimal_9_9_decodes_to_point :
  ∃ row,
    parseEventRow (H := Reference.externals) [x00; x87; x5b; xcd; x15]
      (Some (example_table_map [decimal_column 9 9]))
      [plain_schema "price" "" "decimal(9,9)"]
    = Done (Some row, None, [x5b; xcd; x15]) ∧
    row !! "price" = Some (VString ".").
Proof. eexists. split; vm_compute; reflexivity. Qed.

(** ** C4: signed INT24 columns *)

(** The sum that the signed INT24 case computes in [int8] is its first
    operand: both shifted operands are zero. *)
Lemma int24_sum_is_first_byte a b c :
  int32 (int8 (int8 (int8 a + int8 (Z.shiftl b 8)) + int8 (Z.shiftl c 16))) = int8 a.
Proof.
  rewrite !int8_shiftl_out by lia. rewrite !Z.add_0_r.
  unfold int8. rewrite !signed_idem by lia.
  unfold int32. apply signed_small; [lia|].
  pose proof (signed_range 8 a ltac:(lia)). cbn in *. lia.
Qed.

(** C4 (what the code does): for a non-null signed INT24 column with wire
    bytes a, b, c, the column loop of parseEventRow stores the first byte a
    alone, read as a signed 8-bit integer; b and c are shifted out of the
    8-bit operands and do not reach the result. *)
Theorem signed_int24_keeps_first_byte_only `{Externals}
    tm schema nb n i sch meta row a b c rest :
  live_column tm schema nb i sch meta →
  column_type meta = FIELD_TYPE_INT24 →
  unsigned sch = false →
  parseEventRow_columns tm schema nb (S n) i row (a :: b :: c :: rest) =
  parseEventRow_columns tm schema nb n (i + 1)
    (<[COLUMN_NAME sch := VInt32 (int8 (byte_to_Z a))]> row) rest.
Proof.
  intros Hlive Hty Hu.
  rewrite (columns_pass _ _ _ _ _ _ _ _ _ Hlive).
  unfold decode_column. rewrite Hty, Hu.
  cbn [binary_Read ReadFull length Nat.leb take drop le_uint].
  rewrite !Z.mul_0_r, !Z.add_0_r, int24_sum_is_first_byte.
  reflexivity.
Qed.

Lemma signed_int24_keeps_first_byte_only_witness :
  parseEventRow_columns (H := Reference.externals)
    (example_table_map [new_ColumnType FIELD_TYPE_INT24])
    [plain_schema "n" "" "mediumint(9)"] [x00] 1 0 ∅ [x00; x01; x00] =
  parseEventRow_columns (H := Reference.externals)
    (example_table_map [new_ColumnType FIELD_TYPE_INT24])
    [plain_schema "n" "" "mediumint(9)"] [x00] 0 1
    (<["n" := VInt32 (int8 (byte_to_Z x00))]> ∅) [].
Proof.
  apply (signed_int24_keeps_first_byte_only (H := Reference.externals)
           (example_table_map [new_ColumnType FIELD_TYPE_INT24])
           [plain_schema "n" "" "mediumint(9)"] [x00] 0 0
           (plain_schema "n" "" "mediumint(9)") (new_ColumnType FIELD_TYPE_INT24)
           ∅ x00 x01 x00 []).
  - repeat split.
  - reflexivity.
  - reflexivity.
Defined.

(** The wire bytes 00 01 00 are the 24-bit integer 256; the row holds 0. *)
Lemma signed_int24_of_256_is_0 :
  le_uint [x00; x01; x00] = 256 ∧
  ∃ row,
    parseEventRow (H := Reference.externals) [x00; x00; x01; x00]
      (Some (example_table_map [new_ColumnType FIELD_TYPE_INT24]))
      [plain_schema "n" "" "mediumint(9)"]
    = Done (Some row, None, []) ∧
    row !! "n" = Some (VInt32 0).
Proof.
  split; [reflexivity|].
  eexists. split; vm_compute; reflexivity.
Qed.

(** ** C5: SET columns stored in zero bytes *)

Lemma set_members_of_0 i vals result : set_members 0 i vals result = result.
Proof.
  revert i result. induction vals as [|val vals IH]; intros i result; [reflexivity|].
  cbn [set_members]. rewrite Z.land_0_l. cbn. apply IH.
Qed.

(** C5 (what the code does): for a non-null SET column whose metadata size
    is 0, the column loop of parseEventRow first stores null, leaves the
    switch, and then stores the empty list of member names over it. *)
Theorem set_of_size_0_is_empty_list `{Externals} tm schema nb n i sch meta row buf :
  live_column tm schema nb i sch meta →
  column_type meta = FIELD_TYPE_SET →
  size meta = 0 →
  parseEventRow_columns tm schema nb (S n) i row buf =
  parseEventRow_columns tm schema nb n (i + 1)
    (<[COLUMN_NAME sch := VStrings []]> row) buf.
Proof.
  intros Hlive Hty Hsz.
  rewrite (columns_pass _ _ _ _ _ _ _ _ _ Hlive).
  unfold decode_column. rewrite Hty. unfold decode_set. rewrite Hsz. cbn.
  rewrite set_members_of_0, elements_empty, insert_insert_eq. reflexivity.
Qed.

Lemma set_of_size_0_is_empty_list_witness :
  parseEventRow_columns (H := Reference.externals)
    (example_table_map [sized_column FIELD_TYPE_SET 0])
    [literal_schema "tags" "set('a','b')" [] ["a"; "b"]] [x00] 1 0 ∅ [] =
  parseEventRow_columns (H := Reference.externals)
    (example_table_map [sized_column FIELD_TYPE_SET 0])
    [literal_schema "tags" "set('a','b')" [] ["a"; "b"]] [x00] 0 1
    (<["tags" := VStrings []]> ∅) [].
Proof.
  apply (set_of_size_0_is_empty_list (H := Reference.externals)
           (example_table_map [sized_column FIELD_TYPE_SET 0])
           [literal_schema "tags" "set('a','b')" [] ["a"; "b"]] [x00] 0 0
           (literal_schema "tags" "set('a','b')" [] ["a"; "b"])
           (sized_column FIELD_TYPE_SET 0) ∅ []).
  - repeat split.
  - reflexivity.
  - reflexivity.
Defined.

(** A row image with a SET column of size 0 holds the empty list for it,
    not null. *)
Lemma set_of_size_0_row_is_not_null :
  ∃ row,
    parseEventRow (H := Reference.externals) [x00]
      (Some (example_table_map [sized_column FIELD_TYPE_SET 0]))
      [literal_schema "tags" "set('a','b')" [] ["a"; "b"]]
    = Done (Some row, None, []) ∧
    row !! "tags" = Some (VStrings []) ∧
    row !! "tags" ≠ Some VNil.
Proof.
  eexists. split; [vm_compute; reflexivity|].
  split; [vm_compute; reflexivity|].
  intros Hv. vm_compute in Hv. discriminate Hv.
Qed.

(** ** C6: ROTATE events *)

Lemma parseRotateEvent_app (header pos name : list byte) :
  length header = 19%nat → length pos = 8%nat →
  parseRotateEvent (header ++ pos ++ name) =
  ({| rot_header := decode_header header; position := uint64 (le_uint pos);
      filename := string_of_bytes name |}, None).
Proof.
  intros Hh Hp. unfold parseRotateEvent.
  rewrite (read_header_app _ _ Hh).
  rewrite (binary_Read_app 8 _ _ pos name Hp). reflexivity.
Qed.

(** C6 (amended): for every ROTATE event (a 19-byte header of type 4, the
    8-byte position, the file name, and the checksum when checksums are on)
    parseEvent succeeds, and afterwards the parser's current file is the
    event's file name, its position is the event's position reduced to 32
    bits, and the schema cache is empty; the table-map cache is what it was
    before the event. *)
Theorem rotate_moves_position_and_flushes_schemas `{Externals}
    parser (header pos name crc : list byte) :
  length header = 19%nat →
  header !! 4%nat = Some x04 →
  length pos = 8%nat →
  length crc = (if binlog_checksum parser then 4 else 0)%nat →
  ∃ parser' event err,
    parseEvent parser ((header ++ pos ++ name) ++ crc)
    = Done (parser', Some event, string_of_bytes name, err) ∧
    binlogFileName parser' = string_of_bytes name ∧
    binlogPosition parser' = le_uint pos mod 2 ^ 32 ∧
    tableSchemaMap parser' = ∅ ∧
    tableMap parser' = tableMap parser.
Proof.
  intros Hh H4 Hp Hc. unfold parseEvent.
  rewrite (event_bytes_app _ _ _ Hc).
  assert (Ht : byte_at ((header ++ pos ++ name) ++ crc) 4 = Done 4).
  { unfold byte_at, Rows.index. cbn.
    change (Z.to_nat 4) with 4%nat.
    rewrite <- !app_assoc, (lookup_app_l header) by lia. rewrite H4. reflexivity. }
  rewrite Ht. cbn [mbind outcome_bind Go.bind].
  change ((4 =? HEARTBEAT_EVENT) || (4 =? IGNORABLE_EVENT) || (4 =? GTID_EVENT)
          || (4 =? ANONYMOUS_GTID_EVENT) || (4 =? PREVIOUS_GTIDS_EVENT)) with false.
  change (4 =? FORMAT_DESCRIPTION_EVENT) with false.
  change (4 =? QUERY_EVENT) with false.
  change (4 =? ROTATE_EVENT) with true.
  cbv iota. rewrite (parseRotateEvent_app _ _ _ Hh Hp).
  eexists _, _, _. split; [reflexivity|].
  cbn. rewrite uint32_uint64. repeat split; reflexivity.
Qed.

Lemma rotate_moves_position_and_flushes_schemas_witness :
  ∃ parser' event err,
    parseEvent (H := Reference.externals) example_parser
      ((example_header x04 x00 x00 ++ [x04; x00; x00; x00; x01; x00; x00; x00]
          ++ text "mysql-bin.000008") ++ [])
    = Done (parser', Some event, string_of_bytes (text "mysql-bin.000008"), err) ∧
    binlogFileName parser' = string_of_bytes (text "mysql-bin.000008") ∧
    binlogPosition parser' = le_uint [x04; x00; x00; x00; x01; x00; x00; x00] mod 2 ^ 32 ∧
    tableSchemaMap parser' = ∅ ∧
    tableMap parser' = tableMap example_parser.
Proof.
  apply (rotate_moves_position_and_flushes_schemas (H := Reference.externals)
           example_parser (example_header x04 x00 x00)
           [x04; x00; x00; x00; x01; x00; x00; x00] (text "mysql-bin.000008") []);
    reflexivity.
Defined.

(** C6 as stated fails: after a ROTATE event whose position field holds
    2^32 + 4, the cached table map of table id 42 is still there, and the
    parser's position is 4. *)
Lemma rotate_keeps_table_maps :
  ∃ parser' event err,
    parseEvent (H := Reference.externals) example_parser_with_table example_rotate
    = Done (parser', Some event, "mysql-bin.000008", err) ∧
    tableMap parser' !! 42 = Some (example_table_map [new_ColumnType FIELD_TYPE_TINY]) ∧
    tableMap parser' ≠ ∅ ∧
    le_uint (take 8 (drop 19 example_rotate)) = 4294967300 ∧
    binlogPosition parser' = 4.
Proof.
  eexists _, _, _. split; [vm_compute; reflexivity|].
  split; [reflexivity|]. split; [|split; reflexivity].
  intros Hempty.
  assert (Hl : (∅ : gmap Z TableMapEvent) !! 42 = None) by apply lookup_empty.
  rewrite <- Hempty in Hl. vm_compute in Hl. discriminate Hl.
Qed.

(** ** C7: the keys of a decoded row *)

(** A non-null YEAR column whose byte is 0 adds no key to the row. *)
Lemma year_0_adds_no_key `{Externals} tm schema nb n i sch meta row rest :
  live_column tm schema nb i sch meta →
  column_type meta = FIELD_TYPE_YEAR →
  parseEventRow_columns tm schema nb (S n) i row (x00 :: rest) =
  parseEventRow_columns tm schema nb n (i + 1) row rest.
Proof.
  intros Hlive Hty.
  rewrite (columns_pass _ _ _ _ _ _ _ _ _ Hlive).
  unfold decode_column. rewrite Hty. reflexivity.
Qed.

(** C7 (what the code does): a row image of a table with the single column
    [sch] of type YEAR, not null and with byte 0, decodes to a row map
    without any key, while the schema names one column. *)
Theorem year_0_row_has_no_key `{Externals} (sch : column_schema_type) (rest : list byte) :
  ∃ row : gmap string Value,
    parseEventRow (x00 :: x00 :: rest)
      (Some (example_table_map [new_ColumnType FIELD_TYPE_YEAR])) [sch]
    = Done (Some row, None, rest) ∧
    dom row = ∅ ∧
    dom row ≠ list_to_set (COLUMN_NAME <$> [sch]).
Proof.
  exists ∅. split; [|split].
  - change (parseEventRow_columns (example_table_map [new_ColumnType FIELD_TYPE_YEAR])
              [sch] [x00] 1 0 ∅ (x00 :: rest) = Done (Some ∅, None, rest)).
    rewrite (year_0_adds_no_key _ [sch] [x00] 0 0 sch (new_ColumnType FIELD_TYPE_YEAR));
      [reflexivity | repeat split | reflexivity].
  - apply dom_empty_L.
  - rewrite dom_empty_L. cbn. set_solver.
Qed.

(** ** C8: the hard stop of the dump loop *)

Lemma GetTableSchema_max `{Externals} p tableId database table p' :
  GetTableSchema p tableId database table = Done p' →
  configured_max p' = configured_max p.
Proof.
  unfold GetTableSchema, GetTableSchemaByName. intros Hg.
  repeat case_match; simplify_eq; reflexivity.
Qed.

Lemma parseEvent_max `{Externals} p data p' event file err :
  parseEvent p data = Done (p', event, file, err) →
  configured_max p' = configured_max p.
Proof.
  unfold parseEvent, mbind, outcome_bind, Go.bind. intros Hp.
  repeat case_match; simplify_eq; try reflexivity;
    match goal with
    | Hg : GetTableSchema _ _ _ _ = Done _ |- _ => apply GetTableSchema_max in Hg; exact Hg
    end.
Qed.

Lemma refresh_on_query_max `{Externals} p event p' event' :
  refresh_on_query p event = Done (p', event') →
  configured_max p' = configured_max p.
Proof.
  unfold refresh_on_query, mbind, outcome_bind, Go.bind. intros Hr.
  repeat case_match; simplify_eq; try reflexivity;
    match goal with
    | Hg : GetTableSchema _ _ _ _ = Done _ |- _ => apply GetTableSchema_max in Hg; exact Hg
    end.
Qed.

Lemma dispatch_Deliver p event : dispatch p event = Done Deliver → ¬ at_max p event.
Proof.
  unfold dispatch, at_max, mbind, outcome_bind, Go.bind. intros Hd [Hf Hp].
  repeat case_match; simplify_eq.
  rewrite (bool_decide_eq_true_2 _ Hf) in *.
  match goal with
  | Hc : true && (_ <=? _) = false |- _ => cbn in Hc; apply Z.leb_gt in Hc; lia
  end.
Qed.

Lemma dispatch_Close p event :
  passes_filters p event → at_max p event → dispatch p event = Done Close.
Proof.
  unfold dispatch, at_max, passes_filters. intros [Hdb Hty] [Hf Hp].
  assert (Hfilter : (0 <? Z.of_nat (base.size (replicateDoDb p)))
                    && bool_decide (replicateDoDb p !! SchemaName event = None) = false).
  { destruct Hdb as [-> | [v Hv]]; [reflexivity|].
    rewrite Hv, andb_false_r. reflexivity. }
  rewrite Hfilter, Hty. cbn.
  rewrite (bool_decide_eq_true_2 _ Hf). cbn.
  destruct (Z.leb_spec (maxBinlogPosition p) (LogPos (Header event))); [reflexivity | lia].
Qed.

Lemma Delivered_in_sent (trace : list emitted) (e : error) event :
  Delivered event ∈ trace ++ [Sent e] → Delivered event ∈ trace.
Proof.
  rewrite elem_of_app, list_elem_of_singleton. intros [Hin | Heq]; [exact Hin | discriminate].
Qed.

(** The run stops here and hands out errors at most: what was delivered was
    delivered before. *)
Ltac delivered_before :=
  let Hin := fresh "Hin" in
  cbn; intros Hin; left; repeat apply Delivered_in_sent in Hin; exact Hin.

Lemma delivered_not_at_max `{Externals} input : ∀ parser trace event,
  Delivered event ∈ run_trace (DumpBinlog_loop parser input trace) →
  Delivered event ∈ trace ∨ ¬ at_max parser event.
Proof.
  induction input as [|r input IH]; intros parser trace event; cbn [DumpBinlog_loop].
  - repeat case_match; delivered_before.
  - destruct (negb (dumpBinLogStatus parser =? 1) && (dumpBinLogStatus parser =? 0));
      [delivered_before|].
    destruct (negb (dumpBinLogStatus parser =? 1) && (dumpBinLogStatus parser =? 2));
      [delivered_before|].
    destruct r as [pkt | e]; [|delivered_before].
    destruct pkt as [|pkt0 payload]; [delivered_before|].
    destruct (byte_to_Z pkt0 =? 254); [delivered_before|].
    destruct (byte_to_Z pkt0 =? 0).
    + destruct (parseEvent parser payload) as [[[[p1 ev1] f] e1] | |] eqn:Hparse;
        [|delivered_before ..].
      pose proof (parseEvent_max _ _ _ _ _ _ Hparse) as Hmax1.
      destruct ev1 as [ev1|]; destruct e1 as [e1|]; [delivered_before | | delivered_before | ].
      * destruct (refresh_on_query p1 ev1) as [[p2 ev2] | |] eqn:Hrefresh;
          [|delivered_before ..].
        pose proof (refresh_on_query_max _ _ _ _ Hrefresh) as Hmax2.
        assert (Hsame : ∀ ev, at_max parser ev ↔ at_max p2 ev).
        { intros ev. unfold at_max, configured_max in *. simplify_eq.
          split; intros [? ?]; split; congruence. }
        destruct (dispatch p2 ev2) as [[| |] | |] eqn:Hdispatch;
          [ | delivered_before | | delivered_before ..].
        -- intros Hin. apply IH in Hin. destruct Hin as [Hin | Hno]; [left; exact Hin|].
           right. rewrite Hsame. exact Hno.
        -- intros Hin. apply IH in Hin. destruct Hin as [Hin | Hno].
           ++ apply elem_of_app in Hin. destruct Hin as [Hin | Hin]; [left; exact Hin|].
              apply list_elem_of_singleton in Hin. inversion Hin; subst. right.
              rewrite Hsame. exact (dispatch_Deliver _ _ Hdispatch).
           ++ right. rewrite Hsame. exact Hno.
      * intros Hin. apply IH in Hin. destruct Hin as [Hin | Hno]; [left; exact Hin|].
        right. unfold at_max, configured_max in *. simplify_eq.
        intros [? ?]. apply Hno. split; congruence.
    + destruct (Strings.Contains _ _); [delivered_before|].
      intros Hin. apply IH in Hin. destruct Hin as [Hin | Hno]; [left|right; exact Hno].
      apply Delivered_in_sent in Hin. exact Hin.
Qed.

(** C8 (amended): in the dump loop, whenever a decoded, filter-passing
    event is at the configured maximum, that is, its file name equals the
    configured maximum file name and its log_pos is at or above the
    configured maximum position, the loop sets the command register to close
    (2) and exits without delivering that event; hence no event delivered to
    the callback is at the configured maximum: each has another file name or
    a log_pos strictly below the configured maximum position. *)
Theorem dump_loop_hard_stop `{Externals} (parser : eventParser) :
  (∀ payload input trace p1 ev1 file p2 ev2,
     dumpBinLogStatus parser = 1 →
     parseEvent parser payload = Done (p1, Some ev1, file, None) →
     refresh_on_query p1 ev1 = Done (p2, ev2) →
     passes_filters p2 ev2 →
     at_max parser ev2 →
     ∃ parser',
       DumpBinlog_loop parser (Packet (x00 :: payload) :: input) trace
       = stop parser' trace (Returned None) ∧
       dumpBinLogStatus parser' = 2) ∧
  (∀ written input event,
     Delivered event ∈ run_trace (DumpBinlog written parser input) →
     ¬ at_max parser event).
Proof.
  split.
  - intros payload input trace p1 ev1 file p2 ev2 Hrun Hparse Hrefresh Hpass Hmax.
    exists (set_dumpBinLogStatus 2 p2). split; [|reflexivity].
    assert (Hmax2 : at_max p2 ev2).
    { pose proof (parseEvent_max _ _ _ _ _ _ Hparse).
      pose proof (refresh_on_query_max _ _ _ _ Hrefresh).
      unfold at_max, configured_max in *. simplify_eq.
      destruct Hmax. split; congruence. }
    cbn [DumpBinlog_loop]. rewrite Hrun.
    cbn -[parseEvent refresh_on_query dispatch].
    rewrite Hparse, Hrefresh, (dispatch_Close _ _ Hpass Hmax2). reflexivity.
  - intros written input event. unfold DumpBinlog. destruct written as [e|].
    + cbn. rewrite list_elem_of_singleton. discriminate.
    + intros Hin. apply delivered_not_at_max in Hin.
      destruct Hin as [Hin | Hno]; [|exact Hno].
      apply elem_of_nil in Hin. contradiction.
Qed.

Lemma dump_loop_hard_stop_witness :
  ∃ parser',
    DumpBinlog_loop (H := Reference.externals) (example_parser_with_max "mysql-bin.000009")
      (Packet (x00 :: example_table_map_event_5000) :: []) []
    = stop parser' [] (Returned None) ∧
    dumpBinLogStatus parser' = 2.
Proof.
  destruct (dump_loop_hard_stop (H := Reference.externals)
              (example_parser_with_max "mysql-bin.000009")) as [Hstop _].
  eapply Hstop.
  - reflexivity.
  - vm_compute. reflexivity.
  - vm_compute. reflexivity.
  - split; [left; reflexivity | vm_compute; reflexivity].
  - split; [reflexivity | vm_compute; discriminate].
Defined.

(** C8 as stated fails: with the maximum at position 5000 of
    [mysql-bin.000009], an event of the later file [mysql-bin.000010] with
    log_pos 5000 is delivered, and the loop goes on. *)
Lemma event_of_a_later_file_is_delivered :
  ∃ event,
    run_trace (DumpBinlog (H := Reference.externals) None
                 (example_parser_with_max "mysql-bin.000010")
                 [Packet (x00 :: example_table_map_event_5000)])
    = [Delivered event] ∧
    BinlogFileName event = "mysql-bin.000010" ∧
    LogPos (Header event) = 5000 ∧
    configured_max (example_parser_with_max "mysql-bin.000010") = ("mysql-bin.000009", 5000) ∧
    String.compare "mysql-bin.000009" (BinlogFileName event) = Lt ∧
    run_exit (DumpBinlog (H := Reference.externals) None
                (example_parser_with_max "mysql-bin.000010")
                [Packet (x00 :: example_table_map_event_5000)]) = Blocked.
Proof.
  eexists. split; [vm_compute; reflexivity|].
  repeat split; vm_compute; reflexivity.
Qed.

(** ** C9: the primary field of a rows event *)

Lemma derived_is_primary w :
  derived w → COLUMN_KEY w = "PRI" → is_primary w = true.
Proof.
  intros [r Hr] Hk. unfold column_schema_of_row in Hr.
  destruct (_ <? _)%nat; [discriminate|].
  inversion Hr; subst; clear Hr. cbn in *. rewrite Hk. reflexivity.
Qed.

Lemma scan_primary_last schema p :
  Forall derived schema →
  scan_primary schema p = default p (last (PRI_columns schema)).
Proof.
  unfold PRI_columns. intros Hd. revert p.
  induction Hd as [|w schema Hw Hd IH]; intros p; [reflexivity|].
  cbn [scan_primary]. rewrite filter_cons.
  destruct (decide (COLUMN_KEY w = "PRI")) as [Hk | Hk].
  - rewrite (derived_is_primary w Hw Hk), (bool_decide_eq_true_2 _ Hk). cbn [andb].
    rewrite IH, fmap_cons, last_cons. destruct (last _); reflexivity.
  - rewrite (bool_decide_eq_false_2 _ Hk), andb_false_r. apply IH.
Qed.

Lemma rows_loop_tableId `{Externals} fuel schema event err buf event' err' :
  parseRowsEvent_rows fuel schema event err buf = Done (event', err') →
  re_tableId event' = re_tableId event.
Proof.
  revert event err buf.
  induction fuel as [|fuel IH]; intros event err buf Hrun; cbn [parseRowsEvent_rows] in Hrun.
  - destruct (0 <? Len buf); [discriminate|]. inversion Hrun; reflexivity.
  - destruct (0 <? Len buf); [|inversion Hrun; reflexivity].
    destruct (parseEventRow buf (re_tableMap event) schema) as [[[row e] buf'] | |];
      cbn in Hrun; try discriminate.
    destruct e; [inversion Hrun; reflexivity|].
    apply IH in Hrun. exact Hrun.
Qed.

Lemma rows_loop_primary `{Externals} fuel schema event err buf event' err' :
  Forall derived schema →
  parseRowsEvent_rows fuel schema event err buf = Done (event', err') →
  primary_settled schema event →
  primary_settled schema event'.
Proof.
  intros Hd. revert event err buf.
  induction fuel as [|fuel IH]; intros event err buf Hrun Hinv; cbn [parseRowsEvent_rows] in Hrun.
  - destruct (0 <? Len buf); [discriminate|]. inversion Hrun; subst. exact Hinv.
  - destruct (0 <? Len buf); [|inversion Hrun; subst; exact Hinv].
    destruct (parseEventRow buf (re_tableMap event) schema) as [[[row e] buf'] | |];
      cbn in Hrun; try discriminate.
    destruct e as [e|]; [inversion Hrun; subst; exact Hinv|].
    apply IH in Hrun; [exact Hrun|].
    right. split.
    + cbn. intros Hnil. apply app_eq_nil in Hnil. destruct Hnil; discriminate.
    + cbn. rewrite (scan_primary_last schema _ Hd).
      destruct Hinv as [[_ ->] | [_ ->]]; destruct (last _); reflexivity.
Qed.

Lemma parseRowsEvent_head_fresh `{Externals} parser buf event err rest :
  parseRowsEvent_head parser buf = Done (event, err, rest) →
  rows event = [] ∧ primary event = "".
Proof.
  unfold parseRowsEvent_head, mbind, outcome_bind, Go.bind. intros Hh.
  repeat case_match; simplify_eq; split; reflexivity.
Qed.

(** C9 (amended): for every rows event that parseRowsEvent returns, with
    the cached column schema of its table id, the primary field is the
    COLUMN_NAME of the last column with COLUMN_KEY == "PRI" in ordinal order
    as soon as one row image has been decoded, and it is empty as long as
    none has. *)
Theorem primary_is_last_PRI_column `{Externals} parser buf event err :
  parseRowsEvent parser buf = Done (event, err) →
  Forall derived (schema_of parser (re_tableId event)) →
  (rows event ≠ [] →
   ∀ column, last (PRI_columns (schema_of parser (re_tableId event))) = Some column →
             primary event = column) ∧
  (rows event = [] → primary event = "").
Proof.
  unfold parseRowsEvent. intros Hrun Hd.
  destruct (parseRowsEvent_head parser buf) as [[[event0 err0] rest] | |] eqn:Hhead;
    cbn in Hrun; try discriminate.
  destruct (parseRowsEvent_head_fresh _ _ _ _ _ Hhead) as [Hrows0 Hprim0].
  pose proof (rows_loop_tableId _ _ _ _ _ _ _ Hrun) as Hid.
  rewrite Hid in Hd |- *.
  assert (Hs : primary_settled (schema_of parser (re_tableId event0)) event).
  { apply (rows_loop_primary _ _ _ _ _ _ _ Hd Hrun). left. split; assumption. }
  split.
  - intros Hne column Hlast. destruct Hs as [[Hnil _] | [_ ->]]; [contradiction|].
    rewrite Hlast. reflexivity.
  - intros Hnil. destruct Hs as [[_ Hp] | [Hne _]]; [exact Hp | contradiction].
Qed.

Lemma example_schema_derived :
  Forall derived [plain_schema "id" "PRI" "int(11)"; plain_schema "sku" "PRI" "tinyint(4)"].
Proof.
  repeat constructor.
  - exists (mk_information_schema_row "id" "PRI" "int(11)" "" "" "" ""). reflexivity.
  - exists (mk_information_schema_row "sku" "PRI" "tinyint(4)" "" "" "" ""). reflexivity.
Defined.

Lemma primary_is_last_PRI_column_witness :
  ∃ event,
    parseRowsEvent (H := Reference.externals) example_parser_two_keys example_write_rows_2
    = Done (event, None) ∧
    (rows event ≠ [] →
     ∀ column, last (PRI_columns (schema_of example_parser_two_keys (re_tableId event)))
               = Some column → primary event = column) ∧
    (rows event = [] → primary event = "").
Proof.
  eexists. split; [vm_compute; reflexivity|].
  apply (primary_is_last_PRI_column (H := Reference.externals)
           example_parser_two_keys example_write_rows_2 _ None).
  - vm_compute. reflexivity.
  - exact example_schema_derived.
Defined.

(** C9 as stated fails: with the key columns [id] and [sku], in this order,
    the primary field of a rows event with one row image is "sku", not the
    first key column "id". *)
Lemma primary_is_not_first_PRI_column :
  ∃ event,
    parseRowsEvent (H := Reference.externals) example_parser_two_keys example_write_rows_2
    = Done (event, None) ∧
    PRI_columns (schema_of example_parser_two_keys (re_tableId event)) = ["id"; "sku"] ∧
    length (rows event) = 1%nat ∧
    primary event = "sku" ∧
    primary event ≠ "id".
Proof.
  eexists. split; [vm_compute; reflexivity|].
  repeat split; try reflexivity. discriminate.
Qed.

(** ** C10: ENUM columns *)

Lemma index_in_range {A} (l : list A) (i : Z) :
  0 ≤ i < Z.of_nat (length l) → ∃ x, l !! Z.to_nat i = Some x ∧ Rows.index l i = Done x.
Proof.
  intros Hi. destruct (lookup_lt_is_Some_2 l (Z.to_nat i)) as [x Hx]; [lia|].
  exists x. split; [exact Hx|]. unfold Rows.index.
  destruct (Z.ltb_spec i 0); [lia|]. rewrite Hx. reflexivity.
Qed.

Lemma index_out_of_range {A} (l : list A) (i : Z) :
  ¬ (0 ≤ i < Z.of_nat (length l)) → Rows.index l i = Panic IndexOutOfRange.
Proof.
  intros Hi. unfold Rows.index. destruct (Z.ltb_spec i 0); [reflexivity|].
  rewrite (lookup_ge_None_2 l (Z.to_nat i)) by lia. reflexivity.
Qed.

Lemma read_enum_index_le_bytes meta w idx rest :
  w = 1%nat ∨ w = 2%nat → size meta = Z.of_nat w →
  0 ≤ idx < 2 ^ (8 * Z.of_nat w) →
  read_enum_index meta (le_bytes w idx ++ rest) = Done (idx, rest).
Proof.
  intros Hw Hsize Hidx. unfold read_enum_index. rewrite Hsize.
  destruct Hw as [-> | ->].
  - change (Z.of_nat 1 =? 1) with true. cbn [le_bytes app ReadByte].
    change (2 ^ (8 * Z.of_nat 1)) with 256 in Hidx.
    rewrite byte_to_Z_of_Z, Z.mod_small by lia.
    rewrite int_small by (cbn; lia). reflexivity.
  - change (Z.of_nat 2 =? 1) with false. cbv iota.
    change (int (Z.of_nat 2)) with (Z.of_nat (length (le_bytes 2 idx))).
    rewrite Next_app. cbn [mbind outcome_bind Go.bind].
    unfold bytesToUint16. change uint16 with (wrap (8 * Z.of_nat 2)).
    rewrite decode_fits_unsigned by exact Hidx.
    change (2 ^ (8 * Z.of_nat 2)) with 65536 in Hidx.
    rewrite int_small by (cbn; lia). reflexivity.
Qed.

(** C10: for a non-null ENUM column whose index is written in the one or
    two bytes that the metadata size gives, little-endian, parseEventRow
    stores literal [idx - 1] (zero-based) of the column's literal list
    whenever 1 <= idx <= number of literals: the value is in the row that is
    returned, and the bytes after the index are left; in every other case,
    index 0 included, the column loop panics with an index out of range:
    there is no null and no error result, so the column decodes exactly
    under that precondition. *)
Theorem enum_decodes_iff_index_in_range `{Externals}
    tm schema nb i sch meta row w idx rest :
  live_column tm schema nb i sch meta →
  column_type meta = FIELD_TYPE_ENUM →
  w = 1%nat ∨ w = 2%nat → size meta = Z.of_nat w →
  0 ≤ idx < 2 ^ (8 * Z.of_nat w) →
  (1 ≤ idx ≤ Z.of_nat (length (enum_values sch)) →
   ∃ literal,
     enum_values sch !! Z.to_nat (idx - 1) = Some literal ∧
     column_stored tm schema nb i sch row (le_bytes w idx ++ rest)
       (VString literal) rest) ∧
  (¬ (1 ≤ idx ≤ Z.of_nat (length (enum_values sch))) →
   ∀ n, parseEventRow_columns tm schema nb (S n) i row (le_bytes w idx ++ rest)
        = Panic IndexOutOfRange) ∧
  (idx = 0 →
   ∀ n, parseEventRow_columns tm schema nb (S n) i row (le_bytes w idx ++ rest)
        = Panic IndexOutOfRange).
Proof.
  intros Hlive Hty Hw Hsize Hrange.
  pose proof (read_enum_index_le_bytes meta w idx rest Hw Hsize Hrange) as Hidx.
  assert (Hout : ¬ (1 ≤ idx ≤ Z.of_nat (length (enum_values sch))) →
                 ∀ n, parseEventRow_columns tm schema nb (S n) i row (le_bytes w idx ++ rest)
                      = Panic IndexOutOfRange).
  { intros Hno n. rewrite (columns_pass _ _ _ _ _ _ _ _ _ Hlive).
    unfold decode_column. rewrite Hty. unfold decode_enum. rewrite Hidx.
    cbn [mbind outcome_bind Go.bind]. rewrite index_out_of_range by lia. reflexivity. }
  split; [|split].
  - intros Hin. destruct (index_in_range (enum_values sch) (idx - 1)) as (lit & Hl & Hi); [lia|].
    exists lit. split; [exact Hl|].
    apply (column_stores _ _ _ _ _ meta); [exact Hlive|].
    unfold decode_column. rewrite Hty. unfold decode_enum. rewrite Hidx.
    cbn [mbind outcome_bind Go.bind]. rewrite Hi. reflexivity.
  - exact Hout.
  - intros ->. apply Hout. lia.
Qed.

Lemma enum_decodes_iff_index_in_range_witness :
  (1 ≤ 2 ≤ Z.of_nat (length (enum_values
      (literal_schema "colour" "enum('red','green','blue')" ["red"; "green"; "blue"] []))) →
   ∃ literal,
     enum_values
       (literal_schema "colour" "enum('red','green','blue')" ["red"; "green"; "blue"] [])
     !! Z.to_nat (2 - 1) = Some literal ∧
     column_stored (H := Reference.externals)
       (example_table_map [sized_column FIELD_TYPE_ENUM 1])
       [literal_schema "colour" "enum('red','green','blue')" ["red"; "green"; "blue"] []]
       [x00] 0
       (literal_schema "colour" "enum('red','green','blue')" ["red"; "green"; "blue"] [])
       ∅ (le_bytes 1 2 ++ []) (VString literal) []) ∧
  (¬ (1 ≤ 2 ≤ Z.of_nat (length (enum_values
      (literal_schema "colour" "enum('red','green','blue')" ["red"; "green"; "blue"] [])))) →
   ∀ n, parseEventRow_columns (H := Reference.externals)
          (example_table_map [sized_column FIELD_TYPE_ENUM 1])
          [literal_schema "colour" "enum('red','green','blue')" ["red"; "green"; "blue"] []]
          [x00] (S n) 0 ∅ (le_bytes 1 2 ++ []) = Panic IndexOutOfRange) ∧
  (2 = 0 →
   ∀ n, parseEventRow_columns (H := Reference.externals)
          (example_table_map [sized_column FIELD_TYPE_ENUM 1])
          [literal_schema "colour" "enum('red','green','blue')" ["red"; "green"; "blue"] []]
          [x00] (S n) 0 ∅ (le_bytes 1 2 ++ []) = Panic IndexOutOfRange).
Proof.
  apply (enum_decodes_iff_index_in_range (H := Reference.externals)
           (example_table_map [sized_column FIELD_TYPE_ENUM 1])
           [literal_schema "colour" "enum('red','green','blue')" ["red"; "green"; "blue"] []]
           [x00] 0
           (literal_schema "colour" "enum('red','green','blue')" ["red"; "green"; "blue"] [])
           (sized_column FIELD_TYPE_ENUM 1) ∅ 1%nat 2 []).
  - repeat split.
  - reflexivity.
  - left. reflexivity.
  - reflexivity.
  - cbn. lia.
Defined.

(** The empty enum value, wire index 0, ends the decoding of the row in a
    panic; index 2 of three literals decodes to the second. *)
Lemma enum_index_0_panics :
  parseEventRow (H := Reference.externals) [x00; x00]
    (Some (example_table_map [sized_column FIELD_TYPE_ENUM 1]))
    [literal_schema "colour" "enum('red','green','blue')" ["red"; "green"; "blue"] []]
  = Panic IndexOutOfRange.
Proof. vm_compute. reflexivity. Qed.

(** ** The keys of a decoded row *)

Lemma decode_column_dom `{Externals} tm i meta sch row buf row' e buf' :
  decode_column tm i meta sch row buf = Done (Continue row' e buf') →
  dom row ⊆ dom row' ∧ dom row' ⊆ {[COLUMN_NAME sch]} ∪ dom row ∧
  (column_type meta ≠ FIELD_TYPE_YEAR → dom row' = {[COLUMN_NAME sch]} ∪ dom row).
Proof.
  unfold decode_column, decode_set, mbind, outcome_bind, Go.bind.
  destruct (column_type meta); intros Hd;
    (repeat case_match; simplify_eq; rewrite ?dom_insert_L; set_solver).
Qed.

Lemma index_lookup {A} (l : list A) i x :
  Rows.index l i = Done x → 0 ≤ i ∧ l !! Z.to_nat i = Some x.
Proof.
  unfold Rows.index. destruct (Z.ltb_spec i 0); [discriminate|].
  destruct (l !! Z.to_nat i) eqn:Hl; [|discriminate]. intros Hx. inversion Hx; subst. auto.
Qed.

Lemma columns_dom `{Externals} tm schema nb n : ∀ i row buf row' e buf',
  0 ≤ i →
  parseEventRow_columns tm schema nb n i row buf = Done (Some row', e, buf') →
  dom row ⊆ dom row' ∧
  dom row' ⊆ dom row ∪ list_to_set (COLUMN_NAME <$> take n (drop (Z.to_nat i) schema)) ∧
  (Forall (λ m, column_type m ≠ FIELD_TYPE_YEAR) (columnMetaData tm) →
   dom row' = dom row ∪ list_to_set (COLUMN_NAME <$> take n (drop (Z.to_nat i) schema))).
Proof.
  induction n as [|n IH]; intros i row buf row' e buf' Hi Hp; cbn [parseEventRow_columns] in Hp.
  - inversion Hp; subst. rewrite take_0. cbn. set_solver.
  - unfold mbind, outcome_bind, Go.bind in Hp.
    destruct (Rows.index schema i) as [sch | |] eqn:Hs; try discriminate.
    apply index_lookup in Hs. destruct Hs as [_ Hs].
    rewrite (drop_S _ _ _ Hs). cbn [take fmap list_fmap list_to_set foldr].
    replace (S (Z.to_nat i)) with (Z.to_nat (i + 1)) by lia.
    destruct (isSet nb i) as [[|] | |]; try discriminate.
    + apply IH in Hp; [|lia]. rewrite dom_insert_L in Hp.
      destruct Hp as (H1 & H2 & H3). repeat split.
      * clear - H1. set_solver.
      * clear - H2. set_solver.
      * intros Hy. rewrite (H3 Hy). clear. set_solver.
    + destruct (Rows.index (columnMetaData tm) i) as [meta | |] eqn:Hm; try discriminate.
      apply index_lookup in Hm. destruct Hm as [_ Hm].
      destruct (decode_column tm i meta sch row buf) as [[row1 [e1|] buf1 | e1] | |] eqn:Hd;
        try discriminate.
      apply decode_column_dom in Hd. destruct Hd as (D1 & D2 & D3).
      apply IH in Hp; [|lia]. destruct Hp as (H1 & H2 & H3).
      repeat split.
      * clear - H1 D1. set_solver.
      * clear - H2 D2. set_solver.
      * intros Hy. rewrite (H3 Hy), D3.
        -- clear. set_solver.
        -- rewrite Forall_forall in Hy. apply Hy. eapply list_elem_of_lookup_2. exact Hm.
Qed.

(** X1: the keys of a row that parseEventRow returns are names of the
    leading columns of the schema, as many as the table map has columns;
    when the table map has no YEAR column they are exactly these names. *)
Theorem row_keys_are_schema_names `{Externals} buf tm schema row e rest :
  parseEventRow buf (Some tm) schema = Done (Some row, e, rest) →
  dom row ⊆ schema_names schema (length (columnTypes tm)) ∧
  (Forall (λ m, column_type m ≠ FIELD_TYPE_YEAR) (columnMetaData tm) →
   dom row = schema_names schema (length (columnTypes tm))).
Proof.
  unfold parseEventRow, schema_names, mbind, outcome_bind, Go.bind.
  destruct (Next _ buf) as [[nb buf0] | |]; try discriminate.
  intros Hp. apply columns_dom in Hp; [|lia].
  rewrite Nat2Z.id, dom_empty_L in Hp. cbn in Hp. rewrite drop_0 in Hp.
  destruct Hp as (_ & H2 & H3). split; [set_solver|].
  intros Hy. rewrite (H3 Hy). set_solver.
Qed.

Lemma row_keys_are_schema_names_witness :
  dom (<["flag" := VInt8 2]> ∅ : gmap string Value)
    ⊆ schema_names [flag_schema]
        (length (columnTypes (example_table_map [new_ColumnType FIELD_TYPE_TINY])))
  ∧ (Forall (λ m, column_type m ≠ FIELD_TYPE_YEAR)
       (columnMetaData (example_table_map [new_ColumnType FIELD_TYPE_TINY])) →
     dom (<["flag" := VInt8 2]> ∅ : gmap string Value)
     = schema_names [flag_schema]
         (length (columnTypes (example_table_map [new_ColumnType FIELD_TYPE_TINY])))).
Proof.
  apply (row_keys_are_schema_names (H := Reference.externals) [x00; x02]
           (example_table_map [new_ColumnType FIELD_TYPE_TINY]) [flag_schema]
           (<["flag" := VInt8 2]> ∅) None []).
  vm_compute. reflexivity.
Defined.

(** ** Integer and string columns *)

(** X2: a non-null SHORT, LONG or LONGLONG column whose wire bytes are
    the little-endian encoding of an integer within the range of its width
    and signedness is stored as that integer, typed by width and signedness,
    and takes exactly its 2, 4 or 8 bytes. *)
Theorem integer_column_round_trip `{Externals} tm schema nb i sch meta row w v rest :
  live_column tm schema nb i sch meta →
  int_width (column_type meta) = Some w →
  int_in_range w (unsigned sch) v →
  column_stored tm schema nb i sch row
    (le_bytes w v ++ rest)
    (int_value (column_type meta) (unsigned sch) v)
    rest.
Proof.
  intros Hlive Hw Hv.
  apply (column_stores _ _ _ _ _ meta); [exact Hlive|].
  unfold decode_column, int_in_range in *.
  destruct (column_type meta); try discriminate; inversion Hw; subst w; clear Hw;
    destruct (unsigned sch);
    rewrite binary_Read_app by apply length_le_bytes;
    cbn [int_value mbind outcome_bind Go.bind];
    change uint16 with (wrap (8 * Z.of_nat 2)); change int16 with (signed (8 * Z.of_nat 2));
    change uint32 with (wrap (8 * Z.of_nat 4)); change int32 with (signed (8 * Z.of_nat 4));
    change uint64 with (wrap (8 * Z.of_nat 8)); change int64 with (signed (8 * Z.of_nat 8));
    first [ rewrite (decode_fits_unsigned _ v Hv)
          | rewrite decode_fits_signed by first [lia | exact Hv] ];
    reflexivity.
Qed.

Lemma integer_column_round_trip_witness :
  column_stored (H := Reference.externals)
    (example_table_map [new_ColumnType FIELD_TYPE_LONG])
    [plain_schema "n" "" "int(11)"] [x00] 0
    (plain_schema "n" "" "int(11)") ∅
    (le_bytes 4 (-2) ++ [])
    (int_value FIELD_TYPE_LONG false (-2))
    [].
Proof.
  apply (integer_column_round_trip (H := Reference.externals)
           (example_table_map [new_ColumnType FIELD_TYPE_LONG])
           [plain_schema "n" "" "int(11)"] [x00] 0
           (plain_schema "n" "" "int(11)") (new_ColumnType FIELD_TYPE_LONG)
           ∅ 4%nat (-2) []).
  - repeat split.
  - reflexivity.
  - cbn. lia.
Defined.

Lemma binary_Read_short {A} n (dec : list byte → A) old buf :
  (length buf < n)%nat →
  binary_Read n dec old buf =
  (old, Some (match buf with [] => EOF | _ => ErrUnexpectedEOF end), []).
Proof.
  intros Hl. unfold binary_Read, ReadFull.
  destruct (Nat.leb_spec n (length buf)); [lia|]. destruct buf; reflexivity.
Qed.

(** X3: when fewer bytes are left than a non-null SHORT, LONG or
    LONGLONG column takes, the row fails with io.EOF on an empty buffer and
    with io.ErrUnexpectedEOF otherwise, and the buffer is drained. *)
Theorem integer_column_short_buffer `{Externals} tm schema nb n i sch meta row w buf :
  live_column tm schema nb i sch meta →
  int_width (column_type meta) = Some w →
  (length buf < w)%nat →
  parseEventRow_columns tm schema nb (S n) i row buf =
  Done (None, Some (match buf with [] => EOF | _ => ErrUnexpectedEOF end), []).
Proof.
  intros Hlive Hw Hl.
  rewrite (columns_pass _ _ _ _ _ _ _ _ _ Hlive).
  unfold decode_column.
  destruct (column_type meta); try discriminate; inversion Hw; subst w; clear Hw;
    destruct (unsigned sch); rewrite binary_Read_short by exact Hl; reflexivity.
Qed.

Lemma integer_column_short_buffer_witness :
  parseEventRow_columns (H := Reference.externals)
    (example_table_map [new_ColumnType FIELD_TYPE_LONG])
    [plain_schema "n" "" "int(11)"] [x00] 1 0 ∅ [x01; x02] =
  Done (None, Some ErrUnexpectedEOF, []).
Proof.
  apply (integer_column_short_buffer (H := Reference.externals)
           (example_table_map [new_ColumnType FIELD_TYPE_LONG])
           [plain_schema "n" "" "int(11)"] [x00] 0 0
           (plain_schema "n" "" "int(11)") (new_ColumnType FIELD_TYPE_LONG)
           ∅ 4%nat [x01; x02]).
  - repeat split.
  - reflexivity.
  - cbn. lia.
Defined.

Lemma varchar_length_read (max_length_ n : Z) (tail : list byte) :
  0 ≤ n < varchar_limit max_length_ →
  (if 255 <? max_length_
   then let '(short, e, buf) :=
          binary_Read 2 (λ bs, uint16 (le_uint bs)) 0 (varchar_prefix max_length_ n ++ tail) in
        (int short, e, buf)
   else let '(b, e, buf) := ReadByte (varchar_prefix max_length_ n ++ tail) in
        (int (byte_to_Z b), e, buf)) = (n, None, tail).
Proof.
  unfold varchar_prefix, varchar_limit. intros Hn. destruct (255 <? max_length_).
  - rewrite binary_Read_app by reflexivity.
    change uint16 with (wrap (8 * Z.of_nat 2)).
    rewrite decode_fits_unsigned by (cbn; lia).
    rewrite int_small by (cbn; lia). reflexivity.
  - cbn [le_bytes app ReadByte]. rewrite byte_to_Z_of_Z, Z.mod_small by lia.
    rewrite int_small by (cbn; lia). reflexivity.
Qed.

(** X4: a non-null VARCHAR column written as a length prefix (two bytes
    when the column's max_length is above 255, one byte otherwise) and that
    many bytes is stored as the string of these bytes, and the bytes after
    them are left for the next column. *)
Theorem varchar_round_trip `{Externals} tm schema nb i sch meta row payload rest :
  live_column tm schema nb i sch meta →
  column_type meta = FIELD_TYPE_VARCHAR →
  Z.of_nat (length payload) < varchar_limit (max_length meta) →
  column_stored tm schema nb i sch row
    (varchar_prefix (max_length meta) (Z.of_nat (length payload)) ++ payload ++ rest)
    (VString (string_of_bytes payload))
    rest.
Proof.
  intros Hlive Hty Hlen.
  apply (column_stores _ _ _ _ _ meta); [exact Hlive|].
  unfold decode_column. rewrite Hty.
  rewrite varchar_length_read by lia.
  assert (Hl : (Len (payload ++ rest) <? Z.of_nat (length payload)) = false).
  { apply Z.ltb_ge. unfold Len. rewrite length_app. lia. }
  rewrite Hl, Next_app. reflexivity.
Qed.

Lemma varchar_round_trip_witness :
  column_stored (H := Reference.externals)
    (example_table_map [new_ColumnType FIELD_TYPE_VARCHAR])
    [plain_schema "s" "" "varchar(20)"] [x00] 0
    (plain_schema "s" "" "varchar(20)") ∅
    (varchar_prefix (max_length (new_ColumnType FIELD_TYPE_VARCHAR)) (Z.of_nat (length (text "ab"))) ++ text "ab" ++ [x07])
    (VString (string_of_bytes (text "ab")))
    [x07].
Proof.
  apply (varchar_round_trip (H := Reference.externals)
           (example_table_map [new_ColumnType FIELD_TYPE_VARCHAR])
           [plain_schema "s" "" "varchar(20)"] [x00] 0
           (plain_schema "s" "" "varchar(20)") (new_ColumnType FIELD_TYPE_VARCHAR)
           ∅ (text "ab") [x07]).
  - repeat split.
  - reflexivity.
  - cbn. lia.
Defined.

(** X5: a non-null VARCHAR column whose prefix declares more bytes
    than are left fails the row with io.EOF. *)
Theorem varchar_short_buffer_is_EOF `{Externals} tm schema nb n i sch meta row declared avail :
  live_column tm schema nb i sch meta →
  column_type meta = FIELD_TYPE_VARCHAR →
  Z.of_nat (length avail) < declared < varchar_limit (max_length meta) →
  parseEventRow_columns tm schema nb (S n) i row
    (varchar_prefix (max_length meta) declared ++ avail) =
  Done (None, Some EOF, []).
Proof.
  intros Hlive Hty Hlen.
  rewrite (columns_pass _ _ _ _ _ _ _ _ _ Hlive).
  unfold decode_column. rewrite Hty.
  rewrite varchar_length_read by lia.
  assert (Hl : (Len avail <? declared) = true) by (apply Z.ltb_lt; unfold Len; lia).
  rewrite Hl, Next_short by lia. reflexivity.
Qed.

Lemma varchar_short_buffer_is_EOF_witness :
  parseEventRow_columns (H := Reference.externals)
    (example_table_map [new_ColumnType FIELD_TYPE_VARCHAR])
    [plain_schema "s" "" "varchar(20)"] [x00] 1 0 ∅
    (varchar_prefix (max_length (new_ColumnType FIELD_TYPE_VARCHAR)) 5 ++ text "ab") =
  Done (None, Some EOF, []).
Proof.
  apply (varchar_short_buffer_is_EOF (H := Reference.externals)
           (example_table_map [new_ColumnType FIELD_TYPE_VARCHAR])
           [plain_schema "s" "" "varchar(20)"] [x00] 0 0
           (plain_schema "s" "" "varchar(20)") (new_ColumnType FIELD_TYPE_VARCHAR)
           ∅ 5 (text "ab")).
  - repeat split.
  - reflexivity.
  - cbn. lia.
Defined.

(** X6: a non-null STRING column has no length check: when its
    length byte declares more bytes than are left, the bytes that are left
    are stored as its value and the loop goes on with an empty buffer. *)
Theorem string_short_buffer_is_accepted `{Externals} tm schema nb i sch meta row b avail :
  live_column tm schema nb i sch meta →
  column_type meta = FIELD_TYPE_STRING →
  Z.of_nat (length avail) < byte_to_Z b →
  column_stored tm schema nb i sch row
    (b :: avail)
    (VString (string_of_bytes avail))
    [].
Proof.
  intros Hlive Hty Hlen.
  apply (column_stores _ _ _ _ _ meta); [exact Hlive|].
  unfold decode_column. rewrite Hty. cbn [ReadByte].
  pose proof (byte_to_Z_range b).
  rewrite int_small by (cbn; lia). rewrite Next_short by lia. reflexivity.
Qed.

Lemma string_short_buffer_is_accepted_witness :
  column_stored (H := Reference.externals)
    (example_table_map [new_ColumnType FIELD_TYPE_STRING])
    [plain_schema "s" "" "char(20)"] [x00] 0
    (plain_schema "s" "" "char(20)") ∅
    (x05 :: text "ab")
    (VString (string_of_bytes (text "ab")))
    [].
Proof.
  apply (string_short_buffer_is_accepted (H := Reference.externals)
           (example_table_map [new_ColumnType FIELD_TYPE_STRING])
           [plain_schema "s" "" "char(20)"] [x00] 0
           (plain_schema "s" "" "char(20)") (new_ColumnType FIELD_TYPE_STRING)
           ∅ x05 (text "ab")).
  - repeat split.
  - reflexivity.
  - cbn. lia.
Defined.

(** ** Date and time columns *)

Lemma three_le_bytes p :
  0 ≤ p < 2 ^ 24 →
  ∃ d0 d1 d2, three_bytes (le_bytes 3 p) = Done (d0, d1, d2) ∧
              int (d0 + Z.shiftl d1 8 + Z.shiftl d2 16) = p.
Proof.
  intros Hp. eexists _, _, _. split; [reflexivity|].
  pose proof (le_uint_le_bytes 3 p) as Hle. cbn [le_bytes le_uint] in Hle.
  rewrite !Z.shiftl_mul_pow2 by lia.
  change (8 * Z.of_nat 3) with 24 in Hle. rewrite (Z.mod_small p) in Hle by lia.
  rewrite int_small; [lia|].
  pose proof (byte_to_Z_range (byte_of_Z p)).
  pose proof (byte_to_Z_range (byte_of_Z (p / 256))).
  pose proof (byte_to_Z_range (byte_of_Z (p / 256 / 256))). cbn. lia.
Qed.

Lemma decode_date_of_pack_date year month day rest :
  0 ≤ day < 32 → 0 ≤ month < 16 → 0 ≤ year < 32768 →
  pack_date year month day ≠ 0 →
  decode_date (le_bytes 3 (pack_date year month day) ++ rest) =
  Done (VString (Itoa year +:+ "-" +:+ pad2 month +:+ "-" +:+ pad2 day), rest).
Proof.
  intros Hd Hm Hy Hnz. unfold decode_date.
  rewrite (Next_app (le_bytes 3 _) rest). cbn [mbind outcome_bind Go.bind].
  destruct (three_le_bytes (pack_date year month day)) as (d0 & d1 & d2 & -> & Hint);
    [unfold pack_date; lia|].
  cbn [mbind outcome_bind Go.bind]. rewrite Hint.
  destruct (Z.eqb_spec (pack_date year month day) 0) as [|_]; [contradiction|].
  assert (Hday : Z.land (pack_date year month day) (Z.shiftl 1 5 - 1) = day).
  { change (Z.shiftl 1 5 - 1) with (Z.ones 5). rewrite Z.land_ones by lia.
    unfold pack_date. change (2 ^ 5) with 32. Z.div_mod_to_equations. lia. }
  assert (Hmonth : Z.shiftr (Z.land (pack_date year month day)
                               (Z.shiftl (Z.shiftl 1 4 - 1) 5)) 5 = month).
  { rewrite Z.shiftr_land, Z.shiftr_shiftl_l, Z.sub_diag, Z.shiftl_0_r by lia.
    change (Z.shiftl 1 4 - 1) with (Z.ones 4). rewrite Z.land_ones, Z.shiftr_div_pow2 by lia.
    unfold pack_date. change (2 ^ 5) with 32. change (2 ^ 4) with 16.
    Z.div_mod_to_equations. lia. }
  assert (Hyear : Z.shiftr (Z.land (pack_date year month day)
                              (Z.shiftl (Z.shiftl 1 15 - 1) 9)) 9 = year).
  { rewrite Z.shiftr_land, Z.shiftr_shiftl_l, Z.sub_diag, Z.shiftl_0_r by lia.
    change (Z.shiftl 1 15 - 1) with (Z.ones 15). rewrite Z.land_ones, Z.shiftr_div_pow2 by lia.
    unfold pack_date. change (2 ^ 9) with 512. change (2 ^ 15) with 32768.
    Z.div_mod_to_equations. lia. }
  rewrite Hday, Hmonth, Hyear. unfold two_digits, pad2.
  rewrite (Z.leb_antisym month 10), (Z.leb_antisym day 10).
  destruct (month <? 10), (day <? 10); reflexivity.
Qed.

(** X7: a non-null DATE or NEWDATE column that holds a non-zero packed
    date (day + 32 * month + 512 * year, three bytes little-endian) is
    stored as year-month-day with month and day written in two digits. *)
Theorem date_round_trip `{Externals} tm schema nb i sch meta row year month day rest :
  live_column tm schema nb i sch meta →
  column_type meta = FIELD_TYPE_DATE ∨ column_type meta = FIELD_TYPE_NEWDATE →
  0 ≤ day < 32 → 0 ≤ month < 16 → 0 ≤ year < 32768 →
  pack_date year month day ≠ 0 →
  column_stored tm schema nb i sch row
    (le_bytes 3 (pack_date year month day) ++ rest)
    (VString (Itoa year +:+ "-" +:+ pad2 month +:+ "-" +:+ pad2 day))
    rest.
Proof.
  intros Hlive Hty Hd Hm Hy Hnz.
  apply (column_stores _ _ _ _ _ meta); [exact Hlive|].
  unfold decode_column.
  destruct Hty as [-> | ->];
    rewrite (decode_date_of_pack_date _ _ _ rest Hd Hm Hy Hnz); reflexivity.
Qed.

Lemma date_round_trip_witness :
  column_stored (H := Reference.externals)
    (example_table_map [new_ColumnType FIELD_TYPE_DATE])
    [plain_schema "d" "" "date"] [x00] 0
    (plain_schema "d" "" "date") ∅
    (le_bytes 3 (pack_date 2024 2 29) ++ [])
    (VString (Itoa 2024 +:+ "-" +:+ pad2 2 +:+ "-" +:+ pad2 29))
    [].
Proof.
  apply (date_round_trip (H := Reference.externals)
           (example_table_map [new_ColumnType FIELD_TYPE_DATE])
           [plain_schema "d" "" "date"] [x00] 0
           (plain_schema "d" "" "date") (new_ColumnType FIELD_TYPE_DATE)
           ∅ 2024 2 29 []).
  - repeat split.
  - left. reflexivity.
  - lia.
  - lia.
  - lia.
  - vm_compute. discriminate.
Defined.

Lemma three_bytes_short (data : list byte) :
  (length data < 3)%nat → three_bytes data = Panic IndexOutOfRange.
Proof. destruct data as [|? [|? [|? ?]]]; cbn; intros; [reflexivity ..|lia]. Qed.

(** X8: a non-null DATE, NEWDATE or TIME column with fewer than three
    bytes left panics with an index out of range. *)
Theorem date_or_time_short_buffer_panics `{Externals} tm schema nb n i sch meta row buf :
  live_column tm schema nb i sch meta →
  column_type meta = FIELD_TYPE_DATE ∨ column_type meta = FIELD_TYPE_NEWDATE
    ∨ column_type meta = FIELD_TYPE_TIME →
  (length buf < 3)%nat →
  parseEventRow_columns tm schema nb (S n) i row buf = Panic IndexOutOfRange.
Proof.
  intros Hlive Hty Hl.
  rewrite (columns_pass _ _ _ _ _ _ _ _ _ Hlive).
  unfold decode_column, decode_date, decode_time.
  rewrite (Next_short 3 buf) by lia.
  destruct Hty as [-> | [-> | ->]]; cbn [mbind outcome_bind Go.bind];
    rewrite three_bytes_short by exact Hl; reflexivity.
Qed.

Lemma date_or_time_short_buffer_panics_witness :
  parseEventRow_columns (H := Reference.externals)
    (example_table_map [new_ColumnType FIELD_TYPE_TIME])
    [plain_schema "t" "" "time"] [x00] 1 0 ∅ [x01; x02] =
  Panic IndexOutOfRange.
Proof.
  apply (date_or_time_short_buffer_panics (H := Reference.externals)
           (example_table_map [new_ColumnType FIELD_TYPE_TIME])
           [plain_schema "t" "" "time"] [x00] 0 0
           (plain_schema "t" "" "time") (new_ColumnType FIELD_TYPE_TIME)
           ∅ [x01; x02]).
  - repeat split.
  - right. right. reflexivity.
  - cbn. lia.
Defined.

(** X9: a non-null TIME column that holds a non-zero time packed in
    decimal (hour * 10000 + minute * 100 + second, three bytes
    little-endian) is stored as hour:minute:second, where a minute or a
    second up to 10, the value 10 included, gets a leading zero. *)
Theorem time_round_trip `{Externals} tm schema nb i sch meta row hour minute second rest :
  live_column tm schema nb i sch meta →
  column_type meta = FIELD_TYPE_TIME →
  0 ≤ hour → 0 ≤ minute < 100 → 0 ≤ second < 100 →
  0 < pack_time hour minute second < 2 ^ 24 →
  column_stored tm schema nb i sch row
    (le_bytes 3 (pack_time hour minute second) ++ rest)
    (VString (Itoa hour +:+ ":" +:+ time_field minute +:+ ":" +:+ time_field second))
    rest.
Proof.
  intros Hlive Hty Hh Hm Hs Hp.
  apply (column_stores _ _ _ _ _ meta); [exact Hlive|].
  unfold decode_column, decode_time. rewrite Hty.
  rewrite (Next_app (le_bytes 3 _) rest). cbn [mbind outcome_bind Go.bind].
  destruct (three_le_bytes (pack_time hour minute second)) as (d0 & d1 & d2 & -> & Hint);
    [lia|].
  cbn [mbind outcome_bind Go.bind]. rewrite Hint.
  destruct (Z.eqb_spec (pack_time hour minute second) 0) as [|_]; [lia|].
  change (2 ^ 24) with 16777216 in Hp.
  assert (Hhour : Z.quot (pack_time hour minute second) 10000 = hour).
  { rewrite Z.quot_div_nonneg by lia. unfold pack_time in *. Z.div_mod_to_equations. lia. }
  assert (Hminute : Z.quot (Z.rem (pack_time hour minute second) 10000) 100 = minute).
  { rewrite Z.rem_mod_nonneg by lia.
    rewrite Z.quot_div_nonneg by (try apply Z.mod_pos_bound; lia).
    unfold pack_time in *. Z.div_mod_to_equations. lia. }
  assert (Hsecond : Z.rem (pack_time hour minute second) 100 = second).
  { rewrite Z.rem_mod_nonneg by lia. unfold pack_time in *. Z.div_mod_to_equations. lia. }
  rewrite Hhour, Hminute, Hsecond.
  rewrite !int_small by (cbn; unfold pack_time in *; lia).
  reflexivity.
Qed.

Lemma time_round_trip_witness :
  column_stored (H := Reference.externals)
    (example_table_map [new_ColumnType FIELD_TYPE_TIME])
    [plain_schema "t" "" "time"] [x00] 0
    (plain_schema "t" "" "time") ∅
    (le_bytes 3 (pack_time 12 10 5) ++ [])
    (VString (Itoa 12 +:+ ":" +:+ time_field 10 +:+ ":" +:+ time_field 5))
    [].
Proof.
  apply (time_round_trip (H := Reference.externals)
           (example_table_map [new_ColumnType FIELD_TYPE_TIME])
           [plain_schema "t" "" "time"] [x00] 0
           (plain_schema "t" "" "time") (new_ColumnType FIELD_TYPE_TIME)
           ∅ 12 10 5 []).
  - repeat split.
  - reflexivity.
  - lia.
  - lia.
  - lia.
  - vm_compute. split; reflexivity.
Defined.

Lemma be_uint_be_bytes n z : be_uint (be_bytes n z) = z mod 2 ^ (8 * Z.of_nat n).
Proof. unfold be_uint, be_bytes. rewrite rev_involutive. apply le_uint_le_bytes. Qed.

Lemma be_bytes_S n z : be_bytes (S n) z = be_bytes n (z / 256) ++ [byte_of_Z z].
Proof. reflexivity. Qed.

Lemma length_be_bytes n z : length (be_bytes n z) = n.
Proof. unfold be_bytes. rewrite length_rev. apply length_le_bytes. Qed.

Lemma lor_shiftl_low x y k :
  0 ≤ k → 0 ≤ y < 2 ^ k → Z.lor (Z.shiftl x k) y = x * 2 ^ k + y.
Proof.
  intros Hk Hy. rewrite <- Z.shiftl_mul_pow2 by lia.
  rewrite <- Z.lxor_lor, <- Z.add_nocarry_lxor; [reflexivity | |];
    (apply Z.bits_inj'; intros j Hj; rewrite Z.land_spec, Z.bits_0;
     destruct (Z.lt_ge_cases j k);
     [rewrite Z.shiftl_spec_low by lia; reflexivity|];
     destruct (Z.eq_dec y 0) as [-> | Hy0];
     [rewrite Z.bits_0, andb_false_r; reflexivity|];
     rewrite (Z.bits_above_log2 y j), andb_false_r;
     [reflexivity | lia |
      apply Z.log2_lt_pow2; [lia|];
      pose proof (Z.pow_le_mono_r 2 k j ltac:(lia) ltac:(lia)); lia]).
Qed.

Lemma one_byte_read (b : byte) (rest : list byte) :
  binary_Read 1 be_uint 0 (b :: rest) = (byte_to_Z b, None, rest).
Proof.
  unfold binary_Read, ReadFull. cbn. unfold be_uint.
  rewrite ?take_0, ?drop_0. cbn. do 2 f_equal. lia.
Qed.

Lemma lor_three_bytes a b c :
  0 ≤ a < 256 → 0 ≤ b < 256 → 0 ≤ c < 256 →
  Z.lor (Z.lor (Z.shiftl a 16) (Z.shiftl b 8)) c = a * 2 ^ 16 + b * 2 ^ 8 + c.
Proof.
  intros Ha Hb Hc. change 16 with (8 + 8).
  rewrite <- Z.shiftl_shiftl, <- Z.shiftl_lor by lia.
  rewrite (lor_shiftl_low a b 8) by (cbn; lia).
  rewrite lor_shiftl_low by (cbn; lia). cbn. lia.
Qed.

Lemma int_mod_256 z : int (z mod 256) = z mod 256.
Proof. apply int_small. pose proof (Z.mod_pos_bound z 256 ltac:(lia)). cbn. lia. Qed.

Lemma decode_time2_of_pack_time2 hour minute second rest :
  0 ≤ hour < 1024 → 0 ≤ minute < 64 → 0 ≤ second < 64 →
  decode_time2 (be_bytes 3 (pack_time2 hour minute second) ++ rest) =
  (VString (Itoa hour +:+ ":" +:+ time_field minute +:+ ":" +:+ time_field second), rest).
Proof.
  intros Hh Hm Hs. unfold decode_time2.
  set (p := pack_time2 hour minute second).
  assert (Hp : 2 ^ 23 ≤ p < 2 ^ 24) by (unfold p, pack_time2; cbn; lia).
  change (be_bytes 3 p) with [byte_of_Z (p / 256 / 256); byte_of_Z (p / 256); byte_of_Z p].
  cbn [app]. rewrite !one_byte_read.
  rewrite !byte_to_Z_of_Z.
  rewrite !int_mod_256.
  rewrite lor_three_bytes by (apply Z.mod_pos_bound; lia).
  assert (Hval : (p / 256 / 256) mod 256 * 2 ^ 16 + (p / 256) mod 256 * 2 ^ 8 + p mod 256 = p).
  { cbn in *. Z.div_mod_to_equations. lia. }
  rewrite Hval.
  assert (Hu : uint64 p = p) by (apply Z.mod_small; cbn in *; lia).
  rewrite Hu. destruct (Z.leb_spec 8388608 p) as [_|]; [|cbn in *; lia].
  unfold read_binary_slice.
  rewrite !Z.shiftr_div_pow2 by lia.
  assert (Hmask : ∀ k, 0 ≤ k < 64 → uint64 (Z.shiftl 1 k - 1) = Z.ones k).
  { intros k Hk. rewrite Z.shiftl_1_l, Z.ones_equiv. apply Z.mod_small.
    pose proof (Z.pow_lt_mono_r 2 k 64 ltac:(lia) ltac:(lia) ltac:(lia)).
    pose proof (Z.pow_pos_nonneg 2 k ltac:(lia) ltac:(lia)). cbn in *. lia. }
  rewrite !Hmask, !Z.land_ones by lia.
  assert (Hhour : (uint64 (p - 16777216) / 2 ^ (24 - (2 + 10))) mod 2 ^ 10 = hour).
  { unfold uint64, wrap, p, pack_time2. cbn. Z.div_mod_to_equations. lia. }
  assert (Hminute : (uint64 (p - 16777216) / 2 ^ (24 - (12 + 6))) mod 2 ^ 6 = minute).
  { unfold uint64, wrap, p, pack_time2. cbn. Z.div_mod_to_equations. lia. }
  assert (Hsecond : (uint64 (p - 16777216) / 2 ^ (24 - (18 + 6))) mod 2 ^ 6 = second).
  { unfold uint64, wrap, p, pack_time2. cbn. Z.div_mod_to_equations. lia. }
  rewrite Hhour, Hminute, Hsecond.
  rewrite !int_small by (cbn; lia). reflexivity.
Qed.

(** X10: a non-null TIME2 column that holds a non-negative time (sign
    bit, spare bit, 10 bits of hour, 6 of minute, 6 of second, three bytes
    big-endian) is stored as hour:minute:second with the leading zero up to
    10, and takes three bytes whatever the column's fractional precision. *)
Theorem time2_round_trip `{Externals} tm schema nb i sch meta row hour minute second rest :
  live_column tm schema nb i sch meta →
  column_type meta = FIELD_TYPE_TIME2 →
  0 ≤ hour < 1024 → 0 ≤ minute < 64 → 0 ≤ second < 64 →
  column_stored tm schema nb i sch row
    (be_bytes 3 (pack_time2 hour minute second) ++ rest)
    (VString (Itoa hour +:+ ":" +:+ time_field minute +:+ ":" +:+ time_field second))
    rest.
Proof.
  intros Hlive Hty Hh Hm Hs.
  apply (column_stores _ _ _ _ _ meta); [exact Hlive|].
  unfold decode_column. rewrite Hty.
  rewrite (decode_time2_of_pack_time2 _ _ _ rest Hh Hm Hs). reflexivity.
Qed.

Lemma time2_round_trip_witness :
  column_stored (H := Reference.externals)
    (example_table_map [new_ColumnType FIELD_TYPE_TIME2])
    [plain_schema "t" "" "time"] [x00] 0
    (plain_schema "t" "" "time") ∅
    (be_bytes 3 (pack_time2 12 10 5) ++ [])
    (VString (Itoa 12 +:+ ":" +:+ time_field 10 +:+ ":" +:+ time_field 5))
    [].
Proof.
  apply (time2_round_trip (H := Reference.externals)
           (example_table_map [new_ColumnType FIELD_TYPE_TIME2])
           [plain_schema "t" "" "time"] [x00] 0
           (plain_schema "t" "" "time") (new_ColumnType FIELD_TYPE_TIME2)
           ∅ 12 10 5 []).
  - repeat split.
  - reflexivity.
  - lia.
  - lia.
  - lia.
Defined.

Lemma read_datetime2_of_pack_datetime2 `{Externals} year month day hour minute second rest :
  0 ≤ year < 10000 → 0 ≤ month < 13 → 0 ≤ day < 32 → 0 ≤ hour < 32 →
  0 ≤ minute < 64 → 0 ≤ second < 64 →
  read_datetime2 (be_bytes 5 (pack_datetime2 year month day hour minute second) ++ rest) =
  (format_date year month day hour minute second, None, rest).
Proof.
  intros Hy Hmo Hd Hh Hm Hs. unfold read_datetime2.
  set (p := pack_datetime2 year month day hour minute second).
  assert (Hp : 2 ^ 39 ≤ p < 2 ^ 40) by (unfold p, pack_datetime2; cbn; lia).
  rewrite be_bytes_S, <- app_assoc.
  rewrite (binary_Read_app 4 _ 0 (be_bytes 4 (p / 256))) by apply length_be_bytes.
  cbn [app]. rewrite one_byte_read.
  rewrite be_uint_be_bytes, byte_to_Z_of_Z.
  rewrite Z.shiftl_mul_pow2 by lia.
  assert (Hval : uint64 (p mod 256 + uint64 (uint32 ((p / 256) mod 2 ^ (8 * Z.of_nat 4)) * 2 ^ 8)) = p).
  { unfold uint64, uint32, wrap. cbn in *. Z.div_mod_to_equations. lia. }
  rewrite Hval.
  unfold read_binary_slice.
  rewrite !Z.shiftr_div_pow2 by lia.
  assert (Hmask : ∀ k, 0 ≤ k < 64 → uint64 (Z.shiftl 1 k - 1) = Z.ones k).
  { intros k Hk. rewrite Z.shiftl_1_l, Z.ones_equiv. apply Z.mod_small.
    pose proof (Z.pow_lt_mono_r 2 k 64 ltac:(lia) ltac:(lia) ltac:(lia)).
    pose proof (Z.pow_pos_nonneg 2 k ltac:(lia) ltac:(lia)). cbn in *. lia. }
  rewrite !Hmask, !Z.land_ones by lia.
  assert (Hym : (p / 2 ^ (40 - (1 + 17))) mod 2 ^ 17 = year * 13 + month).
  { unfold p, pack_datetime2. cbn. Z.div_mod_to_equations. lia. }
  assert (Hday : (p / 2 ^ (40 - (18 + 5))) mod 2 ^ 5 = day).
  { unfold p, pack_datetime2. cbn. Z.div_mod_to_equations. lia. }
  assert (Hhour : (p / 2 ^ (40 - (23 + 5))) mod 2 ^ 5 = hour).
  { unfold p, pack_datetime2. cbn. Z.div_mod_to_equations. lia. }
  assert (Hminute : (p / 2 ^ (40 - (28 + 6))) mod 2 ^ 6 = minute).
  { unfold p, pack_datetime2. cbn. Z.div_mod_to_equations. lia. }
  assert (Hsecond : (p / 2 ^ (40 - (34 + 6))) mod 2 ^ 6 = second).
  { unfold p, pack_datetime2. cbn. Z.div_mod_to_equations. lia. }
  rewrite Hym, Hday, Hhour, Hminute, Hsecond.
  replace ((year * 13 + month) / 13) with year by (Z.div_mod_to_equations; lia).
  replace ((year * 13 + month) mod 13) with month by (Z.div_mod_to_equations; lia).
  rewrite !int_small by (cbn; lia). reflexivity.
Qed.

(** X11: a non-null DATETIME2 column that holds a non-negative date and
    time (sign bit, 17 bits of year * 13 + month, 5 of day, 5 of hour, 6 of
    minute, 6 of second, five bytes big-endian) is stored as the formatted
    time.Date of these six fields, and takes five bytes. *)
Theorem datetime2_round_trip `{Externals} tm schema nb i sch meta row
    year month day hour minute second rest :
  live_column tm schema nb i sch meta →
  column_type meta = FIELD_TYPE_DATETIME2 →
  0 ≤ year < 10000 → 0 ≤ month < 13 → 0 ≤ day < 32 → 0 ≤ hour < 32 →
  0 ≤ minute < 64 → 0 ≤ second < 64 →
  column_stored tm schema nb i sch row
    (be_bytes 5 (pack_datetime2 year month day hour minute second) ++ rest)
    (VString (format_date year month day hour minute second))
    rest.
Proof.
  intros Hlive Hty Hy Hmo Hd Hh Hm Hs.
  apply (column_stores _ _ _ _ _ meta); [exact Hlive|].
  unfold decode_column. rewrite Hty.
  rewrite (read_datetime2_of_pack_datetime2 _ _ _ _ _ _ rest Hy Hmo Hd Hh Hm Hs). reflexivity.
Qed.

Lemma datetime2_round_trip_witness :
  column_stored (H := Reference.externals)
    (example_table_map [new_ColumnType FIELD_TYPE_DATETIME2])
    [plain_schema "t" "" "datetime"] [x00] 0
    (plain_schema "t" "" "datetime") ∅
    (be_bytes 5 (pack_datetime2 2024 2 29 23 59 58) ++ [])
    (VString (format_date (Externals := Reference.externals) 2024 2 29 23 59 58))
    [].
Proof.
  apply (datetime2_round_trip (H := Reference.externals)
           (example_table_map [new_ColumnType FIELD_TYPE_DATETIME2])
           [plain_schema "t" "" "datetime"] [x00] 0
           (plain_schema "t" "" "datetime") (new_ColumnType FIELD_TYPE_DATETIME2)
           ∅ 2024 2 29 23 59 58 []).
  - repeat split.
  - reflexivity.
  - lia.
  - lia.
  - lia.
  - lia.
  - lia.
  - lia.
Defined.

(** ** BIT columns *)

Lemma parse_binary_nonneg s : ∀ acc v, 0 ≤ acc → parse_binary acc s = Some v → 0 ≤ v.
Proof.
  induction s as [|c s IH]; intros acc v Hacc; cbn.
  - intros [= <-]. exact Hacc.
  - destruct (Ascii.eqb c "0"); [apply IH; lia|].
    destruct (Ascii.eqb c "1"); [apply IH; lia|discriminate].
Qed.

Lemma ParseInt_base2_10_range s : 0 ≤ ParseInt_base2 s 10 ≤ 511.
Proof.
  unfold ParseInt_base2. destruct s as [|c s]; [lia|].
  destruct (parse_binary 0 (String c s)) as [v|] eqn:Hv; [|lia].
  apply parse_binary_nonneg in Hv; [|lia].
  change (2 ^ (10 - 1)) with 512. destruct (Z.leb_spec 512 v); lia.
Qed.

Lemma parse_binary_bit_chars data n acc :
  0 ≤ data →
  parse_binary acc (bit_chars data n) = Some (acc * 2 ^ Z.of_nat n + data mod 2 ^ Z.of_nat n).
Proof.
  intros Hdata. revert acc. induction n as [|n IH]; intros acc.
  - cbn. f_equal. rewrite Z.mod_1_r. lia.
  - cbn [bit_chars].
    assert (Hbit : (0 <? Z.land data (Z.shiftl 1 (Z.of_nat n))) = Z.testbit data (Z.of_nat n)).
    { rewrite Z.shiftl_1_l. destruct (Z.testbit data (Z.of_nat n)) eqn:Ht.
      - apply Z.ltb_lt.
        assert (Hl : Z.land data (2 ^ Z.of_nat n) = 2 ^ Z.of_nat n).
        { apply Z.bits_inj'. intros j Hj. rewrite Z.land_spec.
          destruct (Z.eq_dec j (Z.of_nat n)) as [-> | Hne].
          - rewrite Ht. reflexivity.
          - rewrite Z.pow2_bits_false by lia. apply andb_false_r. }
        rewrite Hl. apply Z.pow_pos_nonneg; lia.
      - apply Z.ltb_ge.
        assert (Hl : Z.land data (2 ^ Z.of_nat n) = 0).
        { apply Z.bits_inj'. intros j Hj. rewrite Z.land_spec, Z.bits_0.
          destruct (Z.eq_dec j (Z.of_nat n)) as [-> | Hne].
          - rewrite Ht. reflexivity.
          - rewrite Z.pow2_bits_false by lia. apply andb_false_r. }
        rewrite Hl. lia. }
    rewrite Hbit.
    assert (Hsplit : data mod 2 ^ Z.of_nat (S n)
                     = Z.b2z (Z.testbit data (Z.of_nat n)) * 2 ^ Z.of_nat n
                       + data mod 2 ^ Z.of_nat n).
    { rewrite Z.testbit_spec' by lia.
      rewrite Nat2Z.inj_succ, Z.pow_succ_r by lia.
      pose proof (Z.pow_pos_nonneg 2 (Z.of_nat n) ltac:(lia) ltac:(lia)).
      rewrite (Z.mul_comm 2), Z.rem_mul_r by lia. lia. }
    rewrite Hsplit, Nat2Z.inj_succ, Z.pow_succ_r by lia.
    destruct (Z.testbit data (Z.of_nat n)).
    + change (parse_binary acc ("1" +:+ bit_chars data n))
        with (parse_binary (2 * acc + 1) (bit_chars data n)).
      rewrite IH. f_equal. cbn [Z.b2z]. lia.
    + change (parse_binary acc ("0" +:+ bit_chars data n))
        with (parse_binary (2 * acc) (bit_chars data n)).
      rewrite IH. f_equal. cbn [Z.b2z]. lia.
Qed.

(** X12: the value stored for a BIT column is an int64 between 0 and
    511: the bit string is parsed with bitSize 10, which caps it. *)
Theorem bit_column_at_most_511 `{Externals} tm i meta sch row buf row' e rest :
  column_type meta = FIELD_TYPE_BIT →
  decode_column tm i meta sch row buf = Done (Continue row' e rest) →
  ∃ v, row' = <[COLUMN_NAME sch := VInt64 v]> row ∧ 0 ≤ v ≤ 511.
Proof.
  intros Hty. unfold decode_column. rewrite Hty.
  destruct (bit_bytes meta _ 0 "" None buf) as [[resp e1] buf1].
  intros [= <- <- <-]. eexists. split; [reflexivity|]. apply ParseInt_base2_10_range.
Qed.

Lemma bit_column_at_most_511_witness :
  ∃ v, (<["b" := VInt64 511]> ∅ : gmap string Value)
       = <[COLUMN_NAME (plain_schema "b" "" "bit(16)") := VInt64 v]> ∅
       ∧ 0 ≤ v ≤ 511.
Proof.
  apply (bit_column_at_most_511 (H := Reference.externals)
           (example_table_map [bit_column 16 2]) 0 (bit_column 16 2)
           (plain_schema "b" "" "bit(16)") ∅ [xff; xff]
           (<["b" := VInt64 511]> ∅) None []).
  - reflexivity.
  - vm_compute. reflexivity.
Defined.

(** X13: a non-null BIT column of 1 to 8 bits stored in one byte is
    stored as the low bits of that byte. *)
Theorem bit_column_of_one_byte `{Externals} tm schema nb i sch meta row b rest :
  live_column tm schema nb i sch meta →
  column_type meta = FIELD_TYPE_BIT →
  bytes meta = 1 → 0 < bits meta ≤ 8 →
  column_stored tm schema nb i sch row
    (b :: rest)
    (VInt64 (byte_to_Z b mod 2 ^ bits meta))
    rest.
Proof.
  intros Hlive Hty Hbytes Hbits.
  apply (column_stores _ _ _ _ _ meta); [exact Hlive|].
  unfold decode_column. rewrite Hty, Hbytes.
  change (Z.to_nat 1) with 1%nat. cbn [bit_bytes ReadByte].
  rewrite Hbytes. cbn [Z.eqb Pos.eqb String.append].
  pose proof (byte_to_Z_range b) as Hb.
  unfold ParseInt_base2.
  pose proof (parse_binary_bit_chars (byte_to_Z b) (Z.to_nat (bits meta)) 0 ltac:(lia)) as Hp.
  rewrite Z2Nat.id, Z.mul_0_l, Z.add_0_l in Hp by lia.
  destruct (bit_chars (byte_to_Z b) (Z.to_nat (bits meta))) as [|c s] eqn:Hs.
  { destruct (Z.to_nat (bits meta)) eqn:Hn; [lia|]. cbn in Hs.
    destruct (0 <? _) in Hs; discriminate. }
  change ("" +:+ String c s) with (String c s). rewrite Hp.
  pose proof (Z.mod_pos_bound (byte_to_Z b) (2 ^ bits meta) ltac:(apply Z.pow_pos_nonneg; lia)).
  pose proof (Z.mod_le (byte_to_Z b) (2 ^ bits meta) ltac:(lia) ltac:(apply Z.pow_pos_nonneg; lia)).
  change (2 ^ (10 - 1)) with 512.
  destruct (Z.leb_spec 512 (byte_to_Z b mod 2 ^ bits meta)); [lia|]. reflexivity.
Qed.

Lemma bit_column_of_one_byte_witness :
  column_stored (H := Reference.externals)
    (example_table_map [bit_column 3 1])
    [plain_schema "b" "" "bit(3)"] [x00] 0
    (plain_schema "b" "" "bit(3)") ∅
    [x0d]
    (VInt64 (byte_to_Z x0d mod 2 ^ bits (bit_column 3 1)))
    [].
Proof.
  apply (bit_column_of_one_byte (H := Reference.externals)
           (example_table_map [bit_column 3 1])
           [plain_schema "b" "" "bit(3)"] [x00] 0
           (plain_schema "b" "" "bit(3)") (bit_column 3 1) ∅ x0d []).
  - repeat split.
  - reflexivity.
  - reflexivity.
  - cbn. lia.
Defined.

(** ** Table maps and column metadata *)

Lemma retyped_refl m : retyped m m.
Proof. left. reflexivity. Qed.

Lemma retyped_trans m1 m2 m3 : retyped m1 m2 → retyped m2 m3 → retyped m1 m3.
Proof.
  unfold retyped, metadata_type.
  intros [H12 | [H1 H12]] [H23 | [H2 H23]]; [left | right | right | ]; try congruence.
  - split; congruence.
  - split; [exact H1|]. rewrite H23. exact H12.
  - destruct H12; congruence.
Qed.

Lemma Forall2_retyped_refl metas : Forall2 retyped metas metas.
Proof. induction metas; constructor; [apply retyped_refl | assumption]. Qed.

Lemma Forall2_retyped_trans l1 l2 l3 :
  Forall2 retyped l1 l2 → Forall2 retyped l2 l3 → Forall2 retyped l1 l3.
Proof.
  intros H12. revert l3. induction H12; intros l3 H23; inversion H23; subst; constructor.
  - eapply retyped_trans; eassumption.
  - apply IHForall2. assumption.
Qed.

Lemma set_meta_retyped i f metas m :
  metas !! i = Some m → retyped m (f m) →
  Forall2 retyped metas (set_meta i f metas)
  ∧ drop (S i) (set_meta i f metas) = drop (S i) metas.
Proof.
  intros Hm Hf. unfold set_meta. rewrite Hm. split.
  - revert i Hm. induction metas as [|a metas IH]; intros i Hm; [discriminate|].
    destruct i as [|i]; cbn in *.
    + simplify_eq. constructor; [exact Hf | apply Forall2_retyped_refl].
    + constructor; [apply retyped_refl | apply IH; exact Hm].
  - apply drop_insert_lt. lia.
Qed.

Lemma parseColumnMetadata_from_retyped data todo : ∀ i pos metas metas',
  Forall2 (λ t m, column_type m = column_type t) todo (drop i metas) →
  parseColumnMetadata_from data todo i pos metas = Done (metas', None) →
  Forall2 retyped metas metas' ∧ Forall (λ t, known_wire_type (column_type t)) todo.
Proof.
  induction todo as [|t todo IH]; intros i pos metas metas' Hdrop;
    cbn [parseColumnMetadata_from].
  - intros [= <-]. split; [apply Forall2_retyped_refl | constructor].
  - inversion Hdrop as [|t' m todo' rest Htm Hrest Ht Hd]; subst.
    assert (Hi : metas !! i = Some m).
    { rewrite <- (Nat.add_0_r i), <- lookup_drop, <- Hd. reflexivity. }
    assert (Hrest' : rest = drop (S i) metas).
    { rewrite (drop_S _ _ _ Hi) in Hd. congruence. }
    assert (Hstep : ∀ f ms' pos',
              known_wire_type (column_type t) → retyped m (f m) →
              parseColumnMetadata_from data todo (S i) pos' (set_meta i f metas)
              = Done (ms', None) →
              Forall2 retyped metas ms'
              ∧ Forall (λ t, known_wire_type (column_type t)) (t :: todo)).
    { intros f ms' pos' Hk Hf Hp.
      destruct (set_meta_retyped i f metas m Hi Hf) as [H1 H2].
      apply IH in Hp; [|rewrite H2, <- Hrest'; exact Hrest].
      destruct Hp as [H3 H4].
      split; [eapply Forall2_retyped_trans; eassumption | constructor; assumption]. }
    unfold byte_at, mbind, outcome_bind, Go.bind.
    destruct (column_type t) eqn:Hty; intros Hp;
      try discriminate;
      repeat match type of Hp with
             | context [match ?x with _ => _ end] =>
                 lazymatch x with
                 | parseColumnMetadata_from _ _ _ _ _ => fail
                 | _ => destruct x eqn:?; try discriminate
                 end
             | context [if ?x then _ else _] => destruct x eqn:?; try discriminate
             end;
      (eapply Hstep; [| |exact Hp];
       [repeat split; intros; discriminate|]);
      first [ left; reflexivity | right; split; [exact Htm|]; cbn; auto ].
Qed.

(** X14: a table map that parseTableMapEvent returns without an error
    has one metadata entry per column, of the column's wire type, or of type
    ENUM or SET for a column sent as STRING; and no column's wire type is
    ENUM, SET or a code outside the table of field types. *)
Theorem table_map_metadata_follows_types parser buf tm :
  parseTableMapEvent parser buf = Done (tm, None) →
  Forall2 (λ t m, metadata_type t (column_type m)) (columnTypes tm) (columnMetaData tm)
  ∧ Forall known_wire_type (columnTypes tm).
Proof.
  unfold parseTableMapEvent, parseColumnMetadata, mbind, outcome_bind, Go.bind. intros Hp.
  repeat case_match; simplify_eq;
    match goal with
    | Hm : parseColumnMetadata_from _ _ _ _ _ = Done _ |- _ =>
        apply parseColumnMetadata_from_retyped in Hm;
        [destruct Hm as [Hre Hkn]
        | rewrite drop_0; apply Forall2_same_length_lookup_2;
          [reflexivity | intros; simplify_eq; reflexivity]]
    end;
    cbn [columnTypes columnMetaData build_TableMapEvent];
    (split;
     [ rewrite Forall2_fmap_l in Hre; rewrite Forall2_fmap_l;
       eapply Forall2_impl; [exact Hre|]; intros wire m Hm; exact Hm
     | rewrite Forall_fmap; rewrite Forall_fmap in Hkn;
       eapply Forall_impl; [exact Hkn|]; intros wire Hw; exact Hw ]).
Qed.

Lemma table_map_metadata_follows_types_witness :
  ∃ tm,
    parseTableMapEvent example_parser example_table_map_event
    = Done (tm, None)
    ∧ Forall2 (λ t m, metadata_type t (column_type m)) (columnTypes tm) (columnMetaData tm)
    ∧ Forall known_wire_type (columnTypes tm).
Proof.
  eexists. split; [vm_compute; reflexivity|].
  apply (table_map_metadata_follows_types example_parser example_table_map_event).
  vm_compute. reflexivity.
Defined.

Lemma byte_at_range data pos v : byte_at data pos = Done v → 0 ≤ v < 256.
Proof.
  unfold byte_at, mbind, outcome_bind, Go.bind.
  destruct (index data pos) as [b| |]; intros [= <-]. apply byte_to_Z_range.
Qed.

Lemma set_meta_other i f metas k : k ≠ i → set_meta i f metas !! k = metas !! k.
Proof.
  intros Hk. unfold set_meta. destruct (metas !! i); [|reflexivity].
  apply list_lookup_insert_ne. congruence.
Qed.

Lemma parseColumnMetadata_from_earlier data todo : ∀ i pos metas metas' e k,
  parseColumnMetadata_from data todo i pos metas = Done (metas', e) →
  (k < i)%nat → metas' !! k = metas !! k.
Proof.
  induction todo as [|t todo IH]; intros i pos metas metas' e k;
    cbn [parseColumnMetadata_from].
  - intros [= <- <-] _. reflexivity.
  - unfold byte_at, mbind, outcome_bind, Go.bind.
    assert (Hstep : ∀ f pos',
              parseColumnMetadata_from data todo (S i) pos' (set_meta i f metas)
              = Done (metas', e) →
              (k < i)%nat → metas' !! k = metas !! k).
    { intros f pos' Hp Hk. rewrite (IH _ _ _ _ _ k Hp) by lia.
      apply set_meta_other. lia. }
    destruct (column_type t) eqn:Hty; intros Hp Hk;
      try discriminate;
      repeat match type of Hp with
             | context [match ?x with _ => _ end] =>
                 lazymatch x with
                 | parseColumnMetadata_from _ _ _ _ _ => fail
                 | _ => destruct x eqn:?; try discriminate
                 end
             | context [if ?x then _ else _] => destruct x eqn:?; try discriminate
             end;
      first [ exact (Hstep _ _ Hp Hk) | inversion Hp; subst; reflexivity ].
Qed.

Lemma metadata_records data t i pos metas m m' pos' :
  metas !! i = Some m →
  (∀ todo, parseColumnMetadata_from data (t :: todo) i pos metas =
           parseColumnMetadata_from data todo (S i) pos' (<[i := m']> metas)) →
  metadata_recorded data t i pos metas m' pos'.
Proof.
  intros Hm Hstep.
  assert (Hi : (<[i := m']> metas) !! i = Some m').
  { apply list_lookup_insert_eq. eapply lookup_lt_Some. exact Hm. }
  split; [exact Hstep|]. split; [rewrite Hstep; reflexivity|]. split.
  - intros todo metas' Hp. rewrite Hstep in Hp.
    rewrite (parseColumnMetadata_from_earlier _ _ _ _ _ _ _ i Hp) by lia. exact Hi.
  - intros -> -> ->. unfold parseColumnMetadata. rewrite Hstep. reflexivity.
Qed.

(** X15: for a BIT column with metadata bytes r and q, 8 * q + r at most
    248, parseColumnMetadata records 8 * q + r bits in (8 * q + r + 7) / 8
    bytes and goes on two bytes further. *)
Theorem bit_metadata_pass data t i pos metas m r q :
  column_type t = FIELD_TYPE_BIT → metas !! i = Some m →
  byte_at data pos = Done r → byte_at data (pos + 1) = Done q →
  8 * q + r ≤ 248 →
  metadata_recorded data t i pos metas
    (with_bits_bytes (8 * q + r) ((8 * q + r + 7) / 8) m)
    (pos + 2).
Proof.
  intros Hty Hm Hr Hq Hn.
  apply (metadata_records _ _ _ _ _ m _ _ Hm). intros todo.
  cbn [parseColumnMetadata_from]. rewrite Hty, Hr.
  cbn [mbind outcome_bind Go.bind]. rewrite Hq. cbn [mbind outcome_bind Go.bind].
  apply byte_at_range in Hr, Hq.
  unfold set_meta. rewrite Hm.
  assert (Hbits : uint8 (uint8 (q * 8) + r) = 8 * q + r).
  { unfold uint8, wrap. cbn. Z.div_mod_to_equations. lia. }
  rewrite Hbits.
  assert (Hbytes : int (uint8 (8 * q + r + 7) / 8) = (8 * q + r + 7) / 8).
  { unfold uint8, wrap. rewrite (Z.mod_small (8 * q + r + 7)) by (cbn; lia).
    apply int_small. cbn. Z.div_mod_to_equations. lia. }
  rewrite Hbytes. reflexivity.
Qed.

Lemma bit_metadata_pass_witness :
  metadata_recorded [x03; x01] (new_ColumnType FIELD_TYPE_BIT) 0 0
    [new_ColumnType FIELD_TYPE_BIT]
    (with_bits_bytes (8 * 1 + 3) ((8 * 1 + 3 + 7) / 8) (new_ColumnType FIELD_TYPE_BIT))
    (0 + 2).
Proof.
  apply (bit_metadata_pass [x03; x01] (new_ColumnType FIELD_TYPE_BIT) 0 0
           [new_ColumnType FIELD_TYPE_BIT] (new_ColumnType FIELD_TYPE_BIT) 3 1).
  - reflexivity.
  - reflexivity.
  - reflexivity.
  - reflexivity.
  - lia.
Defined.

(** X16: for a STRING column with metadata bytes b and c,
    parseColumnMetadata makes the column an ENUM or a SET of size c when b
    is the code of ENUM or SET, and otherwise records the maximum length
    768 + c: b is shifted out of the 8-bit operand and plays no part in it. *)
Theorem string_metadata_pass data t i pos metas m b c :
  column_type t = FIELD_TYPE_STRING → metas !! i = Some m →
  byte_at data pos = Done b → byte_at data (pos + 1) = Done c →
  metadata_recorded data t i pos metas
    (match FieldType_of_byte (byte_of_Z b) with
            | (FIELD_TYPE_ENUM | FIELD_TYPE_SET) as real => with_type_size real c m
            | _ => with_max_length (768 + c) m
            end)
    (pos + 2).
Proof.
  intros Hty Hm Hb Hc.
  apply (metadata_records _ _ _ _ _ m _ _ Hm). intros todo.
  cbn [parseColumnMetadata_from]. rewrite Hty, Hb.
  cbn [mbind outcome_bind Go.bind]. rewrite Hc. cbn [mbind outcome_bind Go.bind].
  apply byte_at_range in Hb, Hc.
  assert (Hmeta : uint16 (uint8 (uint8 (Z.shiftl b 8) + c)) = c).
  { rewrite Z.shiftl_mul_pow2 by lia. unfold uint16, uint8, wrap. cbn.
    Z.div_mod_to_equations. lia. }
  rewrite Hmeta.
  assert (Hlow : Z.land c 255 = c).
  { change 255 with (Z.ones 8). rewrite Z.land_ones by lia. apply Z.mod_small. cbn. lia. }
  assert (Hhigh : Z.land (Z.shiftr c 4) 768 = 0).
  { apply Z.bits_inj'. intros j Hj. rewrite Z.land_spec, Z.bits_0, Z.shiftr_spec by lia.
    destruct (Z.lt_ge_cases j 8) as [Hlt | Hge].
    - assert (Hj8 : j = 0 ∨ j = 1 ∨ j = 2 ∨ j = 3 ∨ j = 4 ∨ j = 5 ∨ j = 6 ∨ j = 7) by lia.
      destruct Hj8 as [-> | [-> | [-> | [-> | [-> | [-> | [-> | ->]]]]]]];
        cbn; apply andb_false_r.
    - destruct (Z.eq_dec c 0) as [-> | Hc0]; [rewrite Z.bits_0; reflexivity|].
      rewrite (Z.bits_above_log2 c (j + 4)); [reflexivity | lia |].
      apply Z.log2_lt_pow2; [lia|].
      pose proof (Z.pow_le_mono_r 2 8 (j + 4) ltac:(lia) ltac:(lia)). cbn in *. lia. }
  rewrite Hlow, Hhigh. change (Z.lxor 0 768) with 768.
  assert (Hmax : uint16 (768 + c) = 768 + c) by (apply Z.mod_small; cbn; lia).
  rewrite Hmax. unfold set_meta. rewrite Hm.
  destruct (FieldType_of_byte (byte_of_Z b)); reflexivity.
Qed.

Lemma string_metadata_pass_witness :
  metadata_recorded [xfe; x14] (new_ColumnType FIELD_TYPE_STRING) 0 0
    [new_ColumnType FIELD_TYPE_STRING]
    (match FieldType_of_byte (byte_of_Z 254) with
     | (FIELD_TYPE_ENUM | FIELD_TYPE_SET) as real =>
         with_type_size real 20 (new_ColumnType FIELD_TYPE_STRING)
     | _ => with_max_length (768 + 20) (new_ColumnType FIELD_TYPE_STRING)
     end)
    (0 + 2).
Proof.
  apply (string_metadata_pass [xfe; x14] (new_ColumnType FIELD_TYPE_STRING) 0 0
           [new_ColumnType FIELD_TYPE_STRING] (new_ColumnType FIELD_TYPE_STRING) 254 20).
  - reflexivity.
  - reflexivity.
  - reflexivity.
  - reflexivity.
Defined.

(** ** The parser and its caches *)

Lemma append_schemas_other tableId rs : ∀ m m' errs id,
  append_schemas tableId rs m = (m', errs) → id ≠ tableId → m' !! id = m !! id.
Proof.
  induction rs as [|r rs IH]; intros m m' errs id; cbn.
  - intros [= <- <-] _. reflexivity.
  - destruct (column_schema_of_row r); try (intros [= <- <-] _; reflexivity).
    intros Ha Hne. rewrite (IH _ _ _ _ Ha Hne). apply lookup_insert_ne. congruence.
Qed.

Lemma GetTableSchema_frame `{Externals} p tableId database table p' :
  GetTableSchema p tableId database table = Done p' →
  settings p' = settings p ∧ place p' = place p ∧ tableMap p' = tableMap p
  ∧ format p' = format p
  ∧ ∀ id, id ≠ tableId → tableSchemaMap p' !! id = tableSchemaMap p !! id.
Proof.
  unfold GetTableSchema, GetTableSchemaByName. intros Hg.
  repeat case_match; simplify_eq. repeat split.
  intros id Hne. cbn. eapply append_schemas_other; eassumption.
Qed.

Lemma parseEvent_settings `{Externals} p data p' event file err :
  parseEvent p data = Done (p', event, file, err) → settings p' = settings p.
Proof.
  unfold parseEvent, mbind, outcome_bind, Go.bind. intros Hp.
  repeat case_match; simplify_eq; try reflexivity;
    match goal with
    | Hg : GetTableSchema _ _ _ _ = Done _ |- _ =>
        apply GetTableSchema_frame in Hg; destruct Hg as [Hs _]; exact Hs
    end.
Qed.

(** X17: parseEvent leaves the settings of the parser (command register,
    hard stop, database filter, subscription, checksum switch) as they are,
    forgets no table map, returns the file name that the parser holds after
    the event, and moves the parser in the binlog on a ROTATE event only. *)
Theorem parseEvent_frame `{Externals} p data p' event file err :
  parseEvent p data = Done (p', event, file, err) →
  settings p' = settings p
  ∧ dom (tableMap p) ⊆ dom (tableMap p')
  ∧ file = binlogFileName p'
  ∧ (byte_at data 4 ≠ Done ROTATE_EVENT → place p' = place p).
Proof.
  unfold parseEvent, mbind, outcome_bind, Go.bind. intros Hp.
  repeat case_match; simplify_eq;
    try match goal with
        | Hg : GetTableSchema _ _ _ _ = Done _ |- _ =>
            apply GetTableSchema_frame in Hg;
            destruct Hg as (Hs & Hpl & Htm & _); unfold place in Hpl; cbn in Hs, Hpl, Htm
        end;
    (split; [first [reflexivity | exact Hs]|]);
    (split; [first [reflexivity | rewrite Htm | idtac];
             cbn; rewrite ?dom_insert_L; set_solver|]);
    (split; [first [reflexivity | cbn; congruence]|]);
    intros Hrot; first [reflexivity | exact Hpl | idtac].
  match goal with
  | Ht : (_ =? ROTATE_EVENT) = true |- _ => apply Z.eqb_eq in Ht; subst
  end.
  contradiction Hrot. reflexivity.
Qed.

Lemma parseEvent_frame_witness :
  ∃ p' event file err,
    parseEvent (H := Reference.externals) example_parser_with_table example_rotate
    = Done (p', event, file, err)
    ∧ settings p' = settings example_parser_with_table
    ∧ dom (tableMap example_parser_with_table) ⊆ dom (tableMap p')
    ∧ file = binlogFileName p'
    ∧ (byte_at example_rotate 4 ≠ Done ROTATE_EVENT → place p' = place example_parser_with_table).
Proof.
  do 4 eexists. split; [vm_compute; reflexivity|].
  eapply (parseEvent_frame (H := Reference.externals) example_parser_with_table example_rotate).
  vm_compute. reflexivity.
Defined.

(** X18: a schema in the cache stays as it is until a ROTATE event: a
    TABLE_MAP event asks the catalog only for a table id that has none. *)
Theorem parseEvent_keeps_cached_schemas `{Externals} p data p' event file err id schema :
  parseEvent p data = Done (p', event, file, err) →
  byte_at data 4 ≠ Done ROTATE_EVENT →
  tableSchemaMap p !! id = Some schema →
  tableSchemaMap p' !! id = Some schema.
Proof.
  unfold parseEvent, mbind, outcome_bind, Go.bind. intros Hp Hrot Hid.
  repeat case_match; simplify_eq; try exact Hid.
  - match goal with
    | Ht : (_ =? ROTATE_EVENT) = true |- _ => apply Z.eqb_eq in Ht; subst
    end.
    contradiction Hrot. reflexivity.
  - match goal with
    | Hg : GetTableSchema _ _ _ _ = Done _ |- _ =>
        apply GetTableSchema_frame in Hg; destruct Hg as (_ & _ & _ & _ & Hother)
    end.
    rewrite Hother; [exact Hid|]. cbn in *. congruence.
Qed.

Lemma parseEvent_keeps_cached_schemas_witness :
  ∃ p',
    (parseEvent (H := Reference.externals) example_parser_with_table example_table_map_event
     = Done (p', Some (mkEventReslut
                         (decode_header (example_header x13 x00 x01))
                         "shop" "mysql-bin.000007" 120 "item" "" [] ""),
             "mysql-bin.000007", None))
    ∧ tableSchemaMap p' !! 42 = Some [flag_schema].
Proof.
  eexists. split; [vm_compute; reflexivity|].
  eapply (parseEvent_keeps_cached_schemas (H := Reference.externals)
            example_parser_with_table example_table_map_event).
  - vm_compute. reflexivity.
  - vm_compute. discriminate.
  - vm_compute. reflexivity.
Defined.

(** X19: an event of fewer than five bytes, too short to hold the type
    byte of the common header, makes parseEvent panic: slice bounds when
    checksums are on and fewer than four bytes came, index out of range
    otherwise. *)
Theorem parseEvent_short_packet_panics `{Externals} p data :
  (length data < 5)%nat →
  parseEvent p data =
  Panic (if binlog_checksum p && (length data <? 4)%nat then SliceBounds
         else IndexOutOfRange).
Proof.
  intros Hl. unfold parseEvent, event_bytes, byte_at, Len.
  assert (Hix : index data 4 = Panic IndexOutOfRange).
  { unfold index. cbn. rewrite lookup_ge_None_2; [reflexivity|]. cbn. lia. }
  destruct (binlog_checksum p); cbn [andb].
  - destruct (Nat.ltb_spec (length data) 4).
    + destruct (Z.ltb_spec (Z.of_nat (length data) - 4) 0); [reflexivity | lia].
    + destruct (Z.ltb_spec (Z.of_nat (length data) - 4) 0); [lia|].
      cbn [mbind outcome_bind Go.bind]. rewrite Hix. reflexivity.
  - cbn [mbind outcome_bind Go.bind]. rewrite Hix. reflexivity.
Qed.

Lemma parseEvent_short_packet_panics_witness :
  parseEvent (H := Reference.externals) example_parser [x00; x01] =
  Panic (if binlog_checksum example_parser && (length [x00; x01] <? 4)%nat
         then SliceBounds else IndexOutOfRange).
Proof.
  apply (parseEvent_short_packet_panics (H := Reference.externals) example_parser [x00; x01]).
  cbn. lia.
Defined.

Lemma append_schemas_all tableId rs : ∀ m cs,
  schemas_of_rows rs = Some cs →
  ∃ m', append_schemas tableId rs m = (m', None)
        ∧ (cs ≠ [] → m' !! tableId = Some (default [] (m !! tableId) ++ cs))
        ∧ (cs = [] → m' = m).
Proof.
  unfold schemas_of_rows.
  induction rs as [|r rs IH]; intros m cs; cbn.
  - intros [= <-]. exists m. repeat split. intros Hne. contradiction.
  - destruct (column_schema_of_row r) as [c| |] eqn:Hc; cbn; try discriminate.
    destruct (mapM _ rs) as [cs'|] eqn:Hcs; cbn; [|discriminate].
    intros [= <-].
    destruct (IH (<[tableId := default [] (m !! tableId) ++ [c]]> m) cs' eq_refl)
      as (m' & Ha & Hsome & Hnone).
    exists m'. split; [exact Ha|]. split; [|discriminate].
    intros _. destruct cs' as [|c' cs'].
    + rewrite (Hnone eq_refl), lookup_insert_eq. reflexivity.
    + rewrite Hsome by discriminate. rewrite lookup_insert_eq. cbn.
      rewrite <- app_assoc. reflexivity.
Qed.

(** X20: when the catalog answers with at least one column and every
    row converts, GetTableSchemaByName reports no error, registers the table
    under its qualified name so that GetTableId returns its id, and appends
    the columns to the schema list that the cache holds for the id: a list
    that is there already is extended, not replaced. *)
Theorem GetTableSchemaByName_appends `{Externals} p tableId database table rs cs :
  information_schema_columns database table = Some rs →
  schemas_of_rows rs = Some cs → cs ≠ [] →
  let p' := (GetTableSchemaByName p tableId database table).1 in
  (GetTableSchemaByName p tableId database table).2 = None
  ∧ GetTableId p' database table = tableId
  ∧ tableSchemaMap p' !! tableId = Some (schema_of p tableId ++ cs).
Proof.
  intros Hrs Hcs Hne. unfold GetTableSchemaByName. rewrite Hrs.
  cbn [tableSchemaMap set_tableNameMap].
  destruct (append_schemas_all tableId rs (tableSchemaMap p) cs Hcs)
    as (m' & -> & Hsome & _).
  cbn. split; [reflexivity|]. split.
  - unfold GetTableId. cbn. rewrite lookup_insert_eq. reflexivity.
  - apply Hsome, Hne.
Qed.

Lemma GetTableSchemaByName_appends_witness :
  ∃ cs,
    schemas_of_rows (default [] (Reference.columns "shop" "item")) = Some cs ∧
    let p' := (GetTableSchemaByName (H := Reference.externals)
                 example_parser_two_keys 42 "shop" "item").1 in
    (GetTableSchemaByName (H := Reference.externals)
       example_parser_two_keys 42 "shop" "item").2 = None
    ∧ GetTableId p' "shop" "item" = 42
    ∧ tableSchemaMap p' !! 42 = Some (schema_of example_parser_two_keys 42 ++ cs).
Proof.
  eexists. split; [vm_compute; reflexivity|].
  apply (GetTableSchemaByName_appends (H := Reference.externals)
           example_parser_two_keys 42 "shop" "item"
           (default [] (Reference.columns "shop" "item"))).
  - reflexivity.
  - vm_compute. reflexivity.
  - discriminate.
Defined.

Lemma append_schemas_fails tableId rs : ∀ m r,
  r ∈ rs → (String.length (r_COLUMN_TYPE r) < 4)%nat →
  ∃ e, (append_schemas tableId rs m).2 = Some e.
Proof.
  induction rs as [|r0 rs IH]; intros m r Hin Hshort; [inversion Hin|].
  cbn. destruct (column_schema_of_row r0) as [c| |] eqn:Hc; try (eexists; reflexivity).
  apply elem_of_cons in Hin. destruct Hin as [-> | Hin].
  - unfold column_schema_of_row in Hc.
    destruct (Nat.ltb_spec (String.length (r_COLUMN_TYPE r0)) 4); [discriminate | lia].
  - eapply IH; eassumption.
Qed.

(** X21: a catalog row whose COLUMN_TYPE has fewer than four characters
    makes the slice COLUMN_TYPE[0:4] panic; GetTableSchemaByName turns the
    panic into an error and GetTableSchema asks again without end. *)
Theorem short_column_type_is_retried_for_ever `{Externals} p tableId database table rs r :
  information_schema_columns database table = Some rs →
  r ∈ rs → (String.length (r_COLUMN_TYPE r) < 4)%nat →
  GetTableSchema p tableId database table = Diverge.
Proof.
  intros Hrs Hin Hshort. unfold GetTableSchema, GetTableSchemaByName. rewrite Hrs.
  destruct (append_schemas_fails tableId rs
              (tableSchemaMap (set_tableNameMap
                 (<[database +:+ "." +:+ table := tableId]> (tableNameMap p)) p))
              r Hin Hshort) as [e He].
  destruct (append_schemas _ _ _) as [m errs]. cbn in He. subst errs. reflexivity.
Qed.

Lemma short_column_type_is_retried_for_ever_witness :
  GetTableSchema (H := externals_without_width) example_parser 42 "shop" "item" = Diverge.
Proof.
  apply (short_column_type_is_retried_for_ever (H := externals_without_width)
           example_parser 42 "shop" "item"
           [mk_information_schema_row "id" "PRI" "int" "" "" "0" ""]
           (mk_information_schema_row "id" "PRI" "int" "" "" "0" "")).
  - reflexivity.
  - apply list_elem_of_here.
  - cbn. lia.
Defined.

(** ** The filters of the dump loop *)

Lemma refresh_on_query_settings `{Externals} p event p' event' :
  refresh_on_query p event = Done (p', event') → settings p' = settings p.
Proof.
  unfold refresh_on_query, mbind, outcome_bind, Go.bind. intros Hr.
  repeat case_match; simplify_eq; try reflexivity;
    match goal with
    | Hg : GetTableSchema _ _ _ _ = Done _ |- _ =>
        apply GetTableSchema_frame in Hg; destruct Hg as [Hs _]; exact Hs
    end.
Qed.

Lemma passes_filters_settings p p' event :
  settings p' = settings p → passes_filters p event → passes_filters p' event.
Proof.
  unfold settings, passes_filters. intros [= _ _ _ -> -> _] Hp. exact Hp.
Qed.

Lemma dispatch_Deliver_passes p event :
  dispatch p event = Done Deliver → passes_filters p event.
Proof.
  unfold dispatch, passes_filters, mbind, outcome_bind, Go.bind. intros Hd.
  destruct (0 <? Z.of_nat (base.size (replicateDoDb p))) eqn:Hsize; cbn [andb] in Hd.
  - destruct (bool_decide (replicateDoDb p !! SchemaName event = None)) eqn:Hdb;
      [discriminate|].
    apply bool_decide_eq_false in Hdb.
    destruct (index (eventDo p) _) as [[|] | |]; try discriminate.
    split; [right | reflexivity].
    destruct (replicateDoDb p !! SchemaName event); [eexists; reflexivity | contradiction].
  - apply Z.ltb_ge in Hsize.
    destruct (index (eventDo p) _) as [[|] | |]; try discriminate.
    split; [left; lia | reflexivity].
Qed.

Lemma delivered_passes `{Externals} input : ∀ parser trace event,
  Delivered event ∈ run_trace (DumpBinlog_loop parser input trace) →
  Delivered event ∈ trace ∨ passes_filters parser event.
Proof.
  induction input as [|r input IH]; intros parser trace event; cbn [DumpBinlog_loop].
  - repeat case_match; delivered_before.
  - destruct (negb (dumpBinLogStatus parser =? 1) && (dumpBinLogStatus parser =? 0));
      [delivered_before|].
    destruct (negb (dumpBinLogStatus parser =? 1) && (dumpBinLogStatus parser =? 2));
      [delivered_before|].
    destruct r as [pkt | e]; [|delivered_before].
    destruct pkt as [|pkt0 payload]; [delivered_before|].
    destruct (byte_to_Z pkt0 =? 254); [delivered_before|].
    destruct (byte_to_Z pkt0 =? 0).
    + destruct (parseEvent parser payload) as [[[[p1 ev1] f] e1] | |] eqn:Hparse;
        [|delivered_before ..].
      pose proof (parseEvent_settings _ _ _ _ _ _ Hparse) as Hs1.
      destruct ev1 as [ev1|]; destruct e1 as [e1|]; [delivered_before | | delivered_before | ].
      * destruct (refresh_on_query p1 ev1) as [[p2 ev2] | |] eqn:Hrefresh;
          [|delivered_before ..].
        pose proof (refresh_on_query_settings _ _ _ _ Hrefresh) as Hs2.
        assert (Hback : ∀ p ev, settings p = settings p2 →
                                passes_filters p ev → passes_filters parser ev).
        { intros p ev Hs. apply passes_filters_settings. congruence. }
        destruct (dispatch p2 ev2) as [[| |] | |] eqn:Hdispatch;
          [ | delivered_before | | delivered_before ..].
        -- intros Hin. apply IH in Hin. destruct Hin as [Hin | Hok]; [left; exact Hin|].
           right. exact (Hback _ _ eq_refl Hok).
        -- intros Hin. apply IH in Hin. destruct Hin as [Hin | Hok].
           ++ apply elem_of_app in Hin. destruct Hin as [Hin | Hin]; [left; exact Hin|].
              apply list_elem_of_singleton in Hin. inversion Hin; subst. right.
              exact (Hback _ _ eq_refl (dispatch_Deliver_passes _ _ Hdispatch)).
           ++ right. exact (Hback _ _ eq_refl Hok).
      * intros Hin. apply IH in Hin. destruct Hin as [Hin | Hok]; [left; exact Hin|].
        right. apply (passes_filters_settings p1); [congruence | exact Hok].
    + destruct (Strings.Contains _ _); [delivered_before|].
      intros Hin. apply IH in Hin. destruct Hin as [Hin | Hok]; [left|right; exact Hok].
      apply Delivered_in_sent in Hin. exact Hin.
Qed.

(** X22: the dump loop delivers no event that its filters reject: the
    database of every delivered event is in the include-set when one is
    configured, and its type is subscribed. *)
Theorem delivered_events_pass_filters `{Externals} written parser input event :
  Delivered event ∈ run_trace (DumpBinlog written parser input) →
  passes_filters parser event.
Proof.
  unfold DumpBinlog. destruct written as [e|].
  - cbn. rewrite list_elem_of_singleton. discriminate.
  - intros Hin. apply delivered_passes in Hin.
    destruct Hin as [Hin | Hok]; [|exact Hok].
    apply elem_of_nil in Hin. contradiction.
Qed.

Lemma delivered_events_pass_filters_witness :
  ∃ event,
    run_trace (DumpBinlog (H := Reference.externals) None
                 (example_parser_with_max "mysql-bin.000010")
                 [Packet (x00 :: example_table_map_event_5000)])
    = [Delivered event]
    ∧ passes_filters (example_parser_with_max "mysql-bin.000010") event.
Proof.
  eexists. split; [vm_compute; reflexivity|].
  apply (delivered_events_pass_filters (H := Reference.externals) None
           (example_parser_with_max "mysql-bin.000010")
           [Packet (x00 :: example_table_map_event_5000)]).
  vm_compute. apply list_elem_of_here.
Defined.

(** X23: the subscription table has 36 entries; an event of type 36 or
    above that passes the database filter is looked up beyond its end, and
    the loop panics. *)
Theorem event_type_beyond_subscription_panics p event :
  length (eventDo p) = 36%nat →
  36 ≤ EventType (Header event) < 256 →
  base.size (replicateDoDb p) = 0%nat ∨ is_Some (replicateDoDb p !! SchemaName event) →
  dispatch p event = Panic IndexOutOfRange.
Proof.
  intros Hlen Hty Hdb. unfold dispatch.
  assert (Hfilter : (0 <? Z.of_nat (base.size (replicateDoDb p)))
                    && bool_decide (replicateDoDb p !! SchemaName event = None) = false).
  { destruct Hdb as [-> | [v Hv]]; [reflexivity|].
    rewrite Hv, andb_false_r. reflexivity. }
  rewrite Hfilter, int_small by (cbn; lia).
  unfold index. destruct (Z.ltb_spec (EventType (Header event)) 0); [lia|].
  rewrite lookup_ge_None_2 by lia. reflexivity.
Qed.

Lemma event_type_beyond_subscription_panics_witness :
  dispatch example_parser (new_EventReslut (mkEventHeader 0 40 1 0 0 0))
  = Panic IndexOutOfRange.
Proof.
  apply (event_type_beyond_subscription_panics example_parser
           (new_EventReslut (mkEventHeader 0 40 1 0 0 0))).
  - reflexivity.
  - cbn. lia.
  - left. reflexivity.
Defined.

(** ** ALTER TABLE statements *)

Lemma append_cons c s t : String c s +:+ t = String c (s +:+ t).
Proof. reflexivity. Qed.

Lemma lacks_app c s t : lacks c (s +:+ t) = lacks c s && lacks c t.
Proof.
  induction s as [|a s IH]; [reflexivity|].
  rewrite append_cons. cbn [lacks]. rewrite IH, andb_assoc. reflexivity.
Qed.

Lemma TrimRight_app a b c :
  b ≠ "" → Strings.TrimRight b c = b → Strings.TrimRight (a +:+ b) c = a +:+ b.
Proof.
  intros Hne Hb. induction a as [|x a IH]; [exact Hb|].
  rewrite append_cons. cbn [Strings.TrimRight]. rewrite IH.
  destruct (a +:+ b) eqn:Hab; [|reflexivity].
  destruct a; [|discriminate]. contradiction.
Qed.

Lemma Split_word w s sep :
  lacks sep w = true → Strings.Split (w +:+ String sep s) sep = w :: Strings.Split s sep.
Proof.
  induction w as [|c w IH]; intros Hw.
  - change ("" +:+ String sep s) with (String sep s). cbn [Strings.Split].
    rewrite Ascii.eqb_refl. reflexivity.
  - cbn [lacks] in Hw. apply andb_prop in Hw. destruct Hw as [Hc Hw].
    rewrite append_cons. cbn [Strings.Split].
    apply negb_true_iff in Hc. rewrite Hc, (IH Hw). reflexivity.
Qed.

Lemma Split_last w sep : lacks sep w = true → Strings.Split w sep = [w].
Proof.
  induction w as [|c w IH]; intros Hw; [reflexivity|].
  cbn [lacks] in Hw. apply andb_prop in Hw. destruct Hw as [Hc Hw].
  cbn [Strings.Split]. apply negb_true_iff in Hc. rewrite Hc, (IH Hw). reflexivity.
Qed.

Lemma HasPrefix_empty s : Strings.HasPrefix s "" = true.
Proof. destruct s; reflexivity. Qed.

Lemma Remove_app a b :
  Strings.Remove (a +:+ b) "`" = Strings.Remove a "`" +:+ Strings.Remove b "`".
Proof.
  unfold Strings.Remove. induction a as [|c a IH]; [reflexivity|].
  rewrite append_cons. cbn [Strings.remove_from Strings.HasPrefix String.length Nat.sub].
  rewrite !HasPrefix_empty, !andb_true_r. destruct (Ascii.eqb "`" c); [exact IH|].
  rewrite append_cons, IH. reflexivity.
Qed.

Lemma Remove_lacks s : lacks "`" s = true → Strings.Remove s "`" = s.
Proof.
  unfold Strings.Remove. induction s as [|c s IH]; intros Hs; [reflexivity|].
  cbn [lacks] in Hs. apply andb_prop in Hs. destruct Hs as [Hc Hs].
  cbn [Strings.remove_from Strings.HasPrefix String.length Nat.sub].
  apply negb_true_iff in Hc. rewrite Ascii.eqb_sym in Hc.
  rewrite HasPrefix_empty, andb_true_r, Hc, (IH Hs). reflexivity.
Qed.

Lemma append_empty_r s : s +:+ "" = s.
Proof. induction s as [|c s IH]; [reflexivity|]. rewrite append_cons, IH. reflexivity. Qed.

Lemma Remove_quoted q s : lacks "`" s = true → Strings.Remove (quoted q s) "`" = s.
Proof.
  intros Hs. destruct q; cbn [quoted]; [|apply Remove_lacks, Hs].
  rewrite !Remove_app, (Remove_lacks s Hs).
  change (Strings.Remove "`" "`") with "".
  change ("" +:+ s +:+ "") with (s +:+ ""). apply append_empty_r.
Qed.

Lemma lacks_quoted c q s : lacks c "`" = true → lacks c (quoted q s) = lacks c s.
Proof.
  intros Hc. destruct q; cbn [quoted]; [|reflexivity].
  rewrite !lacks_app, Hc, andb_true_r. reflexivity.
Qed.

Lemma IndexByte_lacks s c : lacks c s = true → Strings.IndexByte s c = -1.
Proof.
  induction s as [|a s IH]; intros Hs; [reflexivity|].
  cbn [lacks] in Hs. apply andb_prop in Hs. destruct Hs as [Ha Hs].
  cbn [Strings.IndexByte]. apply negb_true_iff in Ha. rewrite Ha, (IH Hs). reflexivity.
Qed.

Lemma IndexByte_app a c b :
  lacks c a = true → Strings.IndexByte (a +:+ String c b) c = Z.of_nat (String.length a).
Proof.
  induction a as [|x a IH]; intros Ha.
  - change ("" +:+ String c b) with (String c b). cbn [Strings.IndexByte].
    rewrite Ascii.eqb_refl. reflexivity.
  - cbn [lacks] in Ha. apply andb_prop in Ha. destruct Ha as [Hx Ha].
    rewrite append_cons. cbn [Strings.IndexByte String.length].
    apply negb_true_iff in Hx. rewrite Hx, (IH Ha).
    destruct (Z.ltb_spec (Z.of_nat (String.length a)) 0); lia.
Qed.

Lemma substring_prefix a b : substring 0 (String.length a) (a +:+ b) = a.
Proof.
  induction a as [|x a IH]; [destruct b; reflexivity|].
  rewrite append_cons. cbn [String.length substring]. rewrite IH. reflexivity.
Qed.

Lemma substring_skip a b n :
  substring (String.length a) n (a +:+ b) = substring 0 n b.
Proof. induction a as [|x a IH]; [reflexivity|]. rewrite append_cons. exact IH. Qed.

Lemma substring_all s : substring 0 (String.length s) s = s.
Proof. induction s as [|x s IH]; [reflexivity|]. cbn. rewrite IH. reflexivity. Qed.

Lemma length_app_string a b : String.length (a +:+ b) = (String.length a + String.length b)%nat.
Proof. induction a as [|x a IH]; [reflexivity|]. rewrite append_cons. cbn. rewrite IH. reflexivity. Qed.

Lemma app_assoc_string a b c : (a +:+ b) +:+ c = a +:+ (b +:+ c).
Proof. induction a as [|x a IH]; [reflexivity|]. rewrite !append_cons, IH. reflexivity. Qed.

(** The third word of an ALTER TABLE statement, backticks removed, is
    split at its first dot. *)
Lemma GetQueryTableName_token token name rest :
  lacks " " token = true → Strings.Remove token "`" = name → ends_in_text rest →
  GetQueryTableName ("ALTER TABLE " +:+ token +:+ " " +:+ rest) =
  Done (let i := Strings.IndexByte name "." in
        if 0 <? i then (Strings.slice name 0 (Z.to_nat i),
                        Strings.slice name (Z.to_nat i + 1) (String.length name))
        else ("", name)).
Proof.
  intros Htoken Hname [Hne Hrest]. unfold GetQueryTableName.
  assert (Htrim : Strings.Trim ("ALTER TABLE " +:+ token +:+ " " +:+ rest) " "
                  = "ALTER TABLE " +:+ token +:+ " " +:+ rest).
  { unfold Strings.Trim.
    change (Strings.TrimLeft ("ALTER TABLE " +:+ token +:+ " " +:+ rest) " ")
      with ("ALTER TABLE " +:+ token +:+ " " +:+ rest).
    rewrite <- !app_assoc_string. apply TrimRight_app; assumption. }
  rewrite Htrim.
  change (String.length ("ALTER TABLE " +:+ token +:+ " " +:+ rest))
    with (12 + String.length (token +:+ " " +:+ rest))%nat.
  destruct (Nat.ltb_spec (12 + String.length (token +:+ " " +:+ rest)) 11); [lia|].
  change (Strings.ToUpper (Strings.slice ("ALTER TABLE " +:+ token +:+ " " +:+ rest) 0 11))
    with "ALTER TABLE".
  rewrite bool_decide_eq_true_2 by reflexivity.
  change ("ALTER TABLE " +:+ token +:+ " " +:+ rest)
    with ("ALTER" +:+ String " " ("TABLE" +:+ String " " (token +:+ String " " rest))).
  rewrite !Split_word by (first [reflexivity | exact Htoken]).
  unfold Rows.index. change (Z.to_nat 2) with 2%nat.
  cbn [Z.ltb Z.compare lookup list_lookup mbind outcome_bind Go.bind].
  rewrite Hname. destruct (0 <? Strings.IndexByte name "."); reflexivity.
Qed.

Lemma GetQueryTableName_qualified q1 q2 db tbl rest :
  lacks " " db = true → lacks "`" db = true → lacks "." db = true → db ≠ "" →
  lacks " " tbl = true → lacks "`" tbl = true →
  ends_in_text rest →
  GetQueryTableName
    ("ALTER TABLE " +:+ quoted q1 db +:+ "." +:+ quoted q2 tbl +:+ " " +:+ rest)
  = Done (db, tbl).
Proof.
  intros Hdb1 Hdb2 Hdb3 Hne Ht1 Ht2 Hrest.
  replace ("ALTER TABLE " +:+ quoted q1 db +:+ "." +:+ quoted q2 tbl +:+ " " +:+ rest)
    with ("ALTER TABLE " +:+ (quoted q1 db +:+ "." +:+ quoted q2 tbl) +:+ " " +:+ rest)
    by (rewrite !app_assoc_string; reflexivity).
  rewrite (GetQueryTableName_token _ (db +:+ "." +:+ tbl) rest); [| | | exact Hrest].
  - assert (Hi : Strings.IndexByte (db +:+ "." +:+ tbl) "." = Z.of_nat (String.length db)).
    { apply (IndexByte_app db "." tbl Hdb3). }
    cbv zeta. rewrite Hi.
    assert (Hpos : (0 <? Z.of_nat (String.length db)) = true).
    { apply Z.ltb_lt. destruct db; [contradiction | cbn; lia]. }
    rewrite Hpos.
    unfold Strings.slice. rewrite Nat2Z.id, Nat.sub_0_r, substring_prefix.
    replace (db +:+ "." +:+ tbl) with ((db +:+ ".") +:+ tbl)
      by (rewrite app_assoc_string; reflexivity).
    replace (String.length db + 1)%nat with (String.length (db +:+ "."))
      by (rewrite length_app_string; reflexivity).
    rewrite substring_skip, (length_app_string (db +:+ ".") tbl).
    replace (String.length (db +:+ ".") + String.length tbl - String.length (db +:+ "."))%nat
      with (String.length tbl) by lia.
    rewrite substring_all. reflexivity.
  - rewrite !lacks_app, !lacks_quoted by reflexivity. rewrite Hdb1, Ht1. reflexivity.
  - rewrite !Remove_app, !Remove_quoted by assumption. reflexivity.
Qed.

(** X24: for a statement that starts with ALTER TABLE, one space, a
    table name free of spaces, one space and a text that does not end in a
    space, GetQueryTableName returns the names with their backticks removed:
    database and table for a name qualified by a non-empty database name
    without a dot, and the empty database with the table for a name without
    a dot. *)
Theorem GetQueryTableName_of_alter_table q1 q2 db tbl rest :
  lacks " " db = true → lacks "`" db = true → lacks "." db = true →
  lacks " " tbl = true → lacks "`" tbl = true →
  ends_in_text rest →
  (db ≠ "" →
   GetQueryTableName
     ("ALTER TABLE " +:+ quoted q1 db +:+ "." +:+ quoted q2 tbl +:+ " " +:+ rest)
   = Done (db, tbl))
  ∧ (lacks "." tbl = true →
     GetQueryTableName ("ALTER TABLE " +:+ quoted q2 tbl +:+ " " +:+ rest)
     = Done ("", tbl)).
Proof.
  intros Hdb1 Hdb2 Hdb3 Ht1 Ht2 Hrest. split.
  - intros Hne. apply GetQueryTableName_qualified; assumption.
  - intros Ht3.
    rewrite (GetQueryTableName_token _ tbl rest); [| | | exact Hrest].
    + cbv zeta. rewrite (IndexByte_lacks tbl "." Ht3). reflexivity.
    + rewrite lacks_quoted by reflexivity. exact Ht1.
    + apply Remove_quoted, Ht2.
Qed.

Lemma GetQueryTableName_of_alter_table_witness :
  ("shop" ≠ "" →
   GetQueryTableName
     ("ALTER TABLE " +:+ quoted true "shop" +:+ "." +:+ quoted true "item"
      +:+ " " +:+ "ADD COLUMN note varchar(20)")
   = Done ("shop", "item"))
  ∧ (lacks "." "item" = true →
     GetQueryTableName
       ("ALTER TABLE " +:+ quoted true "item" +:+ " " +:+ "ADD COLUMN note varchar(20)")
     = Done ("", "item")).
Proof.
  apply (GetQueryTableName_of_alter_table true true "shop" "item"
           "ADD COLUMN note varchar(20)").
  - reflexivity.
  - reflexivity.
  - reflexivity.
  - reflexivity.
  - reflexivity.
  - split; [discriminate | reflexivity].
Defined.

(** ** The schema refresh of the dump loop *)

(** X25: when a QUERY event alters a table that is registered under
    its qualified name with a non-zero table id, the schema refresh of the
    dump loop names the event after the table and appends the columns that
    the catalog now gives to the schema list cached for the id: the columns
    cached before stay in front. *)
Theorem alter_table_extends_cached_schema `{Externals}
    p event q1 q2 db tbl rest tableId rs cs :
  EventType (Header event) = QUERY_EVENT →
  Query event = "ALTER TABLE " +:+ quoted q1 db +:+ "." +:+ quoted q2 tbl +:+ " " +:+ rest →
  lacks " " db = true → lacks "`" db = true → lacks "." db = true → db ≠ "" →
  lacks " " tbl = true → lacks "`" tbl = true → tbl ≠ "" →
  ends_in_text rest →
  tableNameMap p !! (db +:+ "." +:+ tbl) = Some tableId → 0 < tableId →
  information_schema_columns db tbl = Some rs →
  schemas_of_rows rs = Some cs → cs ≠ [] →
  ∃ p', refresh_on_query p event = Done (p', with_names db tbl event)
        ∧ tableSchemaMap p' !! tableId = Some (schema_of p tableId ++ cs).
Proof.
  intros Hty Hq Hdb1 Hdb2 Hdb3 Hdb Ht1 Ht2 Ht Hrest Hid Hpos Hrs Hcs Hne.
  unfold refresh_on_query. rewrite Hty, Z.eqb_refl, Hq.
  rewrite (GetQueryTableName_qualified q1 q2 db tbl rest Hdb1 Hdb2 Hdb3 Hdb Ht1 Ht2 Hrest).
  cbn [mbind outcome_bind Go.bind].
  rewrite (bool_decide_eq_false_2 (tbl = "")) by exact Ht.
  rewrite (bool_decide_eq_false_2 (db = "")) by exact Hdb.
  cbn [negb SchemaName with_names].
  unfold GetTableId. rewrite Hid.
  destruct (Z.ltb_spec 0 tableId); [|lia].
  unfold GetTableSchema, GetTableSchemaByName. rewrite Hrs.
  cbn [tableSchemaMap set_tableNameMap].
  destruct (append_schemas_all tableId rs (tableSchemaMap p) cs Hcs)
    as (m' & -> & Hsome & _).
  cbn [mbind outcome_bind Go.bind]. eexists. split; [reflexivity|].
  cbn. apply Hsome, Hne.
Qed.

Lemma alter_table_extends_cached_schema_witness :
  ∃ cs,
    schemas_of_rows (default [] (Reference.columns "shop" "item")) = Some cs ∧
    ∃ p',
      refresh_on_query (H := Reference.externals)
        (set_tableNameMap {[ "shop.item" := 42 ]} example_parser_two_keys)
        example_alter_event
      = Done (p', with_names "shop" "item" example_alter_event)
      ∧ tableSchemaMap p' !! 42
        = Some (schema_of (set_tableNameMap {[ "shop.item" := 42 ]} example_parser_two_keys) 42
                ++ cs).
Proof.
  eexists. split; [vm_compute; reflexivity|].
  apply (alter_table_extends_cached_schema (H := Reference.externals)
           (set_tableNameMap {[ "shop.item" := 42 ]} example_parser_two_keys)
           example_alter_event true true "shop" "item" "ADD COLUMN note varchar(20)" 42
           (default [] (Reference.columns "shop" "item"))).
  - reflexivity.
  - reflexivity.
  - reflexivity.
  - reflexivity.
  - reflexivity.
  - discriminate.
  - reflexivity.
  - reflexivity.
  - discriminate.
  - split; [discriminate | reflexivity].
  - vm_compute. reflexivity.
  - lia.
  - reflexivity.
  - vm_compute. reflexivity.
  - discriminate.
Defined.

(** ** Configuration files *)

Lemma terminated_lines_tail tail : ∀ acc,
  lacks "010" tail = true → terminated_lines acc tail = [].
Proof.
  induction tail as [|c tail IH]; intros acc Ht; [reflexivity|].
  cbn [lacks] in Ht. apply andb_prop in Ht. destruct Ht as [Hc Ht].
  cbn [terminated_lines]. apply negb_true_iff in Hc. rewrite Hc. apply IH, Ht.
Qed.

Lemma terminated_lines_line l rest : ∀ acc,
  lacks "010" l = true →
  terminated_lines acc (l +:+ String "010" rest)
  = (acc +:+ l +:+ String "010" "") :: terminated_lines "" rest.
Proof.
  induction l as [|c l IH]; intros acc Hl.
  - change ("" +:+ String "010" rest) with (String "010" rest).
    cbn [terminated_lines]. rewrite Ascii.eqb_refl. reflexivity.
  - cbn [lacks] in Hl. apply andb_prop in Hl. destruct Hl as [Hc Hl].
    rewrite append_cons. cbn [terminated_lines]. apply negb_true_iff in Hc. rewrite Hc.
    rewrite (IH _ Hl), app_assoc_string. reflexivity.
Qed.

Lemma terminated_lines_drop_tail body tail : ∀ acc,
  lacks "010" tail = true →
  terminated_lines acc (body +:+ String "010" tail)
  = terminated_lines acc (body +:+ String "010" "").
Proof.
  induction body as [|c body IH]; intros acc Ht.
  - change ("" +:+ String "010" tail) with (String "010" tail).
    change ("" +:+ String "010" "") with (String "010" "").
    cbn [terminated_lines]. rewrite Ascii.eqb_refl, (terminated_lines_tail tail "" Ht).
    reflexivity.
  - rewrite !append_cons. cbn [terminated_lines].
    destruct (Ascii.eqb c "010"); rewrite (IH _ Ht); reflexivity.
Qed.

(** X26: LoadConf leaves the loop on io.EOF before it looks at the line
    read, so what follows the last newline of the file is dropped: the file
    loads as if it ended at that newline. *)
Theorem LoadConf_drops_unterminated_tail TrimSpace body tail :
  lacks "010" tail = true →
  LoadConf TrimSpace (Some (body +:+ String "010" tail))
  = LoadConf TrimSpace (Some (body +:+ String "010" "")).
Proof.
  intros Ht. unfold LoadConf. rewrite (terminated_lines_drop_tail body tail "" Ht).
  reflexivity.
Qed.

Lemma LoadConf_drops_unterminated_tail_witness :
  LoadConf ascii_TrimSpace (Some ("[Bubod]" +:+ String "010" "pos=7"))
  = LoadConf ascii_TrimSpace (Some ("[Bubod]" +:+ String "010" "")).
Proof.
  apply (LoadConf_drops_unterminated_tail ascii_TrimSpace "[Bubod]" "pos=7").
  reflexivity.
Defined.

(** X27: SetConfigVal returns true exactly when the module and the key
    exist; then GetConfigVal gives the new value for them; otherwise the
    configuration is unchanged; and in either case every other module and
    key reads as before. *)
Theorem SetConfigVal_changes_existing_keys_only MyConf module key value :
  ((SetConfigVal MyConf module key value).2 = true
   ↔ ∃ m old, MyConf !! module = Some m ∧ m !! key = Some old)
  ∧ ((SetConfigVal MyConf module key value).2 = true →
     GetConfigVal (SetConfigVal MyConf module key value).1 module key = value)
  ∧ ((SetConfigVal MyConf module key value).2 = false →
     (SetConfigVal MyConf module key value).1 = MyConf)
  ∧ (∀ module' key', (module', key') ≠ (module, key) →
     GetConfigVal (SetConfigVal MyConf module key value).1 module' key'
     = GetConfigVal MyConf module' key').
Proof.
  unfold SetConfigVal, GetConfigVal.
  destruct (MyConf !! module) as [m|] eqn:Hm.
  - destruct (m !! key) as [old|] eqn:Hk; cbn [fst snd].
    + split; [split; [intros _; eauto | reflexivity]|].
      split; [intros _; rewrite lookup_insert_eq; cbn; rewrite lookup_insert_eq; reflexivity|].
      split; [discriminate|].
      intros module' key' Hne.
      destruct (decide (module' = module)) as [-> | Hmod].
      * rewrite lookup_insert_eq, Hm. cbn.
        rewrite lookup_insert_ne by congruence. reflexivity.
      * rewrite lookup_insert_ne by congruence. reflexivity.
    + split; [split; [discriminate | intros (m' & old & [= <-] & Hold); congruence]|].
      split; [discriminate|]. split; reflexivity.
  - cbn [fst snd].
    split; [split; [discriminate | intros (m' & old & Hsome & _); discriminate]|].
    split; [discriminate|]. split; reflexivity.
Qed.

Lemma IndexByte_found s c : lacks c s = false → 0 ≤ Strings.IndexByte s c.
Proof.
  induction s as [|a s IH]; intros Hs; [discriminate|].
  cbn [lacks] in Hs. cbn [Strings.IndexByte].
  destruct (Ascii.eqb a c); [lia|]. cbn in Hs. specialize (IH Hs).
  destruct (Z.ltb_spec (Strings.IndexByte s c) 0); lia.
Qed.

(** X28: a file whose first line is neither blank, nor a header, nor a
    comment makes LoadConf panic: on the slice line[0:i] with i = -1 when
    the line has no equals sign, and on the assignment into the nil map
    per[stringKey] otherwise, since no section was opened. *)
Theorem LoadConf_setting_before_section_panics TrimSpace l rest c s :
  lacks "010" l = true →
  TrimSpace (l +:+ String "010" "") = String c s →
  Ascii.eqb c "[" && Ascii.eqb (last_byte c s) "]" = false →
  Ascii.eqb c "#" = false → Ascii.eqb c ";" = false →
  LoadConf TrimSpace (Some (l +:+ String "010" rest))
  = Crashed (if lacks "=" (String c s) then SliceBoundsOutOfRange
              else AssignmentToNilMap).
Proof.
  intros Hl Htrim Hheader Hhash Hsemi. unfold LoadConf.
  rewrite (terminated_lines_line l rest "" Hl).
  change ("" +:+ l +:+ String "010" "") with (l +:+ String "010" "").
  cbn [load_lines]. unfold load_line. rewrite Htrim, Hheader, Hhash, Hsemi.
  destruct (lacks "=" (String c s)) eqn:Heq.
  - rewrite (IndexByte_lacks _ _ Heq). reflexivity.
  - pose proof (IndexByte_found _ _ Heq) as Hi.
    destruct (Z.ltb_spec (Strings.IndexByte (String c s) "=") 0); [lia|].
    rewrite lookup_empty. reflexivity.
Qed.

Lemma LoadConf_setting_before_section_panics_witness :
  LoadConf ascii_TrimSpace (Some ("pos=7" +:+ String "010" "[Bubod]"))
  = Crashed (if lacks "=" (String "p" "os=7") then SliceBoundsOutOfRange
              else AssignmentToNilMap).
Proof.
  apply (LoadConf_setting_before_section_panics ascii_TrimSpace "pos=7" "[Bubod]"
           "p"%char "os=7").
  - reflexivity.
  - reflexivity.
  - reflexivity.
  - reflexivity.
  - reflexivity.
Defined.

Lemma last_byte_app c a d b : last_byte c (a +:+ String d b) = last_byte d b.
Proof.
  revert c. induction a as [|x a IH]; intros c; [reflexivity|].
  rewrite append_cons. cbn [last_byte]. apply IH.
Qed.

Lemma plain_edges_last c s : plain_edges (String c s) = true → is_plain (last_byte c s) = true.
Proof. cbn. intros H. apply andb_prop in H. apply H. Qed.

Lemma plain_edges_setting k v :
  plain_edges k = true → plain_edges v = true → plain_edges (k +:+ "=" +:+ v) = true.
Proof.
  intros Hk Hv.
  assert (Hlast : is_plain (last_byte "=" v) = true).
  { destruct v as [|d v]; [reflexivity|]. cbn [last_byte]. apply plain_edges_last, Hv. }
  destruct k as [|c k].
  - change ("" +:+ "=" +:+ v) with (String "=" v). cbn [plain_edges].
    rewrite Hlast. reflexivity.
  - rewrite append_cons. cbn [plain_edges] in *.
    apply andb_prop in Hk. destruct Hk as [Hc _]. rewrite Hc.
    change ("=" +:+ v) with (String "=" v). rewrite last_byte_app. exact Hlast.
Qed.

Section LoadSection.
Variable TrimSpace : string → string.
Hypothesis Htrim : trims_space TrimSpace.
Variable sec : string.

Lemma load_setting k v per m :
  setting_key k = true → setting_value v = true →
  per !! sec = Some m →
  load_line TrimSpace (k +:+ "=" +:+ v +:+ String "010" "") per sec
  = inr (<[sec := <[k := v]> m]> per, sec).
Proof.
  unfold setting_key, setting_value. intros Hk Hv Hper.
  apply andb_prop in Hk. destruct Hk as [Hk Hfirst].
  apply andb_prop in Hk. destruct Hk as [Hk Hknl].
  apply andb_prop in Hk. destruct Hk as [Hkp Hkeq].
  apply andb_prop in Hv. destruct Hv as [Hvp Hvnl].
  destruct Htrim as [Hnl Hplain].
  unfold load_line.
  replace (k +:+ "=" +:+ v +:+ String "010" "")
    with ((k +:+ "=" +:+ v) +:+ String "010" "")
    by (rewrite !app_assoc_string; reflexivity).
  rewrite Hnl, (Hplain _ (plain_edges_setting k v Hkp Hvp)).
  assert (Hi : Strings.IndexByte (k +:+ "=" +:+ v) "=" = Z.of_nat (String.length k)).
  { apply (IndexByte_app k "=" v Hkeq). }
  assert (Hkey : Strings.slice (k +:+ "=" +:+ v) 0 (String.length k) = k).
  { unfold Strings.slice. rewrite Nat.sub_0_r. apply substring_prefix. }
  assert (Hval : Strings.slice (k +:+ "=" +:+ v) (String.length k + 1)
                   (String.length (k +:+ "=" +:+ v)) = v).
  { unfold Strings.slice.
    replace (k +:+ "=" +:+ v) with ((k +:+ "=") +:+ v)
      by (rewrite app_assoc_string; reflexivity).
    replace (String.length k + 1)%nat with (String.length (k +:+ "="))
      by (rewrite length_app_string; reflexivity).
    rewrite substring_skip, (length_app_string (k +:+ "=") v).
    replace (String.length (k +:+ "=") + String.length v - String.length (k +:+ "="))%nat
      with (String.length v) by lia.
    apply substring_all. }
  destruct (k +:+ "=" +:+ v) as [|c line] eqn:Hline.
  { destruct k; discriminate. }
  assert (Hc : Ascii.eqb c "[" = false ∧ Ascii.eqb c "#" = false ∧ Ascii.eqb c ";" = false).
  { destruct k as [|c0 k].
    - inversion Hline; subst. repeat split.
    - rewrite append_cons in Hline. inversion Hline; subst.
      apply andb_prop in Hfirst. destruct Hfirst as [Hfirst Hc3].
      apply andb_prop in Hfirst. destruct Hfirst as [Hc1 Hc2].
      apply negb_true_iff in Hc1, Hc2, Hc3. auto. }
  destruct Hc as (Hc1 & Hc2 & Hc3). rewrite Hc1, Hc2, Hc3. cbn [andb].
  rewrite Hi. destruct (Z.ltb_spec (Z.of_nat (String.length k)) 0); [lia|].
  rewrite Nat2Z.id, Hkey, Hval, (Hplain k Hkp), (Hplain v Hvp), Hper. reflexivity.
Qed.

Lemma load_settings kvs : ∀ per m,
  Forall (λ kv, setting_key kv.1 = true ∧ setting_value kv.2 = true) kvs →
  per !! sec = Some m →
  load_lines TrimSpace
    (terminated_lines "" (foldr (λ kv t, setting_line kv +:+ t) "" kvs)) per sec
  = Loaded (<[sec := foldl (λ m kv, <[kv.1 := kv.2]> m) m kvs]> per).
Proof.
  induction kvs as [|[k v] kvs IH]; intros per m Hok Hper.
  - cbn. rewrite (insert_id _ _ _ Hper). reflexivity.
  - inversion Hok as [|kv kvs' [Hk Hv] Hrest]; subst. cbn [fst snd] in Hk, Hv.
    cbn [foldr foldl fst snd]. unfold setting_line at 1. cbn [fst snd].
    replace ((k +:+ "=" +:+ v +:+ String "010" "") +:+
             foldr (λ kv t, setting_line kv +:+ t) "" kvs)
      with ((k +:+ "=" +:+ v) +:+
            String "010" (foldr (λ kv t, setting_line kv +:+ t) "" kvs))
      by (rewrite !app_assoc_string; reflexivity).
    rewrite terminated_lines_line.
    + change ("" +:+ (k +:+ "=" +:+ v) +:+ String "010" "")
        with ((k +:+ "=" +:+ v) +:+ String "010" "").
      replace ((k +:+ "=" +:+ v) +:+ String "010" "")
        with (k +:+ "=" +:+ v +:+ String "010" "")
        by (rewrite !app_assoc_string; reflexivity).
      cbn [load_lines]. rewrite (load_setting k v per m Hk Hv Hper).
      rewrite (IH _ (<[k := v]> m) Hrest) by apply lookup_insert_eq.
      rewrite insert_insert_eq. reflexivity.
    + unfold setting_key, setting_value in Hk, Hv.
      rewrite !lacks_app.
      apply andb_prop in Hk. destruct Hk as [Hk _].
      apply andb_prop in Hk. destruct Hk as [_ Hk].
      apply andb_prop in Hv. destruct Hv as [_ Hv].
      rewrite Hk, Hv. reflexivity.
Qed.

End LoadSection.

Lemma trim_right_newline t : trim_right (t +:+ String "010" "") = trim_right t.
Proof.
  induction t as [|c t IH]; [reflexivity|].
  rewrite append_cons. cbn [trim_right]. rewrite IH. reflexivity.
Qed.

Lemma trim_left_newline s :
  trim_left (s +:+ String "010" "") = trim_left s +:+ String "010" ""
  ∨ (trim_left s = "" ∧ trim_left (s +:+ String "010" "") = "").
Proof.
  induction s as [|c s IH]; [right; split; reflexivity|].
  rewrite append_cons. cbn [trim_left]. destruct (is_space c); [exact IH|].
  left. reflexivity.
Qed.

Lemma trim_right_plain r : ∀ c,
  is_space (last_byte c r) = false → trim_right (String c r) = String c r.
Proof.
  induction r as [|d r IH]; intros c Hc.
  - cbn in *. rewrite Hc. reflexivity.
  - cbn [last_byte] in Hc. cbn [trim_right] in *. rewrite (IH d Hc). reflexivity.
Qed.

Lemma ascii_TrimSpace_trims_space : trims_space ascii_TrimSpace.
Proof.
  split; unfold ascii_TrimSpace.
  - intros s. destruct (trim_left_newline s) as [-> | [-> ->]]; [|reflexivity].
    apply trim_right_newline.
  - intros [|c r] Hs; [reflexivity|]. cbn [plain_edges] in Hs.
    apply andb_prop in Hs. destruct Hs as [Hc Hl]. unfold is_plain in Hc, Hl.
    apply andb_prop in Hc. destruct Hc as [Hc _].
    apply andb_prop in Hl. destruct Hl as [Hl _].
    apply negb_true_iff in Hc, Hl.
    cbn [trim_left]. rewrite Hc. apply trim_right_plain, Hl.
Qed.

(** X29: for any TrimSpace that ignores a final newline and keeps texts
    with plain edges, a file made of the header of one section and of
    setting lines name=value loads as the configuration with that one
    section, holding each name with the value that its last line gives. *)
Theorem LoadConf_section TrimSpace sec kvs :
  trims_space TrimSpace →
  plain_edges sec = true → lacks "010" sec = true →
  Forall (λ kv, setting_key kv.1 = true ∧ setting_value kv.2 = true) kvs →
  LoadConf TrimSpace (Some (section_text sec kvs)) = Loaded {[sec := settings_map kvs]}.
Proof.
  intros Htrim Hsec Hnl Hok. unfold LoadConf, section_text.
  replace ("[" +:+ sec +:+ "]" +:+
           String "010" (foldr (λ kv t, setting_line kv +:+ t) "" kvs))
    with (("[" +:+ sec +:+ "]") +:+
          String "010" (foldr (λ kv t, setting_line kv +:+ t) "" kvs))
    by (rewrite !app_assoc_string; reflexivity).
  rewrite terminated_lines_line by (rewrite !lacks_app, Hnl; reflexivity).
  change ("" +:+ ("[" +:+ sec +:+ "]") +:+ String "010" "")
    with (("[" +:+ sec +:+ "]") +:+ String "010" "").
  cbn [load_lines]. unfold load_line.
  destruct Htrim as [Hline Hplain].
  assert (Hheader : TrimSpace (("[" +:+ sec +:+ "]") +:+ String "010" "")
                    = String "[" (sec +:+ "]")).
  { rewrite Hline. apply Hplain. cbn [plain_edges append].
    change (sec +:+ "]") with (sec +:+ String "]" ""). rewrite last_byte_app. reflexivity. }
  rewrite Hheader.
  change (sec +:+ "]") with (sec +:+ String "]" "") at 1. rewrite last_byte_app.
  cbn [Ascii.eqb Bool.eqb andb last_byte].
  assert (Hkey : Strings.slice (String "[" (sec +:+ "]")) 1
                   (String.length (String "[" (sec +:+ "]")) - 1) = sec).
  { unfold Strings.slice. cbn [String.length]. rewrite length_app_string. cbn [String.length].
    replace (S (String.length sec + 1) - 1 - 1)%nat with (String.length sec) by lia.
    cbn [substring]. apply substring_prefix. }
  rewrite Hkey, (Hplain sec Hsec).
  rewrite (load_settings TrimSpace (conj Hline Hplain) sec kvs _ ∅ Hok)
    by apply lookup_insert_eq.
  rewrite insert_insert_eq. reflexivity.
Qed.

Lemma LoadConf_section_witness :
  LoadConf ascii_TrimSpace
    (Some (section_text "Bubod" [("bubod_dump_pos", "/tmp/pos"); ("server_id", "7")]))
  = Loaded {[ "Bubod" := settings_map [("bubod_dump_pos", "/tmp/pos"); ("server_id", "7")] ]}.
Proof.
  apply (LoadConf_section ascii_TrimSpace "Bubod"
           [("bubod_dump_pos", "/tmp/pos"); ("server_id", "7")]).
  - exact ascii_TrimSpace_trims_space.
  - reflexivity.
  - reflexivity.
  - repeat constructor.
Defined.

(** ** The wire layout of a table map *)

Lemma readFixedLengthInteger_le_bytes n v rest :
  0 ≤ v < 2 ^ (8 * Z.of_nat n) →
  readFixedLengthInteger (Z.of_nat n) (le_bytes n v ++ rest) = (v, None, rest).
Proof.
  intros Hv. unfold readFixedLengthInteger. rewrite Nat2Z.id.
  rewrite binary_Read_app by apply length_le_bytes.
  rewrite le_uint_le_bytes, Z.mod_small by exact Hv. reflexivity.
Qed.

Lemma readLengthEncodedInt_short (n : Z) rest :
  0 ≤ n < 251 → readLengthEncodedInt (byte_of_Z n :: rest) = (n, None, rest).
Proof.
  intros Hn. unfold readLengthEncodedInt. cbn [ReadByte].
  rewrite byte_to_Z_of_Z, Z.mod_small by lia.
  destruct (Z.eqb_spec n 252); [lia|]. destruct (Z.eqb_spec n 253); [lia|].
  destruct (Z.eqb_spec n 254); [lia|]. destruct (Z.eqb_spec n 255); [lia|]. reflexivity.
Qed.

(** X30: a TABLE_MAP event laid out as the server writes it (common
    header, table id in 4 or 6 bytes by the post-header length of the format
    description, flags, the two names each with a length byte and a zero
    terminator, the counted column types, the counted metadata, the null
    bitmap of (columns + 7) / 8 bytes) is read back field by field, with the
    metadata that parseColumnMetadata gives for the types. *)
Theorem parseTableMapEvent_reads_back parser header hs tableId flags
    schema table types metadata metas bitmap rest :
  length header = 19%nat →
  headerSize_of parser (decode_header header) = Done hs →
  0 ≤ tableId < 2 ^ (8 * Z.of_nat (table_id_width hs)) → 0 ≤ flags < 65536 →
  (length schema < 256)%nat → (length table < 256)%nat →
  (length types < 251)%nat → (length metadata < 251)%nat →
  parseColumnMetadata ((λ b, new_ColumnType (FieldType_of_byte b)) <$> types) metadata
  = Done (metas, None) →
  Z.of_nat (length bitmap) = (Z.of_nat (length types) + 7) / 8 →
  parseTableMapEvent parser
    (header ++ table_map_bytes hs tableId flags schema table types metadata bitmap ++ rest)
  = Done (build_TableMapEvent (decode_header header) tableId flags
            (string_of_bytes schema) (string_of_bytes table)
            (FieldType_of_byte <$> types) metas bitmap, None).
Proof.
  intros Hh Hhs Hid Hflags Hs Ht Hty Hmd Hmeta Hbm.
  unfold parseTableMapEvent, table_map_bytes.
  rewrite read_header_app by exact Hh. rewrite Hhs. cbn [mbind outcome_bind Go.bind].
  rewrite <- !app_assoc.
  replace (if hs =? 6 then 4 else 6) with (Z.of_nat (table_id_width hs))
    by (unfold table_id_width; destruct (hs =? 6); reflexivity).
  rewrite readFixedLengthInteger_le_bytes by exact Hid.
  rewrite (binary_Read_app 2 _ 0 (le_bytes 2 flags)) by apply length_le_bytes.
  rewrite le_uint_le_bytes.
  assert (Hf : uint16 (flags mod 2 ^ (8 * Z.of_nat 2)) = flags).
  { unfold uint16, wrap. change (2 ^ (8 * Z.of_nat 2)) with 65536. change (2 ^ 16) with 65536.
    rewrite Z.mod_mod by lia. apply Z.mod_small, Hflags. }
  rewrite Hf.
  unfold name_bytes, counted_bytes. rewrite <- !app_assoc. cbn [app ReadByte].
  rewrite byte_to_Z_of_Z, Z.mod_small by lia.
  rewrite (int_small (Z.of_nat (length schema))) by (cbn; lia).
  rewrite Next_app. cbn [mbind outcome_bind Go.bind app ReadByte].
  rewrite byte_to_Z_of_Z, Z.mod_small by lia.
  rewrite (int_small (Z.of_nat (length table))) by (cbn; lia).
  rewrite Next_app. cbn [mbind outcome_bind Go.bind app ReadByte].
  rewrite readLengthEncodedInt_short by lia.
  rewrite (int_small (Z.of_nat (length types))) by (cbn; lia).
  rewrite Next_app. cbn [mbind outcome_bind Go.bind].
  destruct (Z.ltb_spec (Len types) (Z.of_nat (length types))) as [Hlt|_];
    [unfold Len in Hlt; lia|].
  cbn [app]. rewrite readLengthEncodedInt_short by lia.
  rewrite (int_small (Z.of_nat (length metadata))) by (cbn; lia).
  rewrite Next_app. cbn [mbind outcome_bind Go.bind].
  rewrite Hmeta. cbn [mbind outcome_bind Go.bind].
  assert (Hn : int (uint64 (Z.of_nat (length types) + 7) / 8) = Z.of_nat (length bitmap)).
  { unfold uint64, wrap. rewrite (Z.mod_small (Z.of_nat (length types) + 7)) by (cbn; lia).
    rewrite int_small by (cbn; Z.div_mod_to_equations; lia). lia. }
  rewrite Hn.
  destruct (Z.ltb_spec (Len (bitmap ++ rest)) (Z.of_nat (length bitmap))) as [Hlt|_];
    [unfold Len in Hlt; rewrite length_app in Hlt; lia|].
  rewrite Next_app. reflexivity.
Qed.

Lemma parseTableMapEvent_reads_back_witness :
  parseTableMapEvent example_parser
    (example_header x13 x00 x01
     ++ table_map_bytes 8 42 0 (text "shop") (text "item") [x01; x01] [] [x00] ++ [])
  = Done (build_TableMapEvent (decode_header (example_header x13 x00 x01)) 42 0
            (string_of_bytes (text "shop")) (string_of_bytes (text "item"))
            (FieldType_of_byte <$> [x01; x01])
            [new_ColumnType FIELD_TYPE_TINY; new_ColumnType FIELD_TYPE_TINY] [x00], None).
Proof.
  apply (parseTableMapEvent_reads_back example_parser (example_header x13 x00 x01) 8 42 0
           (text "shop") (text "item") [x01; x01] []
           [new_ColumnType FIELD_TYPE_TINY; new_ColumnType FIELD_TYPE_TINY] [x00] []).
  - reflexivity.
  - vm_compute. reflexivity.
  - vm_compute. split; [discriminate | reflexivity].
  - lia.
  - cbn. lia.
  - cbn. lia.
  - cbn. lia.
  - cbn. lia.
  - vm_compute. reflexivity.
  - reflexivity.
Defined.
